(** * FaceApp: recognition, cooldown, enrolment and OTP logic of [main.py]

    A shallow embedding of the attendance application's core logic
    ([FaceApp] in [main.py]) together with the properties its design
    document states about it.

    Conventions of the embedding.
    - A Python [str] is the Stdlib string of its UTF-8 bytes. Search,
      split, replace, comparison and [strip] (which knows every
      character that Python counts as whitespace) are then Python's on
      every text. The case mappings are Python's on ASCII text only:
      what depends on [lower], [upper] or [title] of a text typed in is
      stated for ASCII text, see [PyStr.is_ascii].
    - Python [float] timestamps and confidences are rationals ([Q]),
      i.e. exact arithmetic.
    - Python [dict]s keyed by employee id are [gmap string _]; the label
      map, whose iteration order the code relies on, is an association
      list in insertion order.
    - The sample directory is a [gmap] from file name to file content;
      [os.listdir] followed by [sorted] is the sorted list of its keys.
      Paths that lead through other directories are left to an
      interface, the class [FileSystem].
    - Effects (log lines, UI notifications, thread starts, file writes)
      are recorded, in program order, in an explicit trace. An exception
      that no handler catches ends the thread: it is the last effect of
      the trace of that thread.
    - Calls of different threads on shared objects interleave; where
      that matters a schedule says which thread makes the next call.
    - OpenCV ([cv2]) is an interface, the class [OpenCV]. *)

From Stdlib Require Import ZArith QArith List String Ascii Lia Bool.
From Stdlib Require Import Sorting.Mergesort Sorting.Sorted Sorting.Permutation.
From stdpp Require Import base gmap strings list fin_maps sorting.

Open Scope string_scope.
Open Scope list_scope.

(* ===================================================================== *)
(** * Python string primitives *)
(* ===================================================================== *)

Module PyStr.

Definition is_upper (c : ascii) : bool :=
  let n := nat_of_ascii c in (65 <=? n)%nat && (n <=? 90)%nat.

Definition is_lower (c : ascii) : bool :=
  let n := nat_of_ascii c in (97 <=? n)%nat && (n <=? 122)%nat.

Definition is_digit (c : ascii) : bool :=
  let n := nat_of_ascii c in (48 <=? n)%nat && (n <=? 57)%nat.

(** Every character of the text is an ASCII character. *)
Fixpoint is_ascii (s : string) : bool :=
  match s with
  | EmptyString => true
  | String c s' => (nat_of_ascii c <? 128)%nat && is_ascii s'
  end.

(** The characters that [str.strip()] removes are those with
    [str.isspace]. Those of one byte: TAB, LF, VT, FF, CR, FS, GS, RS,
    US, SPACE. *)
Definition is_space (c : ascii) : bool :=
  let n := nat_of_ascii c in
  ((9 <=? n)%nat && (n <=? 13)%nat) || ((28 <=? n)%nat && (n <=? 32)%nat).

(** Those of two bytes: U+0085 (C2 85) and U+00A0 (C2 A0). *)
Definition is_space2 (a b : ascii) : bool :=
  let '(x, y) := (nat_of_ascii a, nat_of_ascii b) in
  (x =? 194)%nat && ((y =? 133)%nat || (y =? 160)%nat).

(** Those of three bytes: U+1680 (E1 9A 80), U+2000 to U+200A
    (E2 80 80 to E2 80 8A), U+2028, U+2029, U+202F (E2 80 A8, A9, AF),
    U+205F (E2 81 9F) and U+3000 (E3 80 80). *)
Definition is_space3 (a b c : ascii) : bool :=
  let '(x, y, z) := (nat_of_ascii a, nat_of_ascii b, nat_of_ascii c) in
  ((x =? 225)%nat && (y =? 154)%nat && (z =? 128)%nat)
  || ((x =? 226)%nat && (y =? 128)%nat
      && (((128 <=? z)%nat && (z <=? 138)%nat)
          || (z =? 168)%nat || (z =? 169)%nat || (z =? 175)%nat))
  || ((x =? 226)%nat && (y =? 129)%nat && (z =? 159)%nat)
  || ((x =? 227)%nat && (y =? 128)%nat && (z =? 128)%nat).

Definition lower_char (c : ascii) : ascii :=
  if is_upper c then ascii_of_nat (nat_of_ascii c + 32) else c.

Definition upper_char (c : ascii) : ascii :=
  if is_lower c then ascii_of_nat (nat_of_ascii c - 32) else c.

(** [s.lower()] and [s.upper()], on ASCII text. *)
Fixpoint lower (s : string) : string :=
  match s with
  | EmptyString => EmptyString
  | String c s' => String (lower_char c) (lower s')
  end.

Fixpoint upper (s : string) : string :=
  match s with
  | EmptyString => EmptyString
  | String c s' => String (upper_char c) (upper s')
  end.

(** [s.title()], on ASCII text: the first letter of every run of letters
    in upper case, the other letters of the run in lower case. *)
Fixpoint title_from (in_word : bool) (s : string) : string :=
  match s with
  | EmptyString => EmptyString
  | String c s' =>
      if is_upper c || is_lower c
      then String (if in_word then lower_char c else upper_char c)
                  (title_from true s')
      else String c (title_from false s')
  end.

Definition title (s : string) : string := title_from false s.

(** [s.lstrip()]: the whitespace characters at the start are dropped,
    whatever their length in bytes. *)
Fixpoint lstrip (s : string) : string :=
  match s with
  | EmptyString => EmptyString
  | String a s1 =>
      if is_space a then lstrip s1
      else match s1 with
           | EmptyString => s
           | String b s2 =>
               if is_space2 a b then lstrip s2
               else match s2 with
                    | EmptyString => s
                    | String c s3 => if is_space3 a b c then lstrip s3 else s
                    end
           end
  end.

(** The text consists of whitespace characters only. *)
Definition all_space (s : string) : bool :=
  match lstrip s with
  | EmptyString => true
  | String _ _ => false
  end.

(** [s.rstrip()]: the text is cut where what follows is whitespace
    only. *)
Fixpoint rstrip (s : string) : string :=
  match s with
  | EmptyString => EmptyString
  | String c s' => if all_space (String c s') then EmptyString else String c (rstrip s')
  end.

(** [s.strip()]. *)
Definition strip (s : string) : string := rstrip (lstrip s).

(** [s.startswith(p)]. *)
Fixpoint startswith (p s : string) : bool :=
  match p, s with
  | EmptyString, _ => true
  | String a p', String b s' => Ascii.eqb a b && startswith p' s'
  | String _ _, EmptyString => false
  end.

(** [s.endswith(p)]. *)
Definition endswith (p s : string) : bool :=
  (String.length p <=? String.length s)%nat
  && String.eqb (substring (String.length s - String.length p) (String.length p) s) p.

(** [s.partition("_")] restricted to the found case: the text before
    and after the first occurrence of [sep], if any. *)
Fixpoint cut (sep : ascii) (s : string) : option (string * string) :=
  match s with
  | EmptyString => None
  | String c s' =>
      if Ascii.eqb c sep then Some (EmptyString, s')
      else match cut sep s' with
           | Some (a, b) => Some (String c a, b)
           | None => None
           end
  end.

(** [x in s] for a character [x]. *)
Fixpoint contains (x : ascii) (s : string) : bool :=
  match s with
  | EmptyString => false
  | String c s' => Ascii.eqb c x || contains x s'
  end.

(** Decimal digits of a non-negative integer, most significant first.
    [fuel] bounds the number of digits produced. *)
Definition digit_char (d : Z) : ascii := ascii_of_nat (48 + Z.to_nat d).

Fixpoint digits (fuel : nat) (n : Z) : string :=
  match fuel with
  | O => EmptyString
  | S f =>
      if (n <? 10)%Z then String (digit_char n) EmptyString
      else digits f (n / 10) +:+ String (digit_char (n mod 10)) EmptyString
  end.

(** An integer below [2 ^ k] has at most [k] decimal digits. *)
Definition digits_fuel (n : Z) : nat := S (Z.to_nat (Z.log2 n)).

(** [str(n)] for an [int]. *)
Definition str (n : Z) : string :=
  if (n <? 0)%Z then String "-"%char (digits (digits_fuel (- n)) (- n))
  else digits (digits_fuel n) n.

(** The value of a string of decimal digits ([int(s)] on such strings). *)
Definition digit_val (c : ascii) : Z := Z.of_nat (nat_of_ascii c) - 48.

Fixpoint value_from (acc : Z) (s : string) : Z :=
  match s with
  | EmptyString => acc
  | String c s' => value_from (10 * acc + digit_val c) s'
  end.

(** ["0" * k]. *)
Fixpoint zeros (k : nat) : string :=
  match k with
  | O => EmptyString
  | S k' => String "0"%char (zeros k')
  end.

(** [f"{n:03d}"] for a non-negative [n]: at least three digits, padded
    on the left with zeros. *)
Definition fmt03d (n : nat) : string :=
  let s := str (Z.of_nat n) in
  zeros (3 - String.length s) +:+ s.

Fixpoint all_digits (s : string) : bool :=
  match s with
  | EmptyString => true
  | String c s' => is_digit c && all_digits s'
  end.

(** [s.replace(old, new)] for one-character [old] and [new]. *)
Fixpoint replace_char (old new : ascii) (s : string) : string :=
  match s with
  | EmptyString => EmptyString
  | String c s' =>
      String (if Ascii.eqb c old then new else c) (replace_char old new s')
  end.

(** The truth value of a string: it is not empty. *)
Definition truthy (s : string) : bool :=
  match s with
  | EmptyString => false
  | String _ _ => true
  end.

End PyStr.

(* ===================================================================== *)
(** * [fnmatch] and [glob] *)
(* ===================================================================== *)

Module Glob.

(** What [fnmatch.translate] turns a pattern into. *)
Inductive tok : Type :=
| TChar (c : ascii)                     (* a literal character *)
| TAny                                  (* [?] *)
| TStar                                 (* [*] *)
| TClass (negated : bool) (body : string). (* a bracket expression *)

(** [glob.has_magic]: the pattern contains one of [*], [?], [[]. *)
Definition magic_char (c : ascii) : bool :=
  Ascii.eqb c "*" || Ascii.eqb c "?" || Ascii.eqb c "[".

Fixpoint has_magic (s : string) : bool :=
  match s with
  | EmptyString => false
  | String c s' => magic_char c || has_magic s'
  end.

(** The end of the bracket expression opened just before [rest]: its
    text (a leading [!] and a leading []] belong to it) and what follows
    the closing bracket; [None] when it is never closed. *)
Definition bracket (rest : string) : option (string * string) :=
  let '(bang, r1) :=
    match rest with
    | String "!" r => (String "!" EmptyString, r)
    | _ => (EmptyString, rest)
    end in
  let '(first, r2) :=
    match r1 with
    | String "]" r => (String "]" EmptyString, r)
    | _ => (EmptyString, r1)
    end in
  match PyStr.cut "]" r2 with
  | Some (before, after) => Some (bang +:+ first +:+ before, after)
  | None => None
  end.

Definition class_of (stuff : string) : tok :=
  match stuff with
  | String "!" body => TClass true body
  | _ => TClass false stuff
  end.

Fixpoint translate (fuel : nat) (pat : string) : list tok :=
  match fuel with
  | O => []
  | S f =>
      match pat with
      | EmptyString => []
      | String "*" rest => TStar :: translate f rest
      | String "?" rest => TAny :: translate f rest
      | String "[" rest =>
          match bracket rest with
          | Some (stuff, after) => class_of stuff :: translate f after
          | None => TChar "[" :: translate f rest
          end
      | String c rest => TChar c :: translate f rest
      end
  end.

(** Membership in the body of a bracket expression: [lo-hi] is a range,
    every other character stands for itself. *)
Fixpoint class_mem (c : ascii) (body : string) : bool :=
  match body with
  | EmptyString => false
  | String lo (String "-" (String hi rest)) =>
      ((nat_of_ascii lo <=? nat_of_ascii c)%nat
       && (nat_of_ascii c <=? nat_of_ascii hi)%nat)
      || class_mem c rest
  | String x rest => Ascii.eqb x c || class_mem c rest
  end.

Definition tok_accepts (t : tok) (c : ascii) : bool :=
  match t with
  | TChar x => Ascii.eqb x c
  | TAny => true
  | TStar => true
  | TClass negated body => xorb negated (class_mem c body)
  end.

(** The whole of [s] matches the token sequence. *)
Fixpoint match_toks (ts : list tok) (s : string) : bool :=
  match ts with
  | [] => match s with EmptyString => true | _ => false end
  | TStar :: ts' =>
      (fix star (u : string) : bool :=
         match_toks ts' u
         || match u with
            | EmptyString => false
            | String _ u' => star u'
            end) s
  | t :: ts' =>
      match s with
      | EmptyString => false
      | String c s' => tok_accepts t c && match_toks ts' s'
      end
  end.

(** [fnmatch.fnmatchcase(name, pat)]. *)
Definition fnmatch (name pat : string) : bool :=
  match_toks (translate (String.length pat) pat) name.

(** [glob._ishidden]. *)
Definition ishidden (path : string) : bool :=
  match path with
  | String "." _ => true
  | _ => false
  end.

(** [glob._glob1(dirname, pattern)] over the names [os.listdir] gave. *)
Definition glob1 (names : list string) (pattern : string) : list string :=
  let visible :=
    if ishidden pattern then names
    else List.filter (fun x => negb (ishidden x)) names in
  List.filter (fun x => fnmatch x pattern) visible.

(** The tokens of a text without wildcard. *)
Definition literal (p : string) : list tok := map TChar (list_ascii_of_string p).

(** What [glob1] keeps. *)
Definition kept (pattern file : string) : bool :=
  (ishidden pattern || negb (ishidden file)) && fnmatch file pattern.

End Glob.

(* ===================================================================== *)
(** * Python's [sorted] on strings *)
(* ===================================================================== *)

Module StringOrder <: Orders.TotalLeBool.
Definition t := string.
Definition leb := String.leb.
Lemma leb_total : forall x y, leb x y = true \/ leb y x = true.
Proof. exact String.leb_total. Qed.
End StringOrder.

Module StringSort := Sort StringOrder.

Definition sorted (l : list string) : list string := StringSort.sort l.

(* ===================================================================== *)
(** * Configuration constants *)
(* ===================================================================== *)

Definition SAMPLES_PER_USER : Z := 10.
Definition RECOGNITION_INTERVAL : Q := 5 * 60.

(** Strict comparison of two floats. *)
Definition Qltb (x y : Q) : bool := negb (Qle_bool y x).

(* ===================================================================== *)
(** * Frame geometry *)
(* ===================================================================== *)

Definition FRAME_REDUCE_FACTOR : Q := 1 # 2.

(** [int(x)] for a float: truncation towards zero. *)
Definition py_int (x : Q) : Z := Z.quot (Qnum x) (Z.pos (Qden x)).

(** [int(w * FRAME_REDUCE_FACTOR)], one side of the down-scaled frame. *)
Definition reduced (w : Z) : Z := py_int (inject_Z w * FRAME_REDUCE_FACTOR).

(** [int(v / FRAME_REDUCE_FACTOR)], a coordinate mapped back. *)
Definition to_full (v : Z) : Z := py_int (inject_Z v / FRAME_REDUCE_FACTOR).

(** The extent of the slice [a[start : stop]] of an axis of length [len],
    for [0 <= start]. *)
Definition slice_extent (start stop len : Z) : Z :=
  Z.max 0 (Z.min stop len - Z.min start len).

Definition tick_icon_size : Z := 25.
Definition padding_x : Z := 5.

(** Where [_overlay_tick_next_to_name] puts the top left corner of the
    icon. *)
Definition tick_corner (text_x text_y_baseline text_width text_height
                        h_frame w_frame : Z) : Z * Z :=
  let icon_x_start := (text_x + text_width + padding_x)%Z in
  let icon_y_start :=
    (text_y_baseline - text_height + (text_height - tick_icon_size) / 2)%Z in
  (Z.max 0 (Z.min icon_x_start (w_frame - tick_icon_size)),
   Z.max 0 (Z.min icon_y_start (h_frame - tick_icon_size))).

(** The array [cv2.imread(path, cv2.IMREAD_UNCHANGED)] gives for the
    icon: two-dimensional for a grey-scale image, else with three or
    four channels. *)
Inductive IconShape : Type :=
| IconGray
| IconBGR
| IconBGRA.

Inductive Overlay : Type :=
| NotDrawn
| DrawnAt (x y : Z)
| OverlayRaises (exception : string).

(** [_overlay_tick_next_to_name]: [tick_icon] is [None] when no icon was
    loaded. With a region of the right size, [icon.shape[2]] is read: on a
    two-dimensional icon this raises; a four-channel icon is blended in
    and a three-channel icon is copied. *)
Definition _overlay_tick_next_to_name (tick_icon : option IconShape)
  (text_x text_y_baseline text_width text_height h_frame w_frame : Z)
  : Overlay :=
  match tick_icon with
  | None => NotDrawn
  | Some icon =>
      let '(icon_x_start, icon_y_start) :=
        tick_corner text_x text_y_baseline text_width text_height h_frame w_frame in
      let rows := slice_extent icon_y_start (icon_y_start + tick_icon_size)%Z h_frame in
      let cols := slice_extent icon_x_start (icon_x_start + tick_icon_size)%Z w_frame in
      if ((rows =? tick_icon_size) && (cols =? tick_icon_size))%Z
      then match icon with
           | IconGray => OverlayRaises "IndexError"
           | IconBGR | IconBGRA => DrawnAt icon_x_start icon_y_start
           end
      else NotDrawn
  end.

(* ===================================================================== *)
(** * The OpenCV interface *)
(* ===================================================================== *)

(** The [cv2] services whose results the logic depends on.
    [lbph_predict images labels roi] is [predict] of an LBPH recogniser
    that was trained on [images] with [labels]: a label and a distance,
    or [None] when [cv2] raises. [getTextSize text] is the width and the
    height [cv2.getTextSize] answers for [text] in the font, scale and
    thickness of the captions. *)
Class OpenCV (Image : Type) : Type := {
  resize200 : Image -> Image;
  lbph_predict : list Image -> list Z -> Image -> option (Z * Q);
  getTextSize : string -> Z * Z
}.

(** LBPH is a nearest-neighbour classifier: the label it answers is the
    label of one of its training images. *)
Definition lbph_answers_training_labels {Image : Type} (cv : OpenCV Image) : Prop :=
  forall images labels roi l c,
    lbph_predict images labels roi = Some (l, c) -> In l labels.

(* ===================================================================== *)
(** * Data model *)
(* ===================================================================== *)

(** [Dict[int, Tuple[str, str]]] in insertion order. *)
Definition LabelMap : Type := list (Z * (string * string)).

(** [d.get(k)]. *)
Fixpoint dict_get {V : Type} (d : list (Z * V)) (k : Z) : option V :=
  match d with
  | [] => None
  | (k', v) :: d' => if (k' =? k)%Z then Some v else dict_get d' k
  end.

(** [d[k] = v]: an existing key keeps its position, a new key goes last. *)
Fixpoint dict_set {V : Type} (d : list (Z * V)) (k : Z) (v : V) : list (Z * V) :=
  match d with
  | [] => [(k, v)]
  | (k', v') :: d' =>
      if (k' =? k)%Z then (k, v) :: d' else (k', v') :: dict_set d' k v
  end.

Definition dict_keys {V : Type} (d : list (Z * V)) : list Z := map fst d.

(** [list(enumerate(values, start))] as a label map. *)
Fixpoint enumerate_from {V : Type} (start : Z) (values : list V) : list (Z * V) :=
  match values with
  | [] => []
  | v :: values' => (start, v) :: enumerate_from (start + 1) values'
  end.

(** The first display name bound to [emp_id], as found by
    [for _lbl, (nm, eid) in self.label_map.items(): if eid == emp_id: ...; break]. *)
Fixpoint name_of_emp (lm : LabelMap) (emp_id : string) : option string :=
  match lm with
  | [] => None
  | (_, (nm, eid)) :: lm' =>
      if String.eqb eid emp_id then Some nm else name_of_emp lm' emp_id
  end.

(** [a == b] on identities. *)
Definition ident_eqb (a b : string * string) : bool :=
  String.eqb (fst a) (fst b) && String.eqb (snd a) (snd b).

(** The labels the map binds to [ident]. *)
Definition labels_of (lm : LabelMap) (ident : string * string) : list Z :=
  map fst (List.filter (fun kv => ident_eqb (snd kv) ident) lm).

(** What a thread is started to do. *)
Inductive Job : Type :=
| JHandleRecognition (name emp_id : string)        (* AttendanceSubmitter *)
| JSubmitForm (name emp_id : string)               (* GoogleFormSubmitter *)
| JCaptureSamples (name : option string) (emp_id : string)
                  (updating : bool) (sample_count : option Z)
| JSendOtp (email otp : string).                   (* SendOTPThread *)

(** What the user sees: [_show_status_message], [_show_popup], and the
    edits of the OTP input field. *)
Inductive Notice : Type :=
| Status (message : string)
| PopupOpen (title text : string)
| PopupDismiss
| InputHint (hint : string)
| Flash.

(** The annotation drawn on the frame for one face. *)
Inductive Annotation : Type :=
| BoxRecognised (caption : string)
| BoxUnknown.

Inductive Effect : Type :=
| Log (line : string)
| Notify (n : Notice)
| CallbackRaises (exception : string)         (* a scheduled UI callback that raises when run *)
| CooldownWrite (emp_id : string) (now : Q)   (* self.last_seen_time[emp_id] = now *)
| ThreadStart (thread_name : string) (job : Job)
| Draw (a : Annotation)
| DrawTick (x y : Z)                          (* the tick icon put on the frame *)
| Uncaught (exception : string)               (* an exception no handler catches: the thread ends *)
| ImWrite (filename : string)                 (* cv2.imwrite *)
| Retrain                                     (* self._train_recognizer() *)
| HttpPost (name emp_id : string)             (* session.post(...) *)
| SendMail (email otp : string)
| PlaySound.

(** What the overlay adds to the trace: log lines, the tick, or the
    exception; nothing that starts a thread, writes the cooldown table or
    draws a box. *)
Definition overlay_only (e : Effect) : Prop :=
  match e with
  | Log _ | DrawTick _ _ | Uncaught _ => True
  | _ => False
  end.

(** A thread whose trace holds an uncaught exception has ended with it. *)
Definition is_uncaught (e : Effect) : bool :=
  match e with Uncaught _ => true | _ => false end.

Definition died (es : list Effect) : bool := existsb is_uncaught es.

(** The name has no path separator [/]: joined to a directory it names
    an entry of that directory. *)
Definition plain_name (file : string) : bool := negb (PyStr.contains "/" file).

Section App.

Context {Image : Type} {cv : OpenCV Image}.

(** [cv2.face.LBPHFaceRecognizer_create()], before and after [train]. *)
Inductive Recognizer : Type :=
| Untrained
| Trained (images : list Image) (labels : list Z).

(** [recognizer.predict(face_roi)]; [None] is a raised exception. An
    LBPH recogniser that was never trained raises [cv2.error]. *)
Definition predict (r : Recognizer) (face_roi : Image) : option (Z * Q) :=
  match r with
  | Untrained => None
  | Trained images labels => lbph_predict images labels face_roi
  end.

(** A file of the known-faces directory: [cv2.imread] decodes it or
    answers [None]. *)
Inductive FileContent : Type :=
| ImageFile (img : Image)
| OtherFile.

Definition imread (c : option FileContent) : option Image :=
  match c with
  | Some (ImageFile img) => Some img
  | _ => None
  end.

(** The file system around the known-faces directory. A file name
    without path separator names an entry of the directory, and the
    embedding says what a write to it and a glob for it do. A name with
    a separator is a path through other directories, which the embedding
    does not hold: what a write to such a path leaves in the known-faces
    directory, and how many files a pattern with such a path matches, are
    the file system's answers. *)
Class FileSystem : Type := {
  imwrite_path : gmap string FileContent -> string -> Image -> gmap string FileContent;
  glob_path : gmap string FileContent -> string -> nat
}.

Context {fs : FileSystem}.

(** The attributes of the application object. [tick_icon] is set once,
    when the application starts: the shape of the icon that was loaded,
    or [None]. *)
Record FaceApp : Type := mkFaceApp {
  recognizer : Recognizer;
  label_map : LabelMap;
  last_seen_time : gmap string Q;
  otp_storage : gmap string string;
  pending_names : gmap string (option string);
  user_emails : gmap string string;
  known_faces : gmap string FileContent;
  tick_icon : option IconShape
}.

Definition set_model (app : FaceApp) (r : Recognizer) (lm : LabelMap) : FaceApp :=
  mkFaceApp r lm (last_seen_time app) (otp_storage app) (pending_names app)
            (user_emails app) (known_faces app) (tick_icon app).

Definition set_last_seen_time (app : FaceApp) (t : gmap string Q) : FaceApp :=
  mkFaceApp (recognizer app) (label_map app) t (otp_storage app)
            (pending_names app) (user_emails app) (known_faces app) (tick_icon app).

Definition set_otp_storage (app : FaceApp) (o : gmap string string) : FaceApp :=
  mkFaceApp (recognizer app) (label_map app) (last_seen_time app) o
            (pending_names app) (user_emails app) (known_faces app) (tick_icon app).

Definition set_pending_names (app : FaceApp) (p : gmap string (option string)) : FaceApp :=
  mkFaceApp (recognizer app) (label_map app) (last_seen_time app)
            (otp_storage app) p (user_emails app) (known_faces app) (tick_icon app).

Definition set_known_faces (app : FaceApp) (d : gmap string FileContent) : FaceApp :=
  mkFaceApp (recognizer app) (label_map app) (last_seen_time app)
            (otp_storage app) (pending_names app) (user_emails app) d (tick_icon app).

(** [os.listdir(self._known_faces_dir)]. *)
Definition listdir (d : gmap string FileContent) : list string :=
  elements (dom d).

(* --------------------------------------------------------------------- *)
(** ** [_train_recognizer] *)
(* --------------------------------------------------------------------- *)

(** [file.lower().endswith((".jpg", ".png"))]. *)
Definition has_image_suffix (file : string) : bool :=
  PyStr.endswith ".jpg" (PyStr.lower file) || PyStr.endswith ".png" (PyStr.lower file).

(** [name, emp_id, _ = file.split("_", 2)] followed by the two case
    normalisations; [None] is the [ValueError] of a name with fewer than
    two underscores. *)
Definition parse_sample_name (file : string) : option (string * string) :=
  match PyStr.cut "_" file with
  | Some (name, rest) =>
      match PyStr.cut "_" rest with
      | Some (emp_id, _) => Some (PyStr.lower name, PyStr.upper emp_id)
      | None => None
      end
  | None => None
  end.

Record TrainState : Type := mkTrainState {
  ts_images : list Image;
  ts_labels : list Z;
  ts_label_map : LabelMap;
  ts_label_id : Z
}.

Definition train_init : TrainState := mkTrainState [] [] [] 0.

(** What the loop body keeps of [file]: its identity and its image, when
    none of the three [continue]s is taken. *)
Definition sample_of (d : gmap string FileContent) (file : string)
  : option (string * string * Image) :=
  if negb (has_image_suffix file) then None
  else match parse_sample_name file with
       | None => None
       | Some ident =>
           match imread (d !! file) with
           | None => None
           | Some img_gray => Some (ident, img_gray)
           end
       end.


(** One iteration of [for file in sorted(os.listdir(...))]. *)
Definition train_step (d : gmap string FileContent) (ts : TrainState) (file : string)
  : TrainState :=
  match sample_of d file with
  | None => ts
  | Some (ident, img_gray) =>
      mkTrainState (ts_images ts ++ [resize200 img_gray])
                   (ts_labels ts ++ [ts_label_id ts])
                   (dict_set (ts_label_map ts) (ts_label_id ts) ident)
                   (ts_label_id ts + 1)
  end.

Definition train_scan (d : gmap string FileContent) : TrainState :=
  fold_left (train_step d) (sorted (listdir d)) train_init.

(** The files the scan keeps, in the order of the scan, each with the
    identity parsed from its name and its image. *)
Definition samples_in (d : gmap string FileContent) (files : list string)
  : list (string * (string * string * Image)) :=
  omap (fun file => option_map (pair file) (sample_of d file)) files.

Definition samples (d : gmap string FileContent)
  : list (string * (string * string * Image)) :=
  samples_in d (sorted (listdir d)).


Definition _train_recognizer (d : gmap string FileContent) : Recognizer * LabelMap :=
  let ts := train_scan d in
  let recogniser :=
    match ts_images ts with
    | [] => Untrained
    | _ :: _ => Trained (ts_images ts) (ts_labels ts)
    end in
  (recogniser, ts_label_map ts).

(* --------------------------------------------------------------------- *)
(** ** [_camera_loop]: recognition and cooldown *)
(* --------------------------------------------------------------------- *)

(** A face recognised as [(name, emp_id)] at time [now]: the cooldown
    test, the dispatch, the status message, and the box and the caption
    drawn on the frame. The tick overlay that ends the branch follows in
    [recognise_face], which has the frame and the box it needs. *)
Definition on_recognised (app : FaceApp) (name emp_id : string) (now : Q)
  : FaceApp * list Effect :=
  let last_seen := default 0%Q (last_seen_time app !! emp_id) in
  if Qltb RECOGNITION_INTERVAL (now - last_seen) then
    (set_last_seen_time app (<[emp_id := now]> (last_seen_time app)),
     [ CooldownWrite emp_id now;
       ThreadStart "AttendanceSubmitter" (JHandleRecognition name emp_id);
       Notify (Status ("Attendance recorded for " +:+ PyStr.title name +:+ "!"));
       Draw (BoxRecognised (PyStr.title name +:+ " (" +:+ emp_id +:+ ")")) ])
  else
    (app,
     [ Notify (Status ("Attendance already recorded for " +:+ PyStr.title name +:+ "."));
       Draw (BoxRecognised (PyStr.title name +:+ " (" +:+ emp_id +:+ ")")) ]).

(** The label and confidence the camera thread goes on with: the
    recogniser's answer, or [(-1, 1000)] when [predict] raised. *)
Definition predict_or_unknown (r : Recognizer) (face_roi : Image) : Z * Q :=
  match predict r face_roi with
  | Some lc => lc
  | None => ((-1)%Z, 1000%Q)
  end.

(** [self.label_map.get(label, ("unknown", ""))]. *)
Definition identity_of (lm : LabelMap) (label : Z) : string * string :=
  default ("unknown", "") (dict_get lm label).

(** One face of a frame: the box [(x, y, w_s, h_s)] the detector
    reported in the down-scaled frame, the grey-scale crop of the box
    mapped back to the full frame, and what [time.time()] answers when the
    face is handled. *)
Record Face : Type := mkFace {
  face_box : Z * Z * Z * Z;
  face_roi : Image;
  face_now : Q
}.

(** What [detectMultiScale] did with the down-scaled frame: the faces
    it reported, or a [cv2.error]. *)
Inductive Detection : Type :=
| Faces (faces : list Face)
| DetectError.

(** A frame that [capture.read()] delivered: its height and width, and
    what the detector did with it. *)
Record CamFrame : Type := mkCamFrame {
  frame_shape : Z * Z;
  frame_detection : Detection
}.

(** The call of [_overlay_tick_next_to_name] that ends the branch of a
    recognised face. No handler surrounds it. *)
Definition overlay_tick (app : FaceApp) (shape : Z * Z) (face : Face)
  (name emp_id : string) : list Effect :=
  let '(h_frame, w_frame) := shape in
  let '(x, y, _, _) := face_box face in
  let '(text_width, text_height) :=
    getTextSize (PyStr.title name +:+ " (" +:+ emp_id +:+ ")") in
  match _overlay_tick_next_to_name (tick_icon app) (to_full x) (to_full y - 10)%Z
                                   text_width text_height h_frame w_frame with
  | DrawnAt ix iy =>
      match tick_icon app with
      | Some IconBGRA => [DrawTick ix iy]
      | _ => [ Log "[WARN] Tick icon is not RGBA; cannot perform alpha blending for tick next to name. Simple copy used.";
               DrawTick ix iy ]
      end
  | NotDrawn =>
      match tick_icon app with
      | Some _ => [Log "[WARN] ROI for tick icon is not the expected size. Skipping overlay."]
      | None => []
      end
  | OverlayRaises exception => [Uncaught exception]
  end.

(** The body of [for (x, y, w_s, h_s) in faces], from [predict] to the
    annotation of the frame. *)
Definition recognise_face (app : FaceApp) (shape : Z * Z) (face : Face)
  : FaceApp * list Effect :=
  let '(label, conf) := predict_or_unknown (recognizer app) (face_roi face) in
  let '(name, emp_id) := identity_of (label_map app) label in
  if Qltb conf 60 then
    let '(app1, es) := on_recognised app name emp_id (face_now face) in
    (app1, es ++ overlay_tick app shape face name emp_id)
  else (app, [Draw BoxUnknown]).

(** Recognised faces one after the other: [(name, emp_id, now)] each. *)
Fixpoint on_recognised_all (app : FaceApp) (hits : list (string * string * Q))
  : FaceApp * list Effect :=
  match hits with
  | [] => (app, [])
  | (name, emp_id, now) :: rest =>
      let '(app1, e1) := on_recognised app name emp_id now in
      let '(app2, e2) := on_recognised_all app1 rest in
      (app2, e1 ++ e2)
  end.

(** All faces of one frame, as far as the thread gets: an uncaught
    exception ends it. *)
Fixpoint recognise_faces (app : FaceApp) (shape : Z * Z) (faces : list Face)
  : FaceApp * list Effect :=
  match faces with
  | [] => (app, [])
  | face :: rest =>
      let '(app1, e1) := recognise_face app shape face in
      if died e1 then (app1, e1)
      else let '(app2, e2) := recognise_faces app1 shape rest in
           (app2, e1 ++ e2)
  end.

(** One iteration of the loop; [None] is a failed [capture.read()]. A
    [cv2.error] of the detector is caught and logged, and the frame
    counts as one without faces. *)
Definition camera_frame (app : FaceApp) (frame : option CamFrame)
  : FaceApp * list Effect :=
  match frame with
  | None => (app, [])
  | Some fr =>
      match frame_detection fr with
      | DetectError => (app, [Log "[ERROR] OpenCV error in detectMultiScale"])
      | Faces faces => recognise_faces app (frame_shape fr) faces
      end
  end.

(** [while not self._stop_event.is_set()] over the frames the camera
    delivered before the stop, as far as the thread gets. *)
Fixpoint _camera_loop (app : FaceApp) (frames : list (option CamFrame))
  : FaceApp * list Effect :=
  match frames with
  | [] => (app, [])
  | frame :: rest =>
      let '(app1, e1) := camera_frame app frame in
      if died e1 then (app1, e1)
      else let '(app2, e2) := _camera_loop app1 rest in
           (app2, e1 ++ e2)
  end.

(** Whether [e] starts the attendance worker of [emp_id]. *)
Definition is_dispatch (emp_id : string) (e : Effect) : bool :=
  match e with
  | ThreadStart _ (JHandleRecognition _ eid) => String.eqb eid emp_id
  | _ => false
  end.

Definition dispatches (emp_id : string) (es : list Effect) : nat :=
  length (List.filter (is_dispatch emp_id) es).

(* --------------------------------------------------------------------- *)
(** ** The attendance workers *)
(* --------------------------------------------------------------------- *)

(** What [session.post] can raise. [ConnectTimeout] derives from both
    [ConnectionError] and [Timeout]; [ExcForeign] is an exception that is
    not a [RequestException]. *)
Inductive Exc : Type :=
| ExcReadTimeout
| ExcConnectTimeout
| ExcConnectionError
| ExcOtherRequest
| ExcForeign.

Definition isinstance_Timeout (e : Exc) : bool :=
  match e with ExcReadTimeout | ExcConnectTimeout => true | _ => false end.

Definition isinstance_ConnectionError (e : Exc) : bool :=
  match e with ExcConnectTimeout | ExcConnectionError => true | _ => false end.

Definition isinstance_RequestException (e : Exc) : bool :=
  match e with ExcForeign => false | _ => true end.

Inductive PostOutcome : Type :=
| Response (status_code : Z) (text : string)
| Raises (e : Exc).

(** How a worker ends. *)
Inductive Completion : Type :=
| Returned
| Propagated (e : Exc).

(** [resp.status_code in (200, 302)]. *)
Definition is_success_status (status_code : Z) : bool :=
  (status_code =? 200)%Z || (status_code =? 302)%Z.

Definition _submit_to_google_form (app : FaceApp) (name emp_id : string)
  (outcome : PostOutcome) : FaceApp * list Effect * Completion :=
  let attempt :=
    [ Log ("[INFO] Attempting to submit attendance for " +:+ name +:+ " (" +:+ emp_id +:+ ")");
      HttpPost (PyStr.title name) emp_id ] in
  match outcome with
  | Response status_code text =>
      if is_success_status status_code then
        (app,
         attempt ++
         [ Log "[INFO] Attendance submitted successfully to Google Form.";
           Notify (Status ("Attendance submitted for " +:+ PyStr.title name +:+ "!")) ],
         Returned)
      else
        (app,
         attempt ++
         [ Log ("[WARN] Google Form submission returned status "
                +:+ PyStr.str status_code +:+ ". Response: "
                +:+ substring 0 200 text +:+ "...");
           Notify (PopupOpen "Submission Warning"
                     ("Form submission failed (Status: " +:+ PyStr.str status_code +:+ ").")) ],
         Returned)
  | Raises e =>
      if isinstance_Timeout e then
        (app,
         attempt ++
         [ Log "[ERROR] Google Form submission timed out.";
           Notify (PopupOpen "Submission Error"
                     "Form submission timed out. Check network connection.") ],
         Returned)
      else if isinstance_ConnectionError e then
        (app,
         attempt ++
         [ Log "[ERROR] Google Form submission connection error.";
           Notify (PopupOpen "Submission Error"
                     "Network error during form submission. Check internet connection.") ],
         Returned)
      else if isinstance_RequestException e then
        (* The popup callback reads [exc], which Python unbinds at the
           end of the [except ... as exc] clause, before the UI clock
           runs the callback. *)
        (app,
         attempt ++
         [ Log "[ERROR] An unexpected error occurred during form submission.";
           CallbackRaises "NameError" ],
         Returned)
      else (app, attempt, Propagated e)
  end.

(** [_handle_successful_recognition]; [sound] tells whether the success
    sound was loaded. *)
Definition _handle_successful_recognition (app : FaceApp) (sound : bool)
  (name emp_id : string) : FaceApp * list Effect :=
  (app,
   [Log ("[INFO] Recognised " +:+ name +:+ " (" +:+ emp_id +:+ ")")]
   ++ (if sound then [PlaySound] else [])
   ++ [ThreadStart "GoogleFormSubmitter" (JSubmitForm name emp_id)]).

(** The whole dispatch started by a recognition: the AttendanceSubmitter
    thread and the GoogleFormSubmitter thread it starts in turn. *)
Definition dispatch_worker (app : FaceApp) (sound : bool) (name emp_id : string)
  (outcome : PostOutcome) : FaceApp * list Effect * Completion :=
  let '(app1, e1) := _handle_successful_recognition app sound name emp_id in
  let '(app2, e2, done) := _submit_to_google_form app1 name emp_id outcome in
  (app2, e1 ++ e2, done).

Definition is_post (e : Effect) : bool :=
  match e with HttpPost _ _ => true | _ => false end.

Definition is_warning (e : Effect) : bool :=
  match e with Notify (PopupOpen _ _) => true | _ => false end.

Definition is_success_notice (e : Effect) : bool :=
  match e with Notify (Status _) => true | _ => false end.

(** The submission was reported as a success. *)
Definition reported_success (result : FaceApp * list Effect * Completion) : bool :=
  existsb is_success_notice (snd (fst result)).

(** The submission was reported with a warning popup. *)
Definition reported_warning (result : FaceApp * list Effect * Completion) : bool :=
  existsb is_warning (snd (fst result)).

Definition completion (result : FaceApp * list Effect * Completion) : Completion :=
  snd result.

(* --------------------------------------------------------------------- *)
(** ** OTP issue, verification and resend *)
(* --------------------------------------------------------------------- *)

(** [random.randint(a, b)], which is [a + self._randbelow(b - a + 1)]:
    an integer of the range from [a] to [b], both included. [draw] is
    what the generator produces for the call; whatever it is, the result
    is its residue in the range. *)
Definition randint (a b : Z) (draw : Z) : Z := (a + draw mod (b - a + 1))%Z.

(** [str(random.randint(100000, 999999))]. *)
Definition _generate_otp (draw : Z) : string := PyStr.str (randint 100000 999999 draw).

Definition _send_otp_flow (app : FaceApp) (emp_id email : string)
  (name : option string) (r : Z) : FaceApp * list Effect :=
  let otp := _generate_otp r in
  let app1 := set_otp_storage app (<[emp_id := otp]> (otp_storage app)) in
  let app2 := set_pending_names app1 (<[emp_id := name]> (pending_names app1)) in
  (app2,
   [ Notify (PopupOpen "Sending OTP" "Sending OTP email…");
     ThreadStart "SendOTPThread" (JSendOtp email otp) ]).

(** The test of [_verify]: [otp_input.text.strip() == self.otp_storage.get(emp_id)]. *)
Definition otp_accepted (app : FaceApp) (emp_id text : string) : bool :=
  match otp_storage app !! emp_id with
  | Some code => String.eqb (PyStr.strip text) code
  | None => false
  end.

(** The [Verify] button of [_otp_verify_popup] with [text] typed in. *)
Definition _verify (app : FaceApp) (emp_id text : string) : FaceApp * list Effect :=
  if otp_accepted app emp_id text then
    let name_for_capture := default None (pending_names app !! emp_id) in
    (app,
     [ Notify PopupDismiss;
       ThreadStart "CaptureSamples(Update)"
         (JCaptureSamples name_for_capture emp_id true (Some 5%Z)) ])
  else
    (app,
     [ Notify (InputHint "Incorrect – try again");
       Log "[WARN] Incorrect OTP entered." ]).

(** The [Resend] button of [_otp_verify_popup]. *)
Definition _resend (app : FaceApp) (emp_id email : string) (r : Z)
  : FaceApp * list Effect :=
  let new_otp := _generate_otp r in
  (set_otp_storage app (<[emp_id := new_otp]> (otp_storage app)),
   [ SendMail email new_otp;
     Notify (InputHint "New OTP sent");
     Log "[INFO] Resent OTP." ]).

(** Any number of presses of [Verify], in order. *)
Fixpoint verify_all (app : FaceApp) (emp_id : string) (texts : list string) : FaceApp :=
  match texts with
  | [] => app
  | text :: rest => verify_all (fst (_verify app emp_id text)) emp_id rest
  end.

(* --------------------------------------------------------------------- *)
(** ** [_capture_samples] *)
(* --------------------------------------------------------------------- *)

(** [f"{name}_{emp_id}_{index:03d}.jpg"]. *)
Definition sample_filename (name emp_id : string) (index : nat) : string :=
  name +:+ "_" +:+ emp_id +:+ "_" +:+ PyStr.fmt03d index +:+ ".jpg".

(** [f"{name}_{emp_id}_*.jpg"], the base name of the glob pattern. *)
Definition sample_pattern (name emp_id : string) : string :=
  name +:+ "_" +:+ emp_id +:+ "_*.jpg".

(** The part of a sample file name that the display name and the
    employee id make up. *)
Definition stem (name emp_id : string) : string := name +:+ "_" +:+ emp_id.

(** [len(glob.glob(pattern))] for the pattern of a pair whose name and
    id have no path separator: the entries of the directory that match. *)
Definition start_index_of (d : gmap string FileContent) (name emp_id : string) : nat :=
  length (Glob.glob1 (listdir d) (sample_pattern name emp_id)).

(** [start_index = len(glob.glob(pattern))] as the session computes it. *)
Definition session_start_index (d : gmap string FileContent) (name emp_id : string)
  : nat :=
  if plain_name (sample_pattern name emp_id) then start_index_of d name emp_id
  else glob_path d (sample_pattern name emp_id).

(** [cv2.imwrite(str(self._known_faces_dir / filename), img)]: an entry
    of the directory is created or replaced. The result of the call is
    not looked at. *)
Definition imwrite (d : gmap string FileContent) (filename : string) (img : Image)
  : gmap string FileContent :=
  if plain_name filename then <[filename := ImageFile img]> d
  else imwrite_path d filename img.

(** One turn of the capture loop. The drain of the queue left no frame,
    or the latest frame, in which the detector found the faces whose
    crops are given. Neither the drain nor the detector is guarded here:
    [get_nowait] raises [queue.Empty] when another thread took the frame
    after [empty()] was asked, and [detectMultiScale] can raise
    [cv2.error]. *)
Inductive Tick : Type :=
| QueueEmpty
| FrameFaces (faces : list Image)
| DrainRaises
| DetectorRaises.

(** [while collected < count_target and not self._stop_event.is_set()];
    the loop runs over the turns that happen before the stop signal, as
    far as the thread gets. *)
Fixpoint capture_loop (name emp_id : string) (start_index : nat) (count_target : Z)
  (ticks : list Tick) (collected : nat) (d : gmap string FileContent)
  : nat * gmap string FileContent * list Effect :=
  match ticks with
  | [] => (collected, d, [])
  | tick :: ticks' =>
      if (Z.of_nat collected <? count_target)%Z then
        match tick with
        | QueueEmpty =>
            capture_loop name emp_id start_index count_target ticks' collected d
        | DrainRaises => (collected, d, [Uncaught "queue.Empty"])
        | DetectorRaises => (collected, d, [Uncaught "cv2.error"])
        | FrameFaces [] =>
            let '(n, d', es) :=
              capture_loop name emp_id start_index count_target ticks' collected d in
            (n, d', Notify (Status "No face detected. Please position yourself.") :: es)
        | FrameFaces (face_img :: _) =>
            let filename := sample_filename name emp_id (start_index + collected) in
            let d1 := imwrite d filename (resize200 face_img) in
            let '(n, d', es) :=
              capture_loop name emp_id start_index count_target ticks' (S collected) d1 in
            (n, d',
             ImWrite filename :: Notify Flash
             :: Notify (Status ("Captured " +:+ PyStr.str (Z.of_nat (S collected))
                                +:+ "/" +:+ PyStr.str count_target +:+ " photos..."))
             :: es)
        end
      else (collected, d, [])
  end.

(** The display name the capture runs under: the one supplied, else the
    first one the label map binds to [emp_id]. *)
Definition resolve_name (app : FaceApp) (name : option string) (emp_id : string)
  : option string :=
  match name with
  | Some n => Some n
  | None => name_of_emp (label_map app) emp_id
  end.

(** [sample_count if sample_count else SAMPLES_PER_USER]. *)
Definition count_target_of (sample_count : option Z) : Z :=
  match sample_count with
  | Some n => if (n =? 0)%Z then SAMPLES_PER_USER else n
  | None => SAMPLES_PER_USER
  end.

Definition countdown : list Effect :=
  [ Notify (Status "Capturing in 3...");
    Notify (Status "Capturing in 2...");
    Notify (Status "Capturing in 1...");
    Notify (Status "Capturing now!") ].

Definition _capture_samples (app : FaceApp) (name : option string) (emp_id : string)
  (updating : bool) (sample_count : option Z) (ticks : list Tick)
  : FaceApp * list Effect :=
  match resolve_name app name emp_id with
  | None =>
      (app,
       [ Log "[ERROR] No existing face found for this ID – please register first.";
         Notify (PopupOpen "Error"
                   "No existing face found for this ID. Please register first.") ])
  | Some name =>
      let count_target := count_target_of sample_count in
      let start_index := session_start_index (known_faces app) name emp_id in
      let '(_, d, es) :=
        capture_loop name emp_id start_index count_target ticks 0 (known_faces app) in
      if died es then
        (* the thread ended in the loop: nothing after the loop runs *)
        (set_known_faces app d, countdown ++ es)
      else
        let '(r, lm) := _train_recognizer d in
        (set_model (set_known_faces app d) r lm,
         countdown ++ es
         ++ [ Log "[INFO] Capture complete – retraining recogniser…";
              Retrain;
              Notify (Status (if updating then "Face updated!"
                              else "Registration completed!")) ])
  end.

Definition written_files (es : list Effect) : list string :=
  omap (fun e => match e with ImWrite f => Some f | _ => None end) es.

(** Every sample file of [(name, emp_id)] in the directory is numbered
    below the count [glob] reports for the pair. *)
Definition numbered_below_count (d : gmap string FileContent) (name emp_id : string) : Prop :=
  forall i, is_Some (d !! sample_filename name emp_id i) ->
            (i < start_index_of d name emp_id)%nat.

(* --------------------------------------------------------------------- *)
(** ** The camera thread and the capture thread on the shared model *)
(* --------------------------------------------------------------------- *)

(** The two attributes [self.recognizer] and [self.label_map] are read by
    the camera thread (one read each per face: [self.recognizer.predict],
    then [self.label_map.get]) and written by the capture thread
    ([self.recognizer, self.label_map = self._train_recognizer()], which
    stores the first attribute and then the second). Attribute loads and
    stores are the atomic steps; a schedule says which thread moves. *)
Inductive Thread : Type :=
| CameraThread
| CaptureThread.

(** Where the camera thread stands in its handling of one face. *)
Inductive Camera : Type :=
| CamStart
| CamPredicted (used : Recognizer) (label : Z) (conf : Q)
| CamDone (used : Recognizer) (label : Z) (conf : Q)
          (looked_up : LabelMap) (ident : string * string).

(** Where the capture thread stands in installing the pair it trained. *)
Inductive Capture : Type :=
| CapTrained (r : Recognizer) (lm : LabelMap)
| CapStoredRecognizer (lm : LabelMap)
| CapDone.

Record Config : Type := mkConfig {
  shared_recognizer : Recognizer;
  shared_label_map : LabelMap;
  camera : Camera;
  capture : Capture
}.

Definition step (face_roi : Image) (t : Thread) (c : Config) : Config :=
  match t with
  | CameraThread =>
      match camera c with
      | CamStart =>
          let r := shared_recognizer c in
          let '(label, conf) := predict_or_unknown r face_roi in
          mkConfig (shared_recognizer c) (shared_label_map c)
                   (CamPredicted r label conf) (capture c)
      | CamPredicted r label conf =>
          let lm := shared_label_map c in
          mkConfig (shared_recognizer c) (shared_label_map c)
                   (CamDone r label conf lm (identity_of lm label))
                   (capture c)
      | CamDone _ _ _ _ _ => c
      end
  | CaptureThread =>
      match capture c with
      | CapTrained r lm =>
          mkConfig r (shared_label_map c) (camera c) (CapStoredRecognizer lm)
      | CapStoredRecognizer lm =>
          mkConfig (shared_recognizer c) lm (camera c) CapDone
      | CapDone => c
      end
  end.

Definition run (face_roi : Image) (schedule : list Thread) (c : Config) : Config :=
  fold_left (fun c t => step face_roi t c) schedule c.

(** The camera is about to handle a face with the pair [(r, lm)] in
    place while the capture thread holds the freshly trained
    [(r', lm')]. *)
Definition retrain_config (r : Recognizer) (lm : LabelMap)
  (r' : Recognizer) (lm' : LabelMap) : Config :=
  mkConfig r lm CamStart (CapTrained r' lm').

(** Every label the recogniser can answer is a key of the mapping. *)
Definition self_consistent (r : Recognizer) (lm : LabelMap) : Prop :=
  forall roi l c, predict r roi = Some (l, c) -> In l (dict_keys lm).

(** The pair the camera used for its face, once it is done with it. *)
Definition camera_used (c : Config) : option (Recognizer * LabelMap) :=
  match camera c with
  | CamDone r _ _ lm _ => Some (r, lm)
  | _ => None
  end.

(** The pair of attributes as it stands. *)
Definition shared (c : Config) : Recognizer * LabelMap :=
  (shared_recognizer c, shared_label_map c).

Definition is_capture_step (t : Thread) : bool :=
  match t with CaptureThread => true | CameraThread => false end.

(** The label the camera got from a recogniser that answered. *)
Definition camera_label (c : Config) : option Z :=
  match camera c with
  | CamDone r label _ _ _ => Some label
  | _ => None
  end.

End App.

(* ===================================================================== *)
(** * A small OpenCV instance to run the model on *)
(* ===================================================================== *)

(** Rasters are identified by a number; the recogniser answers the label
    of the first training raster identical to the probe at distance 0,
    and otherwise its first label at distance 100. *)
Fixpoint exact_match (images : list Z) (labels : list Z) (roi : Z) : option Z :=
  match images, labels with
  | img :: images', l :: labels' =>
      if (img =? roi)%Z then Some l else exact_match images' labels' roi
  | _, _ => None
  end.

#[export] Instance ExactCV : OpenCV Z := {|
  resize200 := fun img => img;
  lbph_predict := fun images labels roi =>
    match exact_match images labels roi with
    | Some l => Some (l, 0%Q)
    | None =>
        match labels with
        | l :: _ => Some (l, 100%Q)
        | [] => None
        end
    end;
  getTextSize := fun text => ((13 * Z.of_nat (String.length text))%Z, 15%Z)
|}.

(** A file system in which no path with a separator leads to a file: a
    write to such a path fails and a pattern with such a path matches
    nothing. *)
#[export] Instance FlatFS : @FileSystem Z := {|
  imwrite_path := fun d _ _ => d;
  glob_path := fun _ _ => 0%nat
|}.

Definition empty_app : @FaceApp Z :=
  mkFaceApp Untrained [] ∅ ∅ ∅ ∅ ∅ (Some IconBGRA).

(** A directory with one sample of alice, and the same with one of bob. *)
Definition alice_dir : gmap string (@FileContent Z) :=
  {[ "alice_E1_000.jpg" := ImageFile 7%Z ]}.

Definition alice_bob_dir : gmap string (@FileContent Z) :=
  <[ "bob_E2_000.jpg" := ImageFile 8%Z ]> alice_dir.

(** The application started on [alice_dir]. *)
Definition alice_app : @FaceApp Z :=
  mkFaceApp (fst (_train_recognizer alice_dir)) (snd (_train_recognizer alice_dir))
            ∅ ∅ ∅ ∅ alice_dir (Some IconBGRA).

(** A frame of 640 by 480, and in it a face that is alice's raster,
    handled when the clock reads [now]. *)
Definition vga : Z * Z := (480%Z, 640%Z).

Definition alice_face (now : Q) : @Face Z :=
  mkFace (100%Z, 50%Z, 80%Z, 80%Z) 7%Z now.

(** [alice_app] with a grey-scale tick icon loaded. *)
Definition gray_app : @FaceApp Z :=
  mkFaceApp (recognizer alice_app) (label_map alice_app) ∅ ∅ ∅ ∅ alice_dir
            (Some IconGray).

(** The no-break space, U+00A0. *)
Definition nbsp : string := String (ascii_of_nat 194) (String (ascii_of_nat 160) "").

(** The application after alice, employee E1, registered her ten
    samples. *)
Definition alice_registered : @FaceApp Z :=
  fst (_capture_samples empty_app (Some "alice") "E1" false None
                        (repeat (FrameFaces [7%Z]) 10)).


(* ===================================================================== *)
(** * The frame queue *)
(* ===================================================================== *)

(** [queue.Queue(maxsize)] as the list of its items, oldest first. Every
    method runs under the lock of the queue: a call is one atomic step. *)
Module PyQueue.

Section Ops.

Context {A : Type}.

(** [q.empty()]. *)
Definition empty (q : list A) : bool :=
  match q with [] => true | _ :: _ => false end.

(** [q.get_nowait()]; [None] is [queue.Empty]. *)
Definition get_nowait (q : list A) : option (A * list A) :=
  match q with
  | [] => None
  | x :: q' => Some (x, q')
  end.

(** [q.get()]; [None] when the queue is empty, where the call blocks. *)
Definition get (q : list A) : option (A * list A) := get_nowait q.

(** [q.put(x)]; [None] when the queue is full, where the call blocks. *)
Definition put (maxsize : nat) (q : list A) (x : A) : option (list A) :=
  if (length q <? maxsize)%nat then Some (q ++ [x]) else None.

End Ops.

End PyQueue.

Section FrameQueue.

Context {Frame : Type}.

(** The three threads that use [self.frame_queue]: the camera thread
    puts, the UI clock ([_update_texture], main thread) and a capture
    session take. No lock of the application surrounds their calls, so
    the calls of different threads interleave; a schedule says which
    thread makes the next call. *)
Inductive QueueUser : Type :=
| UserCamera
| UserClock
| UserCapture.

(** The camera thread at the end of an iteration of [_camera_loop]:
    about to ask [empty()], about to call [get_nowait()] inside its
    [try], about to call [put(frame)]. *)
Inductive CameraAt : Type :=
| CameraAsks
| CameraTakes
| CameraPuts.

(** [_update_texture]: about to ask [empty()], about to call [get()]. *)
Inductive ClockAt : Type :=
| ClockAsks
| ClockGets.

(** The drain at the start of a turn of the capture loop,
    [while not self.frame_queue.empty(): frame = self.frame_queue.get_nowait()]:
    about to ask [empty()], about to call [get_nowait()], or ended by
    the [queue.Empty] that nothing catches. *)
Inductive DrainAt : Type :=
| DrainAsks
| DrainTakes
| DrainDied.

Record QueueState : Type := mkQueueState {
  queue_items : list Frame;        (* the queue, [maxsize=1] *)
  camera_at : CameraAt;
  camera_frames : list Frame;      (* the frames the camera has still to publish *)
  camera_dropped : list Frame;     (* the frames the camera took out again *)
  clock_at : ClockAt;
  clock_shown : list Frame;        (* the frames the UI got, latest first *)
  drain_at : DrainAt;
  drain_taken : list Frame         (* the frames a capture session got, latest first *)
}.

Definition with_camera (s : QueueState) (q : list Frame) (at_ : CameraAt)
  (frames dropped : list Frame) : QueueState :=
  mkQueueState q at_ frames dropped (clock_at s) (clock_shown s)
               (drain_at s) (drain_taken s).

Definition with_clock (s : QueueState) (q : list Frame) (at_ : ClockAt)
  (shown : list Frame) : QueueState :=
  mkQueueState q (camera_at s) (camera_frames s) (camera_dropped s) at_ shown
               (drain_at s) (drain_taken s).

Definition with_drain (s : QueueState) (q : list Frame) (at_ : DrainAt)
  (taken : list Frame) : QueueState :=
  mkQueueState q (camera_at s) (camera_frames s) (camera_dropped s)
               (clock_at s) (clock_shown s) at_ taken.

(** The next call of the camera thread:
    [if not self.frame_queue.empty(): try: get_nowait() except queue.Empty: pass]
    and then [put(frame)]. A [put] on a full queue blocks: no step. *)
Definition camera_step (s : QueueState) : QueueState :=
  match camera_frames s with
  | [] => s
  | frame :: rest =>
      match camera_at s with
      | CameraAsks =>
          if PyQueue.empty (queue_items s)
          then with_camera s (queue_items s) CameraPuts (camera_frames s) (camera_dropped s)
          else with_camera s (queue_items s) CameraTakes (camera_frames s) (camera_dropped s)
      | CameraTakes =>
          match PyQueue.get_nowait (queue_items s) with
          | Some (old, q') =>
              with_camera s q' CameraPuts (camera_frames s) (old :: camera_dropped s)
          | None =>
              with_camera s (queue_items s) CameraPuts (camera_frames s) (camera_dropped s)
          end
      | CameraPuts =>
          match PyQueue.put 1 (queue_items s) frame with
          | Some q' => with_camera s q' CameraAsks rest (camera_dropped s)
          | None => s
          end
      end
  end.

(** The next call of [_update_texture]:
    [if self.frame_queue.empty(): return] and then [get()], which blocks
    on an empty queue: no step. *)
Definition clock_step (s : QueueState) : QueueState :=
  match clock_at s with
  | ClockAsks =>
      if PyQueue.empty (queue_items s) then s
      else with_clock s (queue_items s) ClockGets (clock_shown s)
  | ClockGets =>
      match PyQueue.get (queue_items s) with
      | Some (frame, q') => with_clock s q' ClockAsks (frame :: clock_shown s)
      | None => s
      end
  end.

(** The next call of the drain of a capture session. When [empty()]
    answers true the turn goes on with the frame taken last and the next
    turn starts a new drain. *)
Definition drain_step (s : QueueState) : QueueState :=
  match drain_at s with
  | DrainAsks =>
      if PyQueue.empty (queue_items s) then s
      else with_drain s (queue_items s) DrainTakes (drain_taken s)
  | DrainTakes =>
      match PyQueue.get_nowait (queue_items s) with
      | Some (frame, q') => with_drain s q' DrainAsks (frame :: drain_taken s)
      | None => with_drain s (queue_items s) DrainDied (drain_taken s)
      end
  | DrainDied => s
  end.

Definition queue_step (s : QueueState) (user : QueueUser) : QueueState :=
  match user with
  | UserCamera => camera_step s
  | UserClock => clock_step s
  | UserCapture => drain_step s
  end.

Definition queue_run (schedule : list QueueUser) (s : QueueState) : QueueState :=
  fold_left queue_step schedule s.

(** The empty queue, with [frames] for the camera to publish. *)
Definition queue_start (frames : list Frame) : QueueState :=
  mkQueueState [] CameraAsks frames [] ClockAsks [] DrainAsks [].

(** The camera thread is at a [put] that blocks. *)
Definition put_blocks (s : QueueState) : Prop :=
  exists frame rest,
    camera_frames s = frame :: rest
    /\ camera_at s = CameraPuts
    /\ PyQueue.put 1 (queue_items s) frame = None.

(** The UI thread is at a [get] that blocks. *)
Definition get_blocks (s : QueueState) : Prop :=
  clock_at s = ClockGets /\ PyQueue.get (queue_items s) = None.

(** The frames the camera has published so far, of the [frames] it
    started with. *)
Definition published (frames : list Frame) (s : QueueState) : list Frame :=
  firstn (length frames - length (camera_frames s)) frames.

(** Where the published frames are: in the queue, taken out again by
    the camera, shown by the UI, or taken by a capture session. *)
Definition whereabouts (s : QueueState) : list Frame :=
  queue_items s ++ camera_dropped s ++ clock_shown s ++ drain_taken s.

(** What holds of the queue after every call: it holds at most one
    frame, it is empty when the camera is about to put, and every frame
    published is in exactly one place. *)
Definition queue_inv (frames : list Frame) (s : QueueState) : Prop :=
  (length (queue_items s) <= 1)%nat
  /\ (camera_at s = CameraPuts -> queue_items s = [])
  /\ exists pub, frames = pub ++ camera_frames s /\ Permutation pub (whereabouts s).

End FrameQueue.

(* ===================================================================== *)
(** * Registration and update dialogs, and measures of the loops *)
(* ===================================================================== *)

Section Flows.

Context {Image : Type} {cv : OpenCV Image}.

Definition set_user_emails (app : @FaceApp Image) (e : gmap string string)
  : @FaceApp Image :=
  mkFaceApp (recognizer app) (label_map app) (last_seen_time app)
            (otp_storage app) (pending_names app) e (known_faces app) (tick_icon app).

(** [_save_email]: the address is recorded and the directory file
    [user_emails.json] is rewritten. *)
Definition _save_email (app : @FaceApp Image) (emp_id email : string)
  : @FaceApp Image :=
  set_known_faces
    (set_user_emails app (<[emp_id := email]> (user_emails app)))
    (<["user_emails.json" := OtherFile]> (known_faces app)).

(** [email and "@" in email]. *)
Definition valid_email (email : string) : bool :=
  PyStr.truthy email && PyStr.contains "@" email.

(** The three fields of the registration dialog as [_submit] reads them. *)
Definition register_name (text : string) : string :=
  PyStr.replace_char " " "_" (PyStr.lower (PyStr.strip text)).

Definition normal_emp_id (text : string) : string :=
  PyStr.upper (PyStr.strip text).

(** [_submit] of [_register_popup]. *)
Definition _register_submit (app : @FaceApp Image) (name_text id_text email_text : string)
  : @FaceApp Image * list Effect :=
  let name := register_name name_text in
  let emp_id := normal_emp_id id_text in
  let email := PyStr.strip email_text in
  if negb (PyStr.truthy name && PyStr.truthy emp_id && valid_email email) then
    (app, [Log "[WARN] Invalid input for registration."])
  else
    (_save_email app emp_id email,
     [ Notify PopupDismiss;
       ThreadStart "CaptureSamples(New)" (JCaptureSamples (Some name) emp_id false None) ]).

(** [if email:] on what [self.user_emails.get(emp_id)] answered. *)
Definition known_email (app : @FaceApp Image) (emp_id : string) : option string :=
  match user_emails app !! emp_id with
  | Some email => if PyStr.truthy email then Some email else None
  | None => None
  end.

(** [_next] of [_update_photos_popup]; [r] is the integer the OTP
    generator draws if it is called. *)
Definition _update_next (app : @FaceApp Image) (id_text : string) (r : Z)
  : @FaceApp Image * list Effect :=
  let emp_id := normal_emp_id id_text in
  if negb (PyStr.truthy emp_id) then
    (app, [Log "[WARN] Employee ID cannot be empty for update."])
  else
    let name_existing := name_of_emp (label_map app) emp_id in
    match known_email app emp_id with
    | Some email =>
        let '(app1, es) := _send_otp_flow app emp_id email name_existing r in
        (app1, Notify PopupDismiss :: es)
    | None =>
        (app,
         [ Notify PopupDismiss;
           Notify (PopupOpen "Register Email" "Email not found. Enter your email:") ])
    end.

(** [_submit] of [_email_registration_flow]. *)
Definition _email_registration_submit (app : @FaceApp Image) (emp_id : string)
  (name : option string) (email_text : string) (r : Z)
  : @FaceApp Image * list Effect :=
  let email := PyStr.strip email_text in
  if valid_email email then
    let '(app1, es) := _send_otp_flow (_save_email app emp_id email) emp_id email name r in
    (app1, Notify PopupDismiss :: es)
  else (app, [Log "[WARN] Invalid email format during registration."]).

(** Presses of [Resend], one draw each. *)
Fixpoint resend_all (app : @FaceApp Image) (emp_id email : string) (draws : list Z)
  : @FaceApp Image :=
  match draws with
  | [] => app
  | r :: rest => resend_all (fst (_resend app emp_id email r)) emp_id email rest
  end.

(** The number of turns of the capture loop that find a face. *)
Definition face_frames (ticks : list (@Tick Image)) : nat :=
  length (List.filter
            (fun t => match t with FrameFaces (_ :: _) => true | _ => false end)
            ticks).

(** None of the turns raises. *)
Definition quiet (ticks : list (@Tick Image)) : bool :=
  forallb (fun t => match t with DrainRaises | DetectorRaises => false | _ => true end)
          ticks.

(** The times written to the cooldown entry of [emp_id]. *)
Definition cooldown_writes (emp_id : string) (es : list Effect) : list Q :=
  omap (fun e => match e with
                 | CooldownWrite eid t => if String.eqb eid emp_id then Some t else None
                 | _ => None
                 end) es.

(** Each time is more than the recognition interval after the one
    before it, the first one after [prev]. *)
Fixpoint spaced (prev : Q) (times : list Q) : Prop :=
  match times with
  | [] => True
  | t :: rest => (RECOGNITION_INTERVAL < t - prev)%Q /\ spaced t rest
  end.

Definition is_draw (e : Effect) : bool :=
  match e with Draw _ => true | _ => false end.

(** The time recorded for [emp_id], as the cooldown test reads it. *)
Definition last_seen_or_0 (app : @FaceApp Image) (emp_id : string) : Q :=
  default 0%Q (last_seen_time app !! emp_id).

(** The faces the detector reported in a frame. *)
Definition faces_of_frame (frame : option (@CamFrame Image)) : list (@Face Image) :=
  match frame with
  | Some fr => match frame_detection fr with Faces faces => faces | DetectError => [] end
  | None => []
  end.

(** The number of faces in the frames the camera delivered. *)
Definition faces_seen (frames : list (option (@CamFrame Image))) : nat :=
  length (concat (map faces_of_frame frames)).

(** What a stretch of the camera loop from [app] to [app'] with effects
    [es] does to the cooldown entry of [emp_id]. *)
Definition stretch (emp_id : string) (app : @FaceApp Image) (es : list Effect)
  (app' : @FaceApp Image) : Prop :=
  spaced (last_seen_or_0 app emp_id) (cooldown_writes emp_id es)
  /\ last_seen_or_0 app' emp_id
     = List.last (cooldown_writes emp_id es) (last_seen_or_0 app emp_id)
  /\ dispatches emp_id es = length (cooldown_writes emp_id es)
  /\ (forall other, is_Some (last_seen_time app !! other) ->
                    is_Some (last_seen_time app' !! other)).

(** The two states differ at most in the cooldown table. *)
Definition same_but_cooldown (app app' : @FaceApp Image) : Prop :=
  app' = set_last_seen_time app (last_seen_time app').

(** The two states differ at most in the sample directory and the model. *)
Definition same_but_samples_and_model (app app' : @FaceApp Image) : Prop :=
  app' = set_model (set_known_faces app (known_faces app'))
                   (recognizer app') (label_map app').

(** The two states differ at most in the OTP codes and bound names. *)
Definition same_but_otp (app app' : @FaceApp Image) : Prop :=
  app' = set_pending_names (set_otp_storage app (otp_storage app')) (pending_names app').

End Flows.

(** The response classes the design document calls a success: 2xx and
    the redirect class 3xx. *)
Definition success_class_2xx_3xx (status_code : Z) : bool :=
  (200 <=? status_code)%Z && (status_code <=? 399)%Z.

(* ===================================================================== *)
(** * Facts about the string primitives *)
(* ===================================================================== *)

Module PyStrFacts.
Import PyStr.

Lemma append_cons (x : ascii) (a b : string) : String x a +:+ b = String x (a +:+ b).
Proof. reflexivity. Qed.

Lemma append_nil_l (b : string) : "" +:+ b = b.
Proof. reflexivity. Qed.

Ltac string_induction a :=
  induction a as [|? a ?IH]; rewrite ?append_nil_l, ?append_cons.

Lemma length_append (a b : string) :
  String.length (a +:+ b) = (String.length a + String.length b)%nat.
Proof. string_induction a; simpl; [reflexivity | now rewrite IH]. Qed.

Lemma append_assoc (a b c : string) : (a +:+ b) +:+ c = a +:+ (b +:+ c).
Proof. string_induction a; [reflexivity | now rewrite IH]. Qed.

Lemma append_nil_r (a : string) : a +:+ "" = a.
Proof. string_induction a; [reflexivity | now rewrite IH]. Qed.

Lemma digit_cases (d : Z) :
  (0 <= d < 10)%Z ->
  d = 0%Z \/ d = 1%Z \/ d = 2%Z \/ d = 3%Z \/ d = 4%Z \/
  d = 5%Z \/ d = 6%Z \/ d = 7%Z \/ d = 8%Z \/ d = 9%Z.
Proof. lia. Qed.

Ltac each_digit d H :=
  destruct (digit_cases d H) as [->|[->|[->|[->|[->|[->|[->|[->|[->| ->]]]]]]]]].

Lemma is_digit_digit_char (d : Z) : (0 <= d < 10)%Z -> is_digit (digit_char d) = true.
Proof. intros H. each_digit d H; reflexivity. Qed.

Lemma digit_val_digit_char (d : Z) : (0 <= d < 10)%Z -> digit_val (digit_char d) = d.
Proof. intros H. each_digit d H; reflexivity. Qed.

Lemma all_digits_append (a b : string) :
  all_digits (a +:+ b) = all_digits a && all_digits b.
Proof.
  string_induction a; simpl; [reflexivity|].
  rewrite IH. now rewrite andb_assoc.
Qed.

Lemma value_from_append (a b : string) (acc : Z) :
  value_from acc (a +:+ b) = value_from (value_from acc a) b.
Proof.
  revert acc. induction a as [|c a IH]; intros acc; [reflexivity|].
  rewrite append_cons. simpl. apply IH.
Qed.

(** With enough fuel, the digits of [n] are decimal digits and denote [n]. *)
Lemma digits_sound (fuel : nat) : forall n : Z,
  (0 <= n < 2 ^ Z.of_nat fuel)%Z ->
  all_digits (digits fuel n) = true /\ value_from 0 (digits fuel n) = n.
Proof.
  induction fuel as [|f IH]; intros n Hn.
  - simpl in Hn. assert (n = 0%Z) as -> by lia. split; reflexivity.
  - simpl digits. destruct (Z.ltb_spec n 10) as [Hlt|Hge].
    + cbn [all_digits value_from]. rewrite is_digit_digit_char by lia.
      rewrite digit_val_digit_char by lia. split; [reflexivity | lia].
    + assert (Hq : (0 <= n / 10 < 2 ^ Z.of_nat f)%Z).
      { split; [apply Z.div_pos; lia|].
        apply Z.div_lt_upper_bound; [lia|].
        rewrite Nat2Z.inj_succ, Z.pow_succ_r in Hn by lia. lia. }
      destruct (IH _ Hq) as [Hd Hv].
      assert (Hm : (0 <= n mod 10 < 10)%Z) by (apply Z.mod_pos_bound; lia).
      rewrite all_digits_append, value_from_append, Hd, Hv.
      cbn [all_digits value_from andb].
      rewrite is_digit_digit_char, digit_val_digit_char by exact Hm.
      split; [reflexivity|]. pose proof (Z.div_mod n 10). lia.
Qed.

(** The number of digits: [k + 1] for [10^k <= n < 10^(k+1)]. *)
Lemma digits_length (k : nat) : forall (fuel : nat) (n : Z),
  (k < fuel)%nat ->
  (10 ^ Z.of_nat k <= n < 10 ^ Z.of_nat (S k))%Z ->
  String.length (digits fuel n) = S k.
Proof.
  induction k as [|k IH]; intros fuel n Hf Hn.
  - destruct fuel as [|f]; [lia|]. simpl digits.
    change (10 ^ Z.of_nat 1)%Z with 10%Z in Hn.
    destruct (Z.ltb_spec n 10); [reflexivity | lia].
  - destruct fuel as [|f]; [lia|]. simpl digits.
    rewrite !Nat2Z.inj_succ, !Z.pow_succ_r in Hn by lia.
    assert (Hp : (0 < 10 ^ Z.of_nat k)%Z) by (apply Z.pow_pos_nonneg; lia).
    destruct (Z.ltb_spec n 10) as [Hlt|Hge]; [lia|].
    rewrite length_append. cbn [String.length].
    rewrite (IH f (n / 10)%Z).
    + lia.
    + lia.
    + rewrite Nat2Z.inj_succ, Z.pow_succ_r by lia. split.
      * apply Z.div_le_lower_bound; lia.
      * apply Z.div_lt_upper_bound; lia.
Qed.

Lemma digits_fuel_enough (n : Z) : (0 <= n)%Z -> (0 <= n < 2 ^ Z.of_nat (digits_fuel n))%Z.
Proof.
  intros Hn. split; [exact Hn|]. unfold digits_fuel.
  rewrite Nat2Z.inj_succ, Z2Nat.id by apply Z.log2_nonneg.
  destruct (Z.eq_dec n 0%Z) as [->|Hne]; [reflexivity|].
  apply Z.log2_spec. lia.
Qed.

Lemma str_nonneg (n : Z) : (0 <= n)%Z -> str n = digits (digits_fuel n) n.
Proof. intros Hn. unfold str. destruct (Z.ltb_spec n 0); [lia | reflexivity]. Qed.

Lemma str_all_digits (n : Z) : (0 <= n)%Z -> all_digits (str n) = true.
Proof.
  intros Hn. rewrite str_nonneg by exact Hn.
  apply digits_sound, digits_fuel_enough, Hn.
Qed.

Lemma str_value (n : Z) : (0 <= n)%Z -> value_from 0 (str n) = n.
Proof.
  intros Hn. rewrite str_nonneg by exact Hn.
  apply digits_sound, digits_fuel_enough, Hn.
Qed.

Lemma str_inj (n m : Z) : (0 <= n)%Z -> (0 <= m)%Z -> str n = str m -> n = m.
Proof.
  intros Hn Hm E. rewrite <- (str_value n Hn), <- (str_value m Hm). now rewrite E.
Qed.

(** Between [10^k] and [10^(k+1)], [str] has exactly [k + 1] characters. *)
Lemma str_length (k : nat) (n : Z) :
  (10 ^ Z.of_nat k <= n < 10 ^ Z.of_nat (S k))%Z ->
  String.length (str n) = S k.
Proof.
  intros Hn.
  assert (Hp : (0 < 10 ^ Z.of_nat k)%Z) by (apply Z.pow_pos_nonneg; lia).
  rewrite str_nonneg by lia. apply digits_length; [|exact Hn].
  unfold digits_fuel. apply Nat.lt_succ_r.
  apply Nat2Z.inj_le. rewrite Z2Nat.id by apply Z.log2_nonneg.
  apply Z.log2_le_pow2; [lia|].
  apply Z.le_trans with (10 ^ Z.of_nat k)%Z; [|lia].
  apply Z.pow_le_mono_l. lia.
Qed.

End PyStrFacts.

(* ===================================================================== *)
(** * Facts about sample file names *)
(* ===================================================================== *)

Module NameFacts.
Import PyStr PyStrFacts.


Lemma contains_append (x : ascii) (a b : string) :
  contains x (a +:+ b) = contains x a || contains x b.
Proof.
  string_induction a; cbn [contains]; [reflexivity|].
  now rewrite IH, orb_assoc.
Qed.

Lemma has_magic_append (a b : string) :
  Glob.has_magic (a +:+ b) = Glob.has_magic a || Glob.has_magic b.
Proof.
  string_induction a; cbn [Glob.has_magic]; [reflexivity|].
  now rewrite IH, orb_assoc.
Qed.








Lemma sample_filename_stem (name emp_id : string) (i : nat) :
  sample_filename name emp_id i
  = (stem name emp_id +:+ String "_" (fmt03d i)) +:+ ".jpg".
Proof.
  unfold sample_filename, stem. rewrite !append_assoc. reflexivity.
Qed.

Lemma sample_pattern_stem (name emp_id : string) :
  sample_pattern name emp_id = stem name emp_id +:+ "_*.jpg".
Proof. unfold sample_pattern, stem. now rewrite !append_assoc. Qed.




End NameFacts.

Module FileNameFacts.
Import PyStr PyStrFacts NameFacts.

Lemma cut_found (sep : ascii) (a b : string) :
  contains sep a = false -> cut sep (a +:+ String sep b) = Some (a, b).
Proof.
  induction a as [|c a IH]; intros H.
  - rewrite append_nil_l. cbn [cut]. now rewrite Ascii.eqb_refl.
  - rewrite append_cons. cbn [contains cut] in *.
    apply orb_false_iff in H. destruct H as [Hc Ha].
    rewrite Hc, (IH Ha). reflexivity.
Qed.

Lemma cut_some (sep : ascii) (s : string) :
  contains sep s = true -> exists a b, cut sep s = Some (a, b).
Proof.
  induction s as [|c s IH]; intros H; [discriminate H|].
  cbn [contains cut] in *. destruct (Ascii.eqb c sep); [eauto|].
  destruct (IH H) as (a & b & ->). eauto.
Qed.

Lemma lower_append (a b : string) : lower (a +:+ b) = lower a +:+ lower b.
Proof.
  string_induction a; [reflexivity|].
  cbn [lower]. now rewrite IH, append_cons.
Qed.

Lemma substring_skip (a b : string) (n : nat) :
  substring (String.length a) n (a +:+ b) = substring 0 n b.
Proof. string_induction a; [reflexivity | exact IH]. Qed.

Lemma substring_all (p : string) : substring 0 (String.length p) p = p.
Proof. induction p as [|c p IH]; [reflexivity|]. cbn. now rewrite IH. Qed.

Lemma endswith_append (p a : string) : endswith p (a +:+ p) = true.
Proof.
  unfold endswith. rewrite length_append.
  replace (String.length a + String.length p - String.length p)%nat
    with (String.length a) by lia.
  rewrite substring_skip, substring_all, String.eqb_refl, andb_true_r.
  apply Nat.leb_le. lia.
Qed.

Lemma sample_filename_split (name emp_id : string) (i : nat) :
  sample_filename name emp_id i
  = name +:+ String "_" (emp_id +:+ String "_" (fmt03d i +:+ ".jpg")).
Proof. reflexivity. Qed.

(** Every sample file name has the suffix that training looks for. *)
Lemma has_image_suffix_sample (name emp_id : string) (i : nat) :
  has_image_suffix (sample_filename name emp_id i) = true.
Proof.
  unfold has_image_suffix. rewrite sample_filename_stem, lower_append.
  change (lower ".jpg") with ".jpg". now rewrite endswith_append.
Qed.

End FileNameFacts.

(* ===================================================================== *)
(** * Facts about the application *)
(* ===================================================================== *)

Lemma Qltb_true (x y : Q) : Qltb x y = true <-> (x < y)%Q.
Proof.
  unfold Qltb. rewrite negb_true_iff. split.
  - intros H. apply Qnot_le_lt. intros Hle.
    apply Qle_bool_iff in Hle. congruence.
  - intros H. destruct (Qle_bool y x) eqn:E; [|reflexivity].
    apply Qle_bool_iff in E. exfalso. exact (Qlt_not_le _ _ H E).
Qed.

Lemma Qltb_false (x y : Q) : Qltb x y = false <-> (y <= x)%Q.
Proof.
  unfold Qltb. rewrite negb_false_iff. apply Qle_bool_iff.
Qed.

Lemma RECOGNITION_INTERVAL_300 : RECOGNITION_INTERVAL = 300%Q.
Proof. reflexivity. Qed.

Section AppFacts.

Context {Image : Type} {cv : OpenCV Image} {fs : @FileSystem Image}.

Implicit Types (app : @FaceApp Image) (emp_id name : string) (sound : bool)
  (face : @Face Image) (shape : Z * Z).

(* --------------------------------------------------------------------- *)
(** ** The tick overlay at the end of the recognised branch *)
(* --------------------------------------------------------------------- *)

Lemma overlay_tick_only app shape face name emp_id :
  Forall overlay_only (overlay_tick app shape face name emp_id).
Proof.
  unfold overlay_tick. destruct shape as [h w].
  destruct (face_box face) as [[[x y] w_s] h_s].
  destruct (getTextSize _) as [tw th].
  destruct (_overlay_tick_next_to_name _ _ _ _ _ _ _);
    destruct (tick_icon app) as [[| |]|]; repeat constructor.
Qed.

Lemma overlay_only_filter (p : Effect -> bool) (es : list Effect) :
  (forall e, overlay_only e -> p e = false) ->
  Forall overlay_only es -> List.filter p es = [].
Proof.
  intros Hp H. induction H as [|e es He _ IH]; [reflexivity|].
  cbn [List.filter]. now rewrite (Hp e He).
Qed.

Lemma overlay_tick_no_dispatch app shape face name emp_id other :
  List.filter (is_dispatch other) (overlay_tick app shape face name emp_id) = [].
Proof.
  apply overlay_only_filter; [|apply overlay_tick_only].
  intros [] H; try destruct H; reflexivity.
Qed.

(** The overlay raises exactly when the icon is two-dimensional and the
    frame is at least as large as the icon. *)
Lemma overlay_tick_died app shape face name emp_id :
  (0 <= fst shape)%Z -> (0 <= snd shape)%Z ->
  died (overlay_tick app shape face name emp_id) = true
  <-> tick_icon app = Some IconGray /\ (25 <= fst shape)%Z /\ (25 <= snd shape)%Z.
Proof.
  intros Hh Hw. unfold overlay_tick. destruct shape as [h w]. cbn [fst snd] in *.
  destruct (face_box face) as [[[x y] w_s] h_s].
  destruct (getTextSize _) as [tw th].
  unfold _overlay_tick_next_to_name, tick_corner, slice_extent, tick_icon_size, padding_x.
  destruct (tick_icon app) as [icon|].
  2:{ cbn. split; [discriminate | intros [E _]; discriminate E]. }
  match goal with
  | |- context [if ?b then _ else _] => destruct b eqn:E
  end.
  - apply andb_true_iff in E. destruct E as [Er Ec].
    apply Z.eqb_eq in Er. apply Z.eqb_eq in Ec.
    destruct icon; cbn; split; try discriminate;
      try (intros [E _]; discriminate E); intros _; repeat split; lia.
  - cbn. split; [discriminate|]. intros (_ & H1 & H2). exfalso.
    apply andb_false_iff in E. destruct E as [E|E]; apply Z.eqb_neq in E; lia.
Qed.

(* --------------------------------------------------------------------- *)
(** ** OTP *)
(* --------------------------------------------------------------------- *)

Lemma otp_accepted_iff app emp_id text code :
  otp_storage app !! emp_id = Some code ->
  otp_accepted app emp_id text = true <-> PyStr.strip text = code.
Proof.
  intros H. unfold otp_accepted. rewrite H. apply String.eqb_eq.
Qed.

Lemma _verify_keeps_state app emp_id text : fst (_verify app emp_id text) = app.
Proof. unfold _verify. now destruct (otp_accepted app emp_id text). Qed.

Lemma verify_all_keeps_state app emp_id texts : verify_all app emp_id texts = app.
Proof.
  revert app. induction texts as [|t texts IH]; intros app; simpl; [reflexivity|].
  now rewrite _verify_keeps_state, IH.
Qed.

Lemma on_recognised_otp app name emp_id now :
  otp_storage (fst (on_recognised app name emp_id now)) = otp_storage app.
Proof. unfold on_recognised. now destruct (Qltb _ _). Qed.

Lemma recognise_face_otp app shape face :
  otp_storage (fst (recognise_face app shape face)) = otp_storage app.
Proof.
  unfold recognise_face.
  destruct (predict_or_unknown _ _) as [label conf].
  destruct (identity_of _ _) as [name emp_id].
  destruct (Qltb conf 60); [|reflexivity].
  pose proof (on_recognised_otp app name emp_id (face_now face)) as H.
  now destruct (on_recognised app name emp_id (face_now face)) as [app1 es].
Qed.

(** C7, as the code has it: the text typed in is stripped of leading
    and trailing whitespace (every character Python counts as
    whitespace, the no-break space included) before it is compared.
    After a code was issued
    for an employee id, verification succeeds exactly when the stripped
    text equals that code; after a resend it succeeds exactly when the
    stripped text equals the new code, so the old code is accepted no
    longer unless the same code was drawn again; a press of Verify,
    accepted or not, changes nothing of the application state, so any
    number of attempts leaves the stored code in force; and neither the
    clock nor the recognition loop touches the stored codes. *)
Theorem C7_otp_verify_stripped_match
  app emp_id email (name : option string) (r r2 : Z) (text : string) :
  (otp_accepted (fst (_send_otp_flow app emp_id email name r)) emp_id text = true
     <-> PyStr.strip text = _generate_otp r)
  /\ (otp_accepted
        (fst (_resend (fst (_send_otp_flow app emp_id email name r)) emp_id email r2))
        emp_id text = true
      <-> PyStr.strip text = _generate_otp r2)
  /\ (PyStr.strip text = _generate_otp r ->
      _generate_otp r2 <> _generate_otp r ->
      otp_accepted
        (fst (_resend (fst (_send_otp_flow app emp_id email name r)) emp_id email r2))
        emp_id text = false)
  /\ fst (_verify app emp_id text) = app
  /\ (forall texts, verify_all app emp_id texts = app)
  /\ (forall shape face,
        otp_storage (fst (recognise_face app shape face)) = otp_storage app).
Proof.
  assert (H1 : otp_storage (fst (_send_otp_flow app emp_id email name r)) !! emp_id
               = Some (_generate_otp r)).
  { unfold _send_otp_flow. cbn [fst set_pending_names set_otp_storage otp_storage].
    apply lookup_insert_eq. }
  assert (H2 : otp_storage
                 (fst (_resend (fst (_send_otp_flow app emp_id email name r))
                               emp_id email r2)) !! emp_id
               = Some (_generate_otp r2)).
  { unfold _resend. cbn [fst set_otp_storage otp_storage]. apply lookup_insert_eq. }
  split; [now apply otp_accepted_iff|].
  split; [now apply otp_accepted_iff|].
  split.
  { intros Hold Hne.
    destruct (otp_accepted _ emp_id text) eqn:E; [|reflexivity].
    apply (otp_accepted_iff _ _ _ _ H2) in E. congruence. }
  split; [apply _verify_keeps_state|].
  split; [apply verify_all_keeps_state|].
  apply recognise_face_otp.
Qed.

Lemma randint_range (a b draw : Z) :
  (a <= b)%Z -> (a <= randint a b draw <= b)%Z.
Proof.
  intros H. unfold randint.
  pose proof (Z.mod_pos_bound draw (b - a + 1)). lia.
Qed.

Lemma randint_onto (a b n : Z) :
  (a <= n <= b)%Z -> randint a b (n - a) = n.
Proof.
  intros H. unfold randint. rewrite Z.mod_small by lia. lia.
Qed.

Lemma randint_periodic (a b draw : Z) :
  (a <= b)%Z -> randint a b (draw + (b - a + 1)) = randint a b draw.
Proof.
  intros H. unfold randint. f_equal.
  rewrite <- (Z.mul_1_l (b - a + 1)) at 1. apply Z.mod_add. lia.
Qed.

Lemma randint_small (a b draw : Z) :
  (0 <= draw < b - a + 1)%Z -> randint a b draw = (a + draw)%Z.
Proof. intros H. unfold randint. now rewrite Z.mod_small. Qed.

(** C8: the code issued is the decimal rendering of the integer that
    [random.randint(100000, 999999)] answers: whatever the generator
    draws, a string of exactly six decimal digits that denotes a number
    from 100000 to 999999. Every such number is the code of exactly one
    of the 900000 draws of a period of the generator and the codes repeat
    with that period, so a code is as evenly distributed over the
    900000 six-digit codes as the draws are over a period. Issuing stores
    the code and the bound name under the employee id, whatever was
    stored there before, and leaves the records of other ids alone. *)
Theorem C8_otp_issue_six_digits
  app emp_id email (name : option string) (draw : Z) :
  String.length (_generate_otp draw) = 6%nat
  /\ PyStr.all_digits (_generate_otp draw) = true
  /\ (100000 <= PyStr.value_from 0 (_generate_otp draw) <= 999999)%Z
  /\ (forall code : Z,
        (100000 <= code <= 999999)%Z ->
        exists draw0 : Z,
          (0 <= draw0 < 900000)%Z
          /\ _generate_otp draw0 = PyStr.str code
          /\ (forall draw1 : Z,
                (0 <= draw1 < 900000)%Z ->
                _generate_otp draw1 = PyStr.str code -> draw1 = draw0))
  /\ _generate_otp (draw + 900000) = _generate_otp draw
  /\ otp_storage (fst (_send_otp_flow app emp_id email name draw)) !! emp_id
     = Some (_generate_otp draw)
  /\ pending_names (fst (_send_otp_flow app emp_id email name draw)) !! emp_id
     = Some name
  /\ (forall other, other <> emp_id ->
        otp_storage (fst (_send_otp_flow app emp_id email name draw)) !! other
        = otp_storage app !! other
        /\ pending_names (fst (_send_otp_flow app emp_id email name draw)) !! other
           = pending_names app !! other).
Proof.
  pose proof (randint_range 100000 999999 draw ltac:(lia)) as Hr.
  unfold _generate_otp.
  split; [apply (PyStrFacts.str_length 5); simpl; lia|].
  split; [apply PyStrFacts.str_all_digits; lia|].
  split; [rewrite PyStrFacts.str_value; lia|].
  split.
  { intros code Hc. exists (code - 100000)%Z.
    split; [lia|]. split; [now rewrite randint_onto|].
    intros draw1 H1 E. rewrite randint_small in E by lia.
    apply PyStrFacts.str_inj in E; lia. }
  split.
  { f_equal. exact (randint_periodic 100000 999999 draw ltac:(lia)). }
  unfold _send_otp_flow.
  cbn [fst set_pending_names set_otp_storage otp_storage pending_names].
  split; [apply lookup_insert_eq|].
  split; [apply lookup_insert_eq|].
  intros other Hne. split; apply lookup_insert_ne; congruence.
Qed.

(* --------------------------------------------------------------------- *)
(** ** The attendance workers *)
(* --------------------------------------------------------------------- *)

Lemma submit_response app name emp_id status_code text :
  reported_success (_submit_to_google_form app name emp_id (Response status_code text))
  = is_success_status status_code
  /\ reported_warning (_submit_to_google_form app name emp_id (Response status_code text))
     = negb (is_success_status status_code)
  /\ completion (_submit_to_google_form app name emp_id (Response status_code text))
     = Returned.
Proof.
  unfold _submit_to_google_form, reported_success, reported_warning, completion.
  destruct (is_success_status status_code); repeat split.
Qed.

Lemma submit_raises app name emp_id e :
  isinstance_RequestException e = true ->
  reported_success (_submit_to_google_form app name emp_id (Raises e)) = false
  /\ reported_warning (_submit_to_google_form app name emp_id (Raises e))
     = isinstance_Timeout e || isinstance_ConnectionError e
  /\ completion (_submit_to_google_form app name emp_id (Raises e)) = Returned.
Proof.
  intros He. destruct e; try discriminate He; repeat split.
Qed.

Lemma submit_keeps_state app name emp_id outcome :
  fst (fst (_submit_to_google_form app name emp_id outcome)) = app.
Proof.
  unfold _submit_to_google_form. destruct outcome as [status_code text|e].
  - now destruct (is_success_status status_code).
  - now destruct e.
Qed.

Lemma submit_posts_once app name emp_id outcome :
  length (List.filter is_post (snd (fst (_submit_to_google_form app name emp_id outcome))))
  = 1%nat.
Proof.
  unfold _submit_to_google_form. destruct outcome as [status_code text|e].
  - now destruct (is_success_status status_code).
  - now destruct e.
Qed.

(** C6, as the code has it: a response is a success exactly when its
    status code is 200 or 302; every other status code, the other 2xx
    and 3xx codes included, and every timeout or connection failure is
    reported with a warning popup, the worker returning normally. *)
Theorem C6_success_iff_200_or_302
  app name emp_id (status_code : Z) (text : string) (e : Exc) :
  (reported_success (_submit_to_google_form app name emp_id (Response status_code text))
   = true <-> status_code = 200%Z \/ status_code = 302%Z)
  /\ (status_code <> 200%Z -> status_code <> 302%Z ->
      reported_warning (_submit_to_google_form app name emp_id (Response status_code text))
      = true
      /\ completion (_submit_to_google_form app name emp_id (Response status_code text))
         = Returned)
  /\ (isinstance_Timeout e = true \/ isinstance_ConnectionError e = true ->
      reported_success (_submit_to_google_form app name emp_id (Raises e)) = false
      /\ reported_warning (_submit_to_google_form app name emp_id (Raises e)) = true
      /\ completion (_submit_to_google_form app name emp_id (Raises e)) = Returned).
Proof.
  destruct (submit_response app name emp_id status_code text) as (Hs & Hw & Hc).
  split; [ | split ].
  - rewrite Hs. unfold is_success_status. rewrite orb_true_iff, !Z.eqb_eq. tauto.
  - intros H200 H302. split; [|exact Hc]. rewrite Hw.
    unfold is_success_status.
    destruct (Z.eqb_spec status_code 200); [contradiction|].
    destruct (Z.eqb_spec status_code 302); [contradiction|]. reflexivity.
  - intros He.
    assert (Hr : isinstance_RequestException e = true)
      by (destruct e, He; try discriminate; reflexivity).
    destruct (submit_raises app name emp_id e Hr) as (Hs' & Hw' & Hc').
    rewrite Hs', Hw', Hc'. repeat split.
    destruct He as [-> | ->]; [reflexivity | apply orb_true_r].
Qed.

Lemma dispatch_worker_keeps_state app sound name emp_id outcome :
  fst (fst (dispatch_worker app sound name emp_id outcome)) = app.
Proof.
  unfold dispatch_worker, _handle_successful_recognition.
  pose proof (submit_keeps_state app name emp_id outcome) as H.
  destruct (_submit_to_google_form app name emp_id outcome) as [[app2 e2] done].
  exact H.
Qed.

Lemma filter_is_post_handler sound name emp_id :
  List.filter is_post
    ([Log ("[INFO] Recognised " +:+ name +:+ " (" +:+ emp_id +:+ ")")]
     ++ (if sound then [PlaySound] else [])
     ++ [ThreadStart "GoogleFormSubmitter" (JSubmitForm name emp_id)]) = [].
Proof. now destruct sound. Qed.

Lemma dispatch_worker_posts_once app sound name emp_id outcome :
  length (List.filter is_post (snd (fst (dispatch_worker app sound name emp_id outcome))))
  = 1%nat.
Proof.
  unfold dispatch_worker, _handle_successful_recognition.
  pose proof (submit_posts_once app name emp_id outcome) as H.
  destruct (_submit_to_google_form app name emp_id outcome) as [[app2 e2] done].
  cbn [fst snd] in *. rewrite List.filter_app, filter_is_post_handler. exact H.
Qed.

Lemma dispatch_worker_report app sound name emp_id outcome :
  reported_warning (dispatch_worker app sound name emp_id outcome)
  = reported_warning (_submit_to_google_form app name emp_id outcome)
  /\ completion (dispatch_worker app sound name emp_id outcome)
     = completion (_submit_to_google_form app name emp_id outcome).
Proof.
  unfold dispatch_worker, _handle_successful_recognition, reported_warning, completion.
  destruct (_submit_to_google_form app name emp_id outcome) as [[app2 e2] done].
  cbn [fst snd]. split; [|reflexivity].
  rewrite existsb_app. now destruct sound.
Qed.

(* --------------------------------------------------------------------- *)
(** ** Cooldown *)
(* --------------------------------------------------------------------- *)

Lemma dispatches_app emp_id (a b : list Effect) :
  dispatches emp_id (a ++ b) = (dispatches emp_id a + dispatches emp_id b)%nat.
Proof. unfold dispatches. now rewrite List.filter_app, length_app. Qed.

Lemma on_recognised_fresh app name emp_id now :
  (300 < now - default 0%Q (last_seen_time app !! emp_id))%Q ->
  on_recognised app name emp_id now
  = (set_last_seen_time app (<[emp_id := now]> (last_seen_time app)),
     [ CooldownWrite emp_id now;
       ThreadStart "AttendanceSubmitter" (JHandleRecognition name emp_id);
       Notify (Status ("Attendance recorded for " +:+ PyStr.title name +:+ "!"));
       Draw (BoxRecognised (PyStr.title name +:+ " (" +:+ emp_id +:+ ")")) ]).
Proof.
  intros H. unfold on_recognised. rewrite RECOGNITION_INTERVAL_300.
  apply Qltb_true in H. now rewrite H.
Qed.

Lemma on_recognised_cooling app name emp_id now :
  (now - default 0%Q (last_seen_time app !! emp_id) <= 300)%Q ->
  on_recognised app name emp_id now
  = (app,
     [ Notify (Status ("Attendance already recorded for " +:+ PyStr.title name +:+ "."));
       Draw (BoxRecognised (PyStr.title name +:+ " (" +:+ emp_id +:+ ")")) ]).
Proof.
  intros H. unfold on_recognised. rewrite RECOGNITION_INTERVAL_300.
  apply Qltb_false in H. now rewrite H.
Qed.

Lemma on_recognised_dispatches app name emp_id now :
  dispatches emp_id (snd (on_recognised app name emp_id now))
  = if Qltb 300 (now - default 0%Q (last_seen_time app !! emp_id)) then 1%nat else 0%nat.
Proof.
  destruct (Qltb 300 _) eqn:E.
  - rewrite on_recognised_fresh by now apply Qltb_true.
    unfold dispatches. cbn [snd List.filter is_dispatch].
    now rewrite String.eqb_refl.
  - rewrite on_recognised_cooling by now apply Qltb_false.
    reflexivity.
Qed.

Lemma on_recognised_other app name emp_id other now :
  other <> emp_id ->
  dispatches emp_id (snd (on_recognised app name other now)) = 0%nat
  /\ last_seen_time (fst (on_recognised app name other now)) !! emp_id
     = last_seen_time app !! emp_id.
Proof.
  intros Hne. unfold on_recognised. destruct (Qltb _ _).
  - unfold dispatches. cbn [fst snd List.filter is_dispatch set_last_seen_time last_seen_time].
    apply String.eqb_neq in Hne. rewrite Hne. split; [reflexivity|].
    apply lookup_insert_ne. now apply String.eqb_neq.
  - split; reflexivity.
Qed.

Lemma on_recognised_all_others app emp_id (hits : list (string * string * Q)) :
  Forall (fun h => snd (fst h) <> emp_id) hits ->
  dispatches emp_id (snd (on_recognised_all app hits)) = 0%nat
  /\ last_seen_time (fst (on_recognised_all app hits)) !! emp_id
     = last_seen_time app !! emp_id.
Proof.
  intros H. revert app. induction H as [|[[name other] now] hits Hne _ IH]; intros app.
  - split; reflexivity.
  - cbn [on_recognised_all]. cbn [fst snd] in Hne.
    destruct (on_recognised_other app name emp_id other now Hne) as [H0 Hl].
    destruct (on_recognised app name other now) as [app1 e1].
    destruct (IH app1) as [H0' Hl'].
    destruct (on_recognised_all app1 hits) as [app2 e2].
    cbn [fst snd] in *. rewrite dispatches_app, H0, H0'. split; [reflexivity|].
    now rewrite Hl'.
Qed.

Lemma on_recognised_all_snoc app (hits : list (string * string * Q)) name emp_id now :
  on_recognised_all app (hits ++ [(name, emp_id, now)])
  = (fst (on_recognised (fst (on_recognised_all app hits)) name emp_id now),
     snd (on_recognised_all app hits)
     ++ snd (on_recognised (fst (on_recognised_all app hits)) name emp_id now)).
Proof.
  revert app. induction hits as [|[[n e] t] hits IH]; intros app.
  - cbn [List.app on_recognised_all fst snd].
    destruct (on_recognised app name emp_id now) as [a1 e1].
    cbn [fst snd]. now rewrite app_nil_r.
  - cbn [List.app on_recognised_all].
    destruct (on_recognised app n e t) as [a1 e1]. rewrite IH.
    destruct (on_recognised_all a1 hits) as [a2 e2]. cbn [fst snd].
    now rewrite app_assoc.
Qed.

(** Two recognitions of one employee no more than 300 seconds apart,
    with recognitions of other employees in between, start at most one
    attendance worker for that employee. *)
Lemma two_hits_one_dispatch app name name2 emp_id (t1 t2 : Q)
  (others : list (string * string * Q)) :
  (t2 - t1 <= 300)%Q ->
  Forall (fun h => snd (fst h) <> emp_id) others ->
  (dispatches emp_id
     (snd (on_recognised_all app ((name, emp_id, t1) :: others ++ [(name2, emp_id, t2)])))
   <= 1)%nat.
Proof.
  intros Hclose Hothers. cbn [on_recognised_all].
  pose proof (on_recognised_dispatches app name emp_id t1) as D1.
  destruct (on_recognised app name emp_id t1) as [app1 e1] eqn:R1.
  rewrite on_recognised_all_snoc.
  destruct (on_recognised_all_others app1 emp_id others Hothers) as [H0 Hl].
  pose proof (on_recognised_dispatches (fst (on_recognised_all app1 others))
                name2 emp_id t2) as D2.
  rewrite Hl in D2. cbn [fst snd] in *.
  rewrite !dispatches_app, H0, D1, D2.
  destruct (Qltb 300 (t1 - default 0%Q (last_seen_time app !! emp_id))) eqn:E1;
    [|destruct (Qltb 300 (t2 - _)); lia].
  apply Qltb_true in E1. rewrite on_recognised_fresh in R1 by exact E1.
  injection R1 as <- <-.
  cbn [set_last_seen_time last_seen_time]. rewrite lookup_insert_eq.
  unfold default; cbn [from_option id].
  apply Qltb_false in Hclose. rewrite Hclose. lia.
Qed.

Lemma recognise_face_hit app shape face (label : Z) (conf : Q) name emp_id :
  predict_or_unknown (recognizer app) (face_roi face) = (label, conf) ->
  (conf < 60)%Q ->
  identity_of (label_map app) label = (name, emp_id) ->
  recognise_face app shape face
  = (fst (on_recognised app name emp_id (face_now face)),
     snd (on_recognised app name emp_id (face_now face))
     ++ overlay_tick app shape face name emp_id).
Proof.
  intros Hp Hc Hi. unfold recognise_face. rewrite Hp, Hi.
  apply Qltb_true in Hc. rewrite Hc.
  now destruct (on_recognised app name emp_id (face_now face)).
Qed.

Lemma dispatches_overlay app shape face name emp_id other (es : list Effect) :
  dispatches other (es ++ overlay_tick app shape face name emp_id) = dispatches other es.
Proof.
  rewrite dispatches_app. unfold dispatches at 2.
  rewrite overlay_tick_no_dispatch. cbn [length]. lia.
Qed.

(** C1. For a face recognised as [emp_id] when the clock reads [now],
    the attendance worker is started exactly when
    [now - last_seen > 300], where [last_seen] is the time recorded for
    [emp_id] in the cooldown table, or 0 when none is recorded. The
    clock is [time.time()], seconds since 1970: on every reading later
    than 300 the worker is started exactly when no dispatch is recorded
    for the id or the recorded one is more than 300 seconds old. When the worker is started, the table
    entry is written first and the thread started next, and the entry
    holds [now] afterwards; when it is not, the state is unchanged. Hence
    two recognitions of one employee no more than 300 seconds apart
    start at most one worker for that employee, and a worker makes
    exactly one POST. *)
Theorem C1_dispatch_iff_interval_elapsed
  app shape face (label : Z) (conf : Q) name emp_id (now : Q) :
  predict_or_unknown (recognizer app) (face_roi face) = (label, conf) ->
  (conf < 60)%Q ->
  identity_of (label_map app) label = (name, emp_id) ->
  face_now face = now ->
  ((300 < now)%Q ->
   (dispatches emp_id (snd (recognise_face app shape face)) = 1%nat
    <-> last_seen_time app !! emp_id = None
        \/ exists last, last_seen_time app !! emp_id = Some last
                        /\ (300 < now - last)%Q))
  /\ (dispatches emp_id (snd (recognise_face app shape face)) = 1%nat
      <-> (300 < now - default 0%Q (last_seen_time app !! emp_id))%Q)
  /\ (dispatches emp_id (snd (recognise_face app shape face)) = 0%nat
      <-> (now - default 0%Q (last_seen_time app !! emp_id) <= 300)%Q)
  /\ ((300 < now - default 0%Q (last_seen_time app !! emp_id))%Q ->
      (exists rest,
          snd (recognise_face app shape face)
          = CooldownWrite emp_id now
            :: ThreadStart "AttendanceSubmitter" (JHandleRecognition name emp_id)
            :: rest
          /\ dispatches emp_id rest = 0%nat)
      /\ last_seen_time (fst (recognise_face app shape face)) !! emp_id = Some now)
  /\ ((now - default 0%Q (last_seen_time app !! emp_id) <= 300)%Q ->
      fst (recognise_face app shape face) = app)
  /\ (forall name2 (t2 : Q) (others : list (string * string * Q)),
        (t2 - now <= 300)%Q ->
        Forall (fun h => snd (fst h) <> emp_id) others ->
        (dispatches emp_id
           (snd (on_recognised_all app
                   ((name, emp_id, now) :: others ++ [(name2, emp_id, t2)])))
         <= 1)%nat)
  /\ (forall app' sound outcome,
        length (List.filter is_post
                  (snd (fst (dispatch_worker app' sound name emp_id outcome))))
        = 1%nat).
Proof.
  intros Hp Hc Hi Hnow. rewrite (recognise_face_hit _ _ _ _ _ _ _ Hp Hc Hi), Hnow.
  cbn [fst snd]. rewrite dispatches_overlay.
  pose proof (on_recognised_dispatches app name emp_id now) as D.
  assert (D1 : dispatches emp_id (snd (on_recognised app name emp_id now)) = 1%nat
               <-> (300 < now - default 0%Q (last_seen_time app !! emp_id))%Q).
  { rewrite D. destruct (Qltb 300 _) eqn:E.
    - apply Qltb_true in E. tauto.
    - apply Qltb_false in E. split; [discriminate|].
      intros H. exfalso. exact (Qlt_not_le _ _ H E). }
  split; [ | split; [ | split; [ | split; [ | split; [ | split ] ] ] ] ].
  - intros Hepoch. rewrite D1.
    destruct (last_seen_time app !! emp_id) as [last|]; cbn [default from_option id].
    + split.
      * intros H. right. exists last. split; [reflexivity | exact H].
      * intros [F|(l & E & H)]; [discriminate F|]. now injection E as <-.
    + split; [now left|]. intros _.
      unfold Qminus. now rewrite Qplus_0_r.
  - exact D1.
  - rewrite D. destruct (Qltb 300 _) eqn:E.
    + apply Qltb_true in E. split; [discriminate|].
      intros H. exfalso. exact (Qlt_not_le _ _ E H).
    + apply Qltb_false in E. tauto.
  - intros H. rewrite on_recognised_fresh by exact H. cbn [fst snd]. split.
    + eexists. split; [reflexivity|].
      unfold dispatches. cbn [List.filter is_dispatch List.app].
      rewrite overlay_tick_no_dispatch. reflexivity.
    + cbn [set_last_seen_time last_seen_time]. apply lookup_insert_eq.
  - intros H. now rewrite on_recognised_cooling by exact H.
  - intros name2 t2 others. apply two_hits_one_dispatch.
  - intros app' sound outcome. apply dispatch_worker_posts_once.
Qed.

(** C5: once a recognition has started the attendance worker at time
    [now], the worker, whatever the outcome of its POST, leaves the
    whole application state as it was: the cooldown entry still holds
    [now]. A response, a timeout, a connection error and any other
    [requests] exception end the worker normally; a response other
    than 200 and 302, a timeout and a connection error are each reported
    with a warning popup. *)
Theorem C5_outcome_not_written_back
  app name emp_id now sound (outcome : PostOutcome) :
  (300 < now - default 0%Q (last_seen_time app !! emp_id))%Q ->
  In (ThreadStart "AttendanceSubmitter" (JHandleRecognition name emp_id))
     (snd (on_recognised app name emp_id now))
  /\ fst (fst (dispatch_worker (fst (on_recognised app name emp_id now))
                               sound name emp_id outcome))
     = fst (on_recognised app name emp_id now)
  /\ last_seen_time
       (fst (fst (dispatch_worker (fst (on_recognised app name emp_id now))
                                  sound name emp_id outcome))) !! emp_id
     = Some now
  /\ (forall status_code text,
        outcome = Response status_code text ->
        completion (dispatch_worker (fst (on_recognised app name emp_id now))
                                    sound name emp_id outcome) = Returned
        /\ reported_warning (dispatch_worker (fst (on_recognised app name emp_id now))
                                             sound name emp_id outcome)
           = negb (is_success_status status_code))
  /\ (forall e,
        outcome = Raises e ->
        isinstance_RequestException e = true ->
        completion (dispatch_worker (fst (on_recognised app name emp_id now))
                                    sound name emp_id outcome) = Returned
        /\ (isinstance_Timeout e = true \/ isinstance_ConnectionError e = true ->
            reported_warning (dispatch_worker (fst (on_recognised app name emp_id now))
                                              sound name emp_id outcome) = true)).
Proof.
  intros H. rewrite on_recognised_fresh by exact H. cbn [fst snd].
  set (app1 := set_last_seen_time _ _).
  destruct (dispatch_worker_report app1 sound name emp_id outcome) as [Hw Hc].
  split; [right; left; reflexivity|].
  split; [apply dispatch_worker_keeps_state|].
  split.
  { rewrite dispatch_worker_keeps_state. unfold app1.
    cbn [set_last_seen_time last_seen_time]. apply lookup_insert_eq. }
  split.
  - intros status_code text ->. rewrite Hw, Hc.
    destruct (submit_response app1 name emp_id status_code text) as (_ & Hw' & Hc').
    now rewrite Hw', Hc'.
  - intros e -> He. rewrite Hw, Hc.
    destruct (submit_raises app1 name emp_id e He) as (_ & Hw' & Hc').
    rewrite Hw', Hc'. split; [reflexivity|].
    intros [-> | ->]; [reflexivity | apply orb_true_r].
Qed.

(* --------------------------------------------------------------------- *)
(** ** Training on no sample, and capture without a name *)
(* --------------------------------------------------------------------- *)

Lemma train_fold_no_sample d (files : list string) (ts : TrainState) :
  Forall (fun file => sample_of d file = None) files ->
  fold_left (train_step d) files ts = ts.
Proof.
  intros H. revert ts. induction H as [|file files Hf _ IH]; intros ts.
  - reflexivity.
  - cbn [fold_left]. unfold train_step at 2. rewrite Hf. apply IH.
Qed.

Lemma sorted_Permutation (l : list string) : Permutation l (sorted l).
Proof. apply StringSort.Permuted_sort. Qed.

(** C4: when the directory holds no usable sample, training returns an
    untrained recogniser and an empty label map; [predict] on it raises
    for every input, which the camera thread turns into label -1 and
    confidence 1000, the identity ("unknown", ""), and the Unknown
    annotation, with no dispatch and no change of state. *)
Theorem C4_empty_training_reports_unknown
  (d : gmap string FileContent) app roi shape face :
  Forall (fun file => sample_of d file = None) (listdir d) ->
  _train_recognizer d = (Untrained, [])
  /\ predict (fst (_train_recognizer d)) roi = None
  /\ predict_or_unknown (fst (_train_recognizer d)) roi = ((-1)%Z, 1000%Q)
  /\ identity_of (snd (_train_recognizer d)) (-1) = ("unknown", "")
  /\ recognise_face (set_model app (fst (_train_recognizer d)) (snd (_train_recognizer d)))
                    shape face
     = (set_model app (fst (_train_recognizer d)) (snd (_train_recognizer d)),
        [Draw BoxUnknown]).
Proof.
  intros H.
  assert (E : _train_recognizer d = (Untrained, [])).
  { unfold _train_recognizer, train_scan.
    rewrite train_fold_no_sample; [reflexivity|].
    exact (Permutation_Forall (sorted_Permutation _) H). }
  rewrite E. repeat split.
Qed.

Lemma name_of_emp_none (lm : LabelMap) emp_id :
  (forall l nm eid, In (l, (nm, eid)) lm -> eid <> emp_id) ->
  name_of_emp lm emp_id = None.
Proof.
  induction lm as [|[l [nm eid]] lm IH]; intros H; [reflexivity|].
  cbn [name_of_emp].
  destruct (String.eqb_spec eid emp_id) as [->|Hne].
  - exfalso. exact (H l nm emp_id (or_introl eq_refl) eq_refl).
  - apply IH. intros l' nm' eid' Hin. exact (H l' nm' eid' (or_intror Hin)).
Qed.

(** C10: a capture started without a display name for an employee id
    that no entry of the label map carries ends at once: the error is
    logged and shown in a popup, nothing else happens (no countdown, no
    file written, no retraining), and the application state is as it
    was. *)
Theorem C10_capture_without_name_aborts
  app emp_id (updating : bool) (sample_count : option Z) (ticks : list Tick) :
  (forall l nm eid, In (l, (nm, eid)) (label_map app) -> eid <> emp_id) ->
  _capture_samples app None emp_id updating sample_count ticks
  = (app,
     [ Log "[ERROR] No existing face found for this ID – please register first.";
       Notify (PopupOpen "Error"
                 "No existing face found for this ID. Please register first.") ])
  /\ fst (_capture_samples app None emp_id updating sample_count ticks) = app
  /\ written_files (snd (_capture_samples app None emp_id updating sample_count ticks)) = []
  /\ ~ In Retrain (snd (_capture_samples app None emp_id updating sample_count ticks))
  /\ (forall e, In e countdown ->
        ~ In e (snd (_capture_samples app None emp_id updating sample_count ticks))).
Proof.
  intros H.
  assert (E : _capture_samples app None emp_id updating sample_count ticks
              = (app,
                 [ Log "[ERROR] No existing face found for this ID – please register first.";
                   Notify (PopupOpen "Error"
                             "No existing face found for this ID. Please register first.") ])).
  { unfold _capture_samples, resolve_name. now rewrite name_of_emp_none. }
  rewrite E. cbn [fst snd]. split; [reflexivity|]. split; [reflexivity|].
  split; [reflexivity|]. split.
  - intros [F|[F|[]]]; discriminate F.
  - intros e He [F|[F|[]]]; subst e;
      repeat (destruct He as [He|He]; [discriminate He|]); destruct He.
Qed.

End AppFacts.

(* ===================================================================== *)
(** * Training: one label per sample file *)
(* ===================================================================== *)

Section DictFacts.

Context {V : Type}.

Implicit Types (d : list (Z * V)) (k : Z) (v : V).

Lemma dict_set_fresh d k v :
  ~ In k (dict_keys d) -> dict_set d k v = d ++ [(k, v)].
Proof.
  induction d as [|[k' v'] d IH]; intros H; [reflexivity|].
  cbn [dict_set]. cbn [dict_keys map fst In] in H.
  destruct (Z.eqb_spec k' k) as [->|Hne]; [tauto|].
  cbn [List.app]. f_equal. apply IH. unfold dict_keys. tauto.
Qed.

Lemma enumerate_from_app k (a b : list V) :
  enumerate_from k (a ++ b)
  = enumerate_from k a ++ enumerate_from (k + Z.of_nat (length a))%Z b.
Proof.
  revert k. induction a as [|x a IH]; intros k.
  - cbn [List.app enumerate_from length]. now rewrite Z.add_0_r.
  - cbn [List.app enumerate_from length]. rewrite IH. do 3 f_equal. lia.
Qed.

Lemma enumerate_from_keys (k0 : nat) (l : list V) :
  dict_keys (enumerate_from (Z.of_nat k0) l) = map Z.of_nat (seq k0 (length l)).
Proof.
  revert k0. induction l as [|x l IH]; intros k0; [reflexivity|].
  cbn [enumerate_from dict_keys map fst length seq]. f_equal.
  replace (Z.of_nat k0 + 1)%Z with (Z.of_nat (S k0)) by lia. apply IH.
Qed.





End DictFacts.





Section TrainingFacts.

Context {Image : Type} {cv : OpenCV Image}.

Implicit Types (d : gmap string (@FileContent Image)).

Lemma samples_in_snoc d (files : list string) (file : string) :
  samples_in d (files ++ [file])
  = samples_in d files
    ++ match sample_of d file with
       | Some s => [(file, s)]
       | None => []
       end.
Proof.
  unfold samples_in. rewrite omap_app. f_equal.
  cbn [omap list_omap]. now destruct (sample_of d file).
Qed.

(** The state of the scan after the files [files]. *)
Lemma train_fold_closed d (files : list string) :
  fold_left (train_step d) files train_init
  = mkTrainState
      (map (fun s => resize200 (snd (snd s))) (samples_in d files))
      (dict_keys (enumerate_from 0 (map (fun s => fst (snd s)) (samples_in d files))))
      (enumerate_from 0 (map (fun s => fst (snd s)) (samples_in d files)))
      (Z.of_nat (length (samples_in d files))).
Proof.
  induction files as [|file files IH] using rev_ind; [reflexivity|].
  rewrite fold_left_app, IH, samples_in_snoc. cbn [fold_left].
  unfold train_step. destruct (sample_of d file) as [[ident img]|].
  - cbn [ts_images ts_labels ts_label_map ts_label_id].
    rewrite dict_set_fresh.
    + rewrite !map_app, enumerate_from_app, length_app, length_map.
      cbn [map fst snd length enumerate_from]. f_equal.
      * unfold dict_keys. rewrite map_app. cbn [map fst]. do 2 f_equal.
      * lia.
    + rewrite (enumerate_from_keys 0), length_map. intros Hin.
      apply in_map_iff in Hin. destruct Hin as (i & Hi & Hin).
      apply in_seq in Hin. lia.
  - now rewrite app_nil_r.
Qed.






End TrainingFacts.

(* ===================================================================== *)
(** * The shared model under interleaving *)
(* ===================================================================== *)

Section SharedModelFacts.

Context {Image : Type} {cv : OpenCV Image}.

Implicit Types (d : gmap string (@FileContent Image)) (c : @Config Image)
  (r : @Recognizer Image) (lm : LabelMap) (roi : Image).

Lemma train_self_consistent d :
  lbph_answers_training_labels cv ->
  self_consistent (fst (_train_recognizer d)) (snd (_train_recognizer d)).
Proof.
  intros Hcv. unfold _train_recognizer, train_scan. rewrite train_fold_closed.
  cbn [ts_images ts_labels ts_label_map fst snd].
  intros roi l conf Hp.
  destruct (map _ (samples_in d (sorted (listdir d)))) as [|img imgs];
    [discriminate Hp|].
  cbn [predict] in Hp. exact (Hcv _ _ _ _ _ Hp).
Qed.

Lemma identity_of_absent lm (label : Z) :
  ~ In label (dict_keys lm) -> identity_of lm label = ("unknown", "").
Proof.
  unfold identity_of. induction lm as [|[k v] lm IH]; intros H; [reflexivity|].
  cbn [dict_get]. cbn [dict_keys map fst In] in H.
  destruct (Z.eqb_spec k label) as [->|Hne]; [tauto|].
  apply IH. unfold dict_keys. tauto.
Qed.

Lemma run_app roi (s1 s2 : list Thread) c :
  run roi (s1 ++ s2) c = run roi s2 (run roi s1 c).
Proof. unfold run. apply fold_left_app. Qed.

Lemma run_camera_done roi (k : nat) c :
  (exists r l q lm ident, camera c = CamDone r l q lm ident) ->
  run roi (repeat CameraThread k) c = c.
Proof.
  intros (r & l & q & lm & ident & H). induction k as [|k IH]; [reflexivity|].
  cbn [repeat]. unfold run in *. cbn [fold_left].
  unfold step at 2. rewrite H. exact IH.
Qed.

(** Two camera steps from the start handle the face with the pair that
    is in place, when no store happens in between. *)
Lemma run_camera_twice roi c :
  camera c = CamStart ->
  exists l q,
    run roi [CameraThread; CameraThread] c
    = mkConfig (shared_recognizer c) (shared_label_map c)
               (CamDone (shared_recognizer c) l q (shared_label_map c)
                        (identity_of (shared_label_map c) l))
               (capture c).
Proof.
  intros H. unfold run. cbn [fold_left]. unfold step. rewrite H.
  destruct (predict_or_unknown (shared_recognizer c) roi) as [l q].
  cbn [camera shared_recognizer shared_label_map capture].
  exists l, q. reflexivity.
Qed.

Lemma run_capture_twice roi r lm r' lm' (cam : @Camera Image) :
  run roi [CaptureThread; CaptureThread] (mkConfig r lm cam (CapTrained r' lm'))
  = mkConfig r' lm' cam CapDone.
Proof. reflexivity. Qed.

(** However the two threads are scheduled, once the capture thread has
    made its two stores the new pair is in place. *)
Lemma run_installs roi (schedule : list Thread) : forall c r' lm',
  (capture c = CapTrained r' lm' ->
   (2 <= length (List.filter is_capture_step schedule))%nat ->
   shared (run roi schedule c) = (r', lm'))
  /\ (capture c = CapStoredRecognizer lm' -> shared_recognizer c = r' ->
      (1 <= length (List.filter is_capture_step schedule))%nat ->
      shared (run roi schedule c) = (r', lm'))
  /\ (capture c = CapDone -> shared (run roi schedule c) = shared c).
Proof.
  induction schedule as [|t schedule IH]; intros c r' lm'.
  - cbn [List.filter length]. repeat split; intros; try lia; reflexivity.
  - change (run roi (t :: schedule) c) with (run roi schedule (step roi t c)).
    destruct t.
    + (* a camera step changes neither the attributes nor the capture thread *)
      assert (Hs : shared (step roi CameraThread c) = shared c
                   /\ capture (step roi CameraThread c) = capture c).
      { unfold step. destruct (camera c);
          [destruct (predict_or_unknown _ _)| |]; split; reflexivity. }
      destruct Hs as [Hs Hc]. cbn [List.filter is_capture_step].
      destruct (IH (step roi CameraThread c) r' lm') as (I1 & I2 & I3).
      rewrite Hc in I1, I2, I3. repeat split.
      * exact I1.
      * intros H1 H2 H3. apply I2; [exact H1 | | exact H3].
        transitivity (shared_recognizer c); [exact (f_equal fst Hs) | exact H2].
      * intros H. now rewrite I3.
    + cbn [List.filter is_capture_step length]. repeat split.
      * intros H Hn. unfold step. rewrite H.
        apply (IH _ r' lm'); [reflexivity | reflexivity | lia].
      * intros H Hr Hn. unfold step. rewrite H.
        destruct (IH (mkConfig (shared_recognizer c) lm' (camera c) CapDone) r' lm')
          as (_ & _ & I3).
        rewrite I3 by reflexivity. unfold shared. cbn. now rewrite Hr.
      * intros H. unfold step. rewrite H.
        destruct (IH c r' lm') as (_ & _ & I3). now apply I3.
Qed.

(** C2, as the code has it. Training yields a self-consistent pair:
    every label the recogniser can answer is a key of the label map.
    The pair is installed by two stores, the recogniser first and the
    label map second, and the camera thread reads the two attributes
    one after the other. A face handled entirely before the two stores
    is handled with the old pair, and a face handled entirely after them
    with the new pair; after the first store alone the new recogniser
    stands next to the old label map; whatever the schedule, the new
    pair is in place once both stores are made; and a label that the map
    read does not hold is resolved to ("unknown", ""). *)
Theorem C2_pair_consistent_when_not_interleaved
  d d' roi (n m : nat) r lm r' lm' :
  lbph_answers_training_labels cv ->
  _train_recognizer d = (r, lm) ->
  _train_recognizer d' = (r', lm') ->
  self_consistent r lm
  /\ self_consistent r' lm'
  /\ camera_used
       (run roi (repeat CameraThread (2 + n)
                 ++ [CaptureThread; CaptureThread] ++ repeat CameraThread m)
            (retrain_config r lm r' lm'))
     = Some (r, lm)
  /\ camera_used
       (run roi ([CaptureThread; CaptureThread] ++ repeat CameraThread (2 + m))
            (retrain_config r lm r' lm'))
     = Some (r', lm')
  /\ shared (run roi [CaptureThread] (retrain_config r lm r' lm')) = (r', lm)
  /\ (forall schedule,
        (2 <= length (List.filter is_capture_step schedule))%nat ->
        shared (run roi schedule (retrain_config r lm r' lm')) = (r', lm'))
  /\ (forall (label : Z) (lm0 : LabelMap),
        ~ In label (dict_keys lm0) -> identity_of lm0 label = ("unknown", "")).
Proof.
  intros Hcv E E'.
  pose proof (train_self_consistent d Hcv) as C. rewrite E in C.
  pose proof (train_self_consistent d' Hcv) as C'. rewrite E' in C'.
  split; [exact C|]. split; [exact C'|].
  split.
  { change (repeat CameraThread (2 + n))
      with ([CameraThread; CameraThread] ++ repeat CameraThread n).
    rewrite !run_app.
    destruct (run_camera_twice roi (retrain_config r lm r' lm') eq_refl) as (l & q & ->).
    cbn [retrain_config shared_recognizer shared_label_map capture].
    rewrite (run_camera_done roi n) by (do 5 eexists; reflexivity).
    rewrite run_capture_twice.
    rewrite (run_camera_done roi m) by (do 5 eexists; reflexivity).
    reflexivity. }
  split.
  { rewrite run_app. unfold retrain_config. rewrite run_capture_twice.
    change (repeat CameraThread (2 + m))
      with ([CameraThread; CameraThread] ++ repeat CameraThread m).
    rewrite run_app.
    destruct (run_camera_twice roi (mkConfig r' lm' CamStart CapDone) eq_refl)
      as (l & q & ->).
    cbn [shared_recognizer shared_label_map capture].
    rewrite run_camera_done by (do 5 eexists; reflexivity).
    reflexivity. }
  split; [reflexivity|].
  split.
  { intros schedule Hn.
    destruct (run_installs roi schedule (retrain_config r lm r' lm') r' lm')
      as (I1 & _ & _).
    now apply I1. }
  intros label lm0. apply identity_of_absent.
Qed.

End SharedModelFacts.

(* ===================================================================== *)
(** * Sample file names and the glob pattern *)
(* ===================================================================== *)


Module GlobFacts.
Import Glob PyStrFacts NameFacts.

Lemma translate_plain (c : ascii) (f : nat) (rest : string) :
  magic_char c = false ->
  translate (S f) (String c rest) = TChar c :: translate f rest.
Proof.
  destruct c as [[] [] [] [] [] [] [] []]; intros H; try discriminate H; reflexivity.
Qed.

Lemma translate_literal (p rest : string) (k : nat) :
  has_magic p = false ->
  translate (String.length p + k) (p +:+ rest) = literal p ++ translate k rest.
Proof.
  induction p as [|c p IH]; intros H; [reflexivity|].
  cbn [has_magic] in H. apply orb_false_iff in H. destruct H as [Hc Hp].
  rewrite append_cons. cbn [String.length Nat.add].
  rewrite translate_plain by exact Hc.
  unfold literal. cbn [list_ascii_of_string map List.app]. f_equal. now apply IH.
Qed.


Lemma match_star_unfold (ts : list tok) (u : string) :
  match_toks (TStar :: ts) u
  = match_toks ts u
    || match u with
       | EmptyString => false
       | String _ u' => match_toks (TStar :: ts) u'
       end.
Proof. destruct u; reflexivity. Qed.




Lemma glob1_filter (names : list string) (pattern : string) :
  glob1 names pattern = List.filter (kept pattern) names.
Proof.
  unfold glob1, kept. destruct (ishidden pattern); cbn [orb].
  - reflexivity.
  - induction names as [|f names IH]; [reflexivity|].
    cbn [List.filter]. destruct (ishidden f); cbn [negb andb].
    + exact IH.
    + cbn [List.filter]. now rewrite IH.
Qed.


Lemma filter_length_Permutation {A : Type} (p : A -> bool) (l l' : list A) :
  Permutation l l' -> length (List.filter p l) = length (List.filter p l').
Proof.
  induction 1 as [|x l l' _ IH|x y l|l l' l'' _ IH1 _ IH2].
  - reflexivity.
  - cbn [List.filter]. destruct (p x); cbn [length]; now rewrite IH.
  - cbn [List.filter]. destruct (p x), (p y); reflexivity.
  - now rewrite IH1.
Qed.

End GlobFacts.

(* ===================================================================== *)
(** * Capture sessions and sequence numbers *)
(* ===================================================================== *)

Section CaptureFacts.

Context {Image : Type} {cv : OpenCV Image} {fs : @FileSystem Image}.

Import GlobFacts NameFacts.

Implicit Types (d : gmap string (@FileContent Image)) (name emp_id : string).




Lemma listdir_insert_fresh d (f : string) (v : FileContent) :
  d !! f = None -> Permutation (listdir (<[f := v]> d)) (f :: listdir d).
Proof.
  intros H. unfold listdir. rewrite dom_insert_L.
  apply elements_union_singleton. now apply not_elem_of_dom.
Qed.

Lemma listdir_insert_old d (f : string) (v : FileContent) :
  is_Some (d !! f) -> listdir (<[f := v]> d) = listdir d.
Proof.
  intros H. unfold listdir. rewrite dom_insert_L.
  f_equal. apply elem_of_dom in H. apply subseteq_union_1_L.
  now apply singleton_subseteq_l.
Qed.

Lemma start_index_filter d name emp_id :
  start_index_of d name emp_id
  = length (List.filter (Glob.kept (sample_pattern name emp_id)) (listdir d)).
Proof. unfold start_index_of. now rewrite glob1_filter. Qed.

Lemma start_index_insert_fresh d name emp_id (f : string) (v : FileContent) :
  d !! f = None ->
  start_index_of (<[f := v]> d) name emp_id
  = ((if Glob.kept (sample_pattern name emp_id) f then 1 else 0)
     + start_index_of d name emp_id)%nat.
Proof.
  intros H. rewrite !start_index_filter.
  rewrite (filter_length_Permutation _ _ _ (listdir_insert_fresh d f v H)).
  cbn [List.filter]. now destruct (Glob.kept _ f).
Qed.

Lemma start_index_insert_mono d name emp_id (f : string) (v : FileContent) :
  (start_index_of d name emp_id <= start_index_of (<[f := v]> d) name emp_id)%nat.
Proof.
  destruct (d !! f) as [old|] eqn:E.
  - rewrite !start_index_filter, listdir_insert_old by (rewrite E; eauto). lia.
  - rewrite start_index_insert_fresh by exact E. lia.
Qed.


Lemma written_files_app (a b : list Effect) :
  written_files (a ++ b) = written_files a ++ written_files b.
Proof. unfold written_files. apply omap_app. Qed.

Lemma capture_loop_no_retrain name emp_id (start_index : nat) (count_target : Z)
  (ticks : list Tick) : forall (collected : nat) d,
  ~ In Retrain (snd (capture_loop name emp_id start_index count_target ticks collected d)).
Proof.
  induction ticks as [|tick ticks IH]; intros collected d; [intros []|].
  cbn [capture_loop]. destruct (Z.of_nat collected <? count_target)%Z; [|intros []].
  destruct tick as [|[|face_img faces]| |].
  - apply IH.
  - specialize (IH collected d).
    destruct (capture_loop _ _ _ _ ticks collected d) as [[n d'] es].
    cbn [snd] in *. intros [F|F]; [discriminate F | exact (IH F)].
  - specialize (IH (S collected)
                   (imwrite d (sample_filename name emp_id (start_index + collected))
                            (resize200 face_img))).
    destruct (capture_loop _ _ _ _ ticks (S collected) _) as [[n d'] es].
    cbn [snd] in *. intros [F|[F|[F|F]]]; try discriminate F. exact (IH F).
  - intros [F|[]]. discriminate F.
  - intros [F|[]]. discriminate F.
Qed.

Lemma written_files_countdown (es : list Effect) :
  written_files (countdown ++ es) = written_files es.
Proof. reflexivity. Qed.

Lemma died_app (a b : list Effect) : died (a ++ b) = died a || died b.
Proof. unfold died. apply existsb_app. Qed.

(** What a capture session that has a name to run under leaves: the
    directory of its loop; the files its loop wrote; and the model
    trained on that directory, unless the thread ended in the loop, when
    the model is the one that was there. *)
Lemma _capture_samples_named (app : @FaceApp Image) (name0 : option string)
  name emp_id (updating : bool) (sample_count : option Z) (ticks : list Tick) :
  resolve_name app name0 emp_id = Some name ->
  exists (n : nat) d' (es : list Effect),
    capture_loop name emp_id (session_start_index (known_faces app) name emp_id)
                 (count_target_of sample_count) ticks 0 (known_faces app)
    = (n, d', es)
    /\ known_faces (fst (_capture_samples app name0 emp_id updating
                                          sample_count ticks)) = d'
    /\ written_files (snd (_capture_samples app name0 emp_id updating
                                            sample_count ticks))
       = written_files es
    /\ died (snd (_capture_samples app name0 emp_id updating sample_count ticks))
       = died es
    /\ (In Retrain (snd (_capture_samples app name0 emp_id updating sample_count ticks))
        <-> died es = false)
    /\ (recognizer (fst (_capture_samples app name0 emp_id updating
                                          sample_count ticks)),
        label_map (fst (_capture_samples app name0 emp_id updating
                                         sample_count ticks)))
       = if died es then (recognizer app, label_map app) else _train_recognizer d'.
Proof.
  intros Hr. unfold _capture_samples. rewrite Hr.
  pose proof (capture_loop_no_retrain name emp_id
                (session_start_index (known_faces app) name emp_id)
                (count_target_of sample_count) ticks 0 (known_faces app)) as Hnr.
  destruct (capture_loop _ _ _ _ _ _ _) as [[n d'] es]. cbn [snd] in Hnr.
  exists n, d', es. split; [reflexivity|].
  assert (Hno : forall l : list Effect, In Retrain (countdown ++ l) -> In Retrain l).
  { intros l H. apply in_app_or in H. destruct H as [H|H]; [|exact H].
    exfalso. repeat (destruct H as [H|H]; [discriminate H|]). destruct H. }
  destruct (died es) eqn:Ed.
  - cbn [fst snd set_known_faces known_faces recognizer label_map].
    split; [reflexivity|]. split; [apply written_files_countdown|].
    split; [rewrite died_app; exact Ed|].
    split; [|reflexivity].
    split; [|discriminate]. intros H. apply Hno in H. contradiction.
  - destruct (_train_recognizer d') as [r lm].
    cbn [fst snd set_model set_known_faces known_faces recognizer label_map].
    split; [reflexivity|]. split.
    { rewrite written_files_countdown, written_files_app.
      cbn [written_files omap list_omap]. now rewrite app_nil_r. }
    split.
    { rewrite !died_app, Ed. reflexivity. }
    split; [|reflexivity].
    split; [reflexivity|]. intros _. apply in_or_app. right.
    apply in_or_app. right. right. left. reflexivity.
Qed.



Lemma numbered_insert_foreign d name emp_id (f : string) (v : FileContent) :
  (forall i, f <> sample_filename name emp_id i) ->
  numbered_below_count d name emp_id ->
  numbered_below_count (<[f := v]> d) name emp_id.
Proof.
  intros Hf H i Hi. rewrite lookup_insert_ne in Hi by apply Hf.
  apply H in Hi. pose proof (start_index_insert_mono d name emp_id f v). lia.
Qed.









End CaptureFacts.

(* ===================================================================== *)
(** * The model at concrete inputs *)
(* ===================================================================== *)

Lemma exact_match_In (images labels : list Z) (roi l : Z) :
  exact_match images labels roi = Some l -> In l labels.
Proof.
  revert labels. induction images as [|img images IH]; intros [|x labels] H;
    try discriminate H.
  cbn [exact_match] in H. destruct (img =? roi)%Z.
  - injection H as ->. now left.
  - right. now apply IH.
Qed.

Lemma ExactCV_answers_training_labels : lbph_answers_training_labels ExactCV.
Proof.
  intros images labels roi l c H. cbn [lbph_predict ExactCV] in H.
  destruct (exact_match images labels roi) as [l'|] eqn:E.
  - injection H as <- _. exact (exact_match_In _ _ _ _ E).
  - destruct labels as [|x labels]; [discriminate H|].
    injection H as <- _. now left.
Qed.

Example str_123456 : PyStr.str 123456 = "123456".
Proof. reflexivity. Qed.

Example fmt03d_examples :
  PyStr.fmt03d 0 = "000" /\ PyStr.fmt03d 14 = "014" /\ PyStr.fmt03d 1234 = "1234".
Proof. repeat split. Qed.

Example strip_example : PyStr.strip "  12 34 	" = "12 34".
Proof. reflexivity. Qed.

Example title_example : PyStr.title "john_doe smith" = "John_Doe Smith".
Proof. reflexivity. Qed.

Example endswith_example :
  PyStr.endswith ".jpg" "a_b_000.jpg" = true /\ PyStr.endswith ".jpg" "jpg" = false.
Proof. split; reflexivity. Qed.

Example fnmatch_examples :
  Glob.fnmatch "alice_E1_003.jpg" "alice_E1_*.jpg" = true
  /\ Glob.fnmatch "alice_E1_003.png" "alice_E1_*.jpg" = false
  /\ Glob.fnmatch "ab_c.jpg" "a[a-c]_*.jpg" = true
  /\ Glob.fnmatch "[x]_E1_000.jpg" "[x]_E1_*.jpg" = false.
Proof. repeat split. Qed.

(** A display name with spaces is stored with underscores, and its
    files are then read back under the first word only. *)
Example parse_underscored_name :
  parse_sample_name "john_doe_E1_000.jpg" = Some ("john", "DOE").
Proof. reflexivity. Qed.

(** Existing samples 000-009, an update session of five captures:
    010-014. *)
Example update_session_010_014 :
  written_files
    (snd (_capture_samples alice_registered None "E1" true (Some 5%Z)
            (QueueEmpty :: FrameFaces [] :: repeat (FrameFaces [8%Z; 9%Z]) 12)))
  = ["alice_E1_010.jpg"; "alice_E1_011.jpg"; "alice_E1_012.jpg";
     "alice_E1_013.jpg"; "alice_E1_014.jpg"].
Proof. vm_compute. reflexivity. Qed.

(* --------------------------------------------------------------------- *)
(** ** C1 *)
(* --------------------------------------------------------------------- *)

Lemma C1_witness :
  (predict_or_unknown (recognizer alice_app) (face_roi (alice_face 1700000000))
   = (0%Z, 0%Q)
   /\ (0 < 60)%Q
   /\ identity_of (label_map alice_app) 0 = ("alice", "E1")
   /\ face_now (alice_face 1700000000) = 1700000000%Q
   /\ (300 < 1700000000)%Q)
  /\ dispatches "E1" (snd (recognise_face alice_app vga (alice_face 1700000000)))
     = 1%nat.
Proof.
  split; [repeat split|].
  destruct (C1_dispatch_iff_interval_elapsed alice_app vga (alice_face 1700000000)
              0%Z 0%Q "alice" "E1" 1700000000%Q)
    as [H _]; [reflexivity | reflexivity | reflexivity | reflexivity |].
  apply H; [reflexivity|]. left. reflexivity.
Defined.

(** The value 0 that stands for "no dispatch recorded" is a clock
    reading of its own: in the first 300 seconds of 1970 a recognition
    without recorded dispatch would start no worker. *)
Example no_entry_reads_as_time_0 :
  dispatches "E1" (snd (recognise_face alice_app vga (alice_face 100))) = 0%nat.
Proof. vm_compute. reflexivity. Qed.

(* --------------------------------------------------------------------- *)
(** ** C2 *)
(* --------------------------------------------------------------------- *)

Lemma C2_witness :
  (lbph_answers_training_labels ExactCV
   /\ _train_recognizer alice_dir = (Trained [7%Z] [0%Z], [(0%Z, ("alice", "E1"))])
   /\ _train_recognizer alice_bob_dir
      = (Trained [7%Z; 8%Z] [0%Z; 1%Z],
         [(0%Z, ("alice", "E1")); (1%Z, ("bob", "E2"))]))
  /\ camera_used
       (run 8%Z ([CaptureThread; CaptureThread] ++ repeat CameraThread (2 + 0))
            (retrain_config (Trained [7%Z] [0%Z]) [(0%Z, ("alice", "E1"))]
                            (Trained [7%Z; 8%Z] [0%Z; 1%Z])
                            [(0%Z, ("alice", "E1")); (1%Z, ("bob", "E2"))]))
     = Some (Trained [7%Z; 8%Z] [0%Z; 1%Z],
             [(0%Z, ("alice", "E1")); (1%Z, ("bob", "E2"))]).
Proof.
  split.
  - split; [exact ExactCV_answers_training_labels|]. split; vm_compute; reflexivity.
  - destruct (C2_pair_consistent_when_not_interleaved
                alice_dir alice_bob_dir 8%Z 0 0
                (Trained [7%Z] [0%Z]) [(0%Z, ("alice", "E1"))]
                (Trained [7%Z; 8%Z] [0%Z; 1%Z])
                [(0%Z, ("alice", "E1")); (1%Z, ("bob", "E2"))])
      as (_ & _ & _ & E & _).
    + exact ExactCV_answers_training_labels.
    + vm_compute; reflexivity.
    + vm_compute; reflexivity.
    + exact E.
Defined.

(** C2 as stated fails: when the camera thread handles a face between
    the store of the new recogniser and the store of the new label map,
    the recogniser answers a label that the map read does not hold. *)
Lemma C2_counterexample :
  ~ (forall (d d' : gmap string (@FileContent Z)) (roi : Z)
            (schedule : list Thread) r (l : Z) (q : Q) lm ident,
        camera (run roi schedule
                    (retrain_config (fst (_train_recognizer d))
                                    (snd (_train_recognizer d))
                                    (fst (_train_recognizer d'))
                                    (snd (_train_recognizer d'))))
        = CamDone r l q lm ident ->
        predict r roi = Some (l, q) ->
        In l (dict_keys lm)).
Proof.
  intros H.
  specialize (H alice_dir alice_bob_dir 8%Z
                [CaptureThread; CameraThread; CameraThread; CaptureThread]
                (Trained [7%Z; 8%Z] [0%Z; 1%Z]) 1%Z 0%Q
                [(0%Z, ("alice", "E1"))] ("unknown", "")).
  assert (Hin : In 1%Z (dict_keys [(0%Z, ("alice", "E1"))])).
  { apply H; vm_compute; reflexivity. }
  destruct Hin as [E|[]]. discriminate E.
Qed.

(* --------------------------------------------------------------------- *)
(** ** C3 *)
(* --------------------------------------------------------------------- *)



(** A display name with a bracket: the glob pattern does not match the
    pair's own files, and a second session writes over the first. *)
Example bracket_name_session_overwrites :
  written_files
    (snd (_capture_samples
            (fst (_capture_samples empty_app (Some "[x]") "E1" false (Some 2%Z)
                                   (repeat (FrameFaces [7%Z]) 2)))
            (Some "[x]") "E1" true (Some 2%Z) (repeat (FrameFaces [8%Z]) 2)))
  = ["[x]_E1_000.jpg"; "[x]_E1_001.jpg"].
Proof. vm_compute. reflexivity. Qed.

(* --------------------------------------------------------------------- *)
(** ** C4 *)
(* --------------------------------------------------------------------- *)

Lemma C4_witness :
  Forall (fun file => sample_of (∅ : gmap string (@FileContent Z)) file = None)
         (listdir (∅ : gmap string (@FileContent Z)))
  /\ recognise_face
       (set_model empty_app (fst (_train_recognizer ∅)) (snd (_train_recognizer ∅)))
       vga (alice_face 1000)
     = (set_model empty_app (fst (_train_recognizer ∅)) (snd (_train_recognizer ∅)),
        [Draw BoxUnknown]).
Proof.
  assert (H : Forall (fun file => sample_of (∅ : gmap string (@FileContent Z)) file = None)
                     (listdir (∅ : gmap string (@FileContent Z)))).
  { unfold listdir. rewrite dom_empty_L, elements_empty. constructor. }
  split; [exact H|].
  destruct (C4_empty_training_reports_unknown ∅ empty_app 7%Z vga (alice_face 1000) H)
    as (_ & _ & _ & _ & E).
  exact E.
Defined.

(* --------------------------------------------------------------------- *)
(** ** C5 *)
(* --------------------------------------------------------------------- *)

Lemma C5_witness :
  (300 < 1000 - default 0%Q (last_seen_time alice_app !! "E1"))%Q
  /\ last_seen_time
       (fst (fst (dispatch_worker (fst (on_recognised alice_app "alice" "E1" 1000%Q))
                                  true "alice" "E1" (Response 500 "")))) !! "E1"
     = Some 1000%Q.
Proof.
  assert (H : (300 < 1000 - default 0%Q (last_seen_time alice_app !! "E1"))%Q)
    by reflexivity.
  split; [exact H|].
  destruct (C5_outcome_not_written_back alice_app "alice" "E1" 1000%Q true
              (Response 500 "") H) as (_ & _ & E & _).
  exact E.
Defined.

(* --------------------------------------------------------------------- *)
(** ** C6 *)
(* --------------------------------------------------------------------- *)

Lemma C6_witness :
  reported_success (_submit_to_google_form empty_app "alice" "E1" (Response 302 ""))
  = true.
Proof.
  destruct (C6_success_iff_200_or_302 empty_app "alice" "E1" 302%Z "" ExcReadTimeout)
    as [[_ H] _].
  apply H. right. reflexivity.
Defined.

(** C6 as stated fails: 201 is a 2xx status and is reported with a
    warning, not as a success. *)
Lemma C6_counterexample :
  ~ (forall (status_code : Z) (text : string),
        reported_success
          (_submit_to_google_form empty_app "alice" "E1" (Response status_code text))
        = true
        <-> success_class_2xx_3xx status_code = true).
Proof.
  intros H. destruct (H 201%Z "") as [_ H2].
  specialize (H2 eq_refl). vm_compute in H2. discriminate H2.
Qed.

(* --------------------------------------------------------------------- *)
(** ** C7 *)
(* --------------------------------------------------------------------- *)

Lemma C7_witness :
  otp_accepted (fst (_send_otp_flow empty_app "E1" "a@b.c" (Some "alice") 23456))
               "E1" "123456" = true.
Proof.
  destruct (C7_otp_verify_stripped_match empty_app "E1" "a@b.c" (Some "alice")
              23456 554321 "123456") as [[_ H] _].
  apply H. reflexivity.
Defined.

(** C7 as stated fails: a text with a leading blank is not the issued
    code and is accepted all the same. *)
Lemma C7_counterexample :
  ~ (forall text : string,
        otp_accepted (fst (_send_otp_flow empty_app "E1" "a@b.c" (Some "alice") 23456))
                     "E1" text = true
        <-> text = _generate_otp 23456).
Proof.
  intros H. destruct (H " 123456") as [H1 _].
  specialize (H1 eq_refl). vm_compute in H1. discriminate H1.
Qed.

(** A no-break space in front of the code and a line feed after it are
    stripped like a blank. *)
Example no_break_space_is_stripped :
  PyStr.strip (nbsp +:+ "123456" +:+ String (ascii_of_nat 10) "") = "123456"
  /\ otp_accepted (fst (_send_otp_flow empty_app "E1" "a@b.c" (Some "alice") 23456))
                  "E1" (nbsp +:+ "123456") = true.
Proof. split; vm_compute; reflexivity. Qed.

(* --------------------------------------------------------------------- *)
(** ** C8 *)
(* --------------------------------------------------------------------- *)

Lemma C8_witness :
  (100000 <= 123456 <= 999999)%Z
  /\ exists draw0 : Z,
       (0 <= draw0 < 900000)%Z /\ _generate_otp draw0 = PyStr.str 123456.
Proof.
  split; [lia|].
  destruct (C8_otp_issue_six_digits empty_app "E1" "a@b.c" None 0)
    as (_ & _ & _ & H & _).
  destruct (H 123456%Z ltac:(lia)) as (draw0 & Hd & E & _).
  exists draw0. split; [exact Hd | exact E].
Defined.

(** Outside the range of the codes the generator's draw is reduced to
    it. *)
Example generate_otp_examples :
  _generate_otp 0 = "100000" /\ _generate_otp 899999 = "999999"
  /\ _generate_otp 900000 = "100000" /\ _generate_otp (-1) = "999999".
Proof. repeat split. Qed.

(* --------------------------------------------------------------------- *)
(** ** C9 *)
(* --------------------------------------------------------------------- *)


(** Ten samples of one identity: ten labels. *)
Example ten_samples_ten_labels :
  labels_of (label_map alice_registered) ("alice", "E1")
  = [0; 1; 2; 3; 4; 5; 6; 7; 8; 9]%Z.
Proof. vm_compute. reflexivity. Qed.

(* --------------------------------------------------------------------- *)
(** ** C10 *)
(* --------------------------------------------------------------------- *)

Lemma C10_witness :
  (forall l nm eid, In (l, (nm, eid)) (label_map alice_app) -> eid <> "E9")
  /\ fst (_capture_samples alice_app None "E9" true (Some 5%Z)
            (repeat (FrameFaces [7%Z]) 5)) = alice_app.
Proof.
  assert (H : forall l nm eid, In (l, (nm, eid)) (label_map alice_app) -> eid <> "E9").
  { assert (L : label_map alice_app = [(0%Z, ("alice", "E1"))])
      by (vm_compute; reflexivity).
    rewrite L. intros l nm eid [E|[]]. injection E as _ _ <-. discriminate. }
  split; [exact H|].
  destruct (C10_capture_without_name_aborts alice_app "E9" true (Some 5%Z)
              (repeat (FrameFaces [7%Z]) 5) H) as (_ & E & _).
  exact E.
Defined.

(* ===================================================================== *)
(** * The frame queue under interleaving *)
(* ===================================================================== *)

Section FrameQueueFacts.

Context {Frame : Type}.

Implicit Types (s : @QueueState Frame) (frames : list Frame)
  (schedule : list QueueUser).

Lemma queue_inv_start frames : queue_inv frames (queue_start frames).
Proof.
  split; [cbn; lia|]. split; [discriminate|].
  exists []. split; reflexivity.
Qed.

Lemma camera_step_inv frames s : queue_inv frames s -> queue_inv frames (camera_step s).
Proof.
  destruct s as [q ca cf cd ka ks da dt]. unfold queue_inv, camera_step, whereabouts.
  cbn [queue_items camera_at camera_frames camera_dropped clock_at clock_shown
       drain_at drain_taken].
  intros (Hlen & Hput & pub & Hf & Hp).
  destruct cf as [|frame rest]; [eauto 6|].
  destruct ca.
  - (* empty() *)
    destruct q as [|x q]; cbn [PyQueue.empty with_camera queue_items camera_at
                                camera_frames camera_dropped clock_shown drain_taken].
    + split; [cbn; lia|]. split; [reflexivity|]. eauto.
    + split; [exact Hlen|]. split; [discriminate|]. eauto.
  - (* get_nowait() *)
    destruct q as [|x q]; cbn [PyQueue.get_nowait with_camera queue_items camera_at
                                camera_frames camera_dropped clock_shown drain_taken].
    + split; [cbn; lia|]. split; [reflexivity|]. eauto.
    + assert (q = []) as -> by (destruct q; [reflexivity | cbn in Hlen; lia]).
      split; [cbn; lia|]. split; [reflexivity|].
      exists pub. split; [exact Hf|]. cbn [List.app] in *.
      now rewrite Hp.
  - (* put(frame) *)
    rewrite (Hput eq_refl) in *. cbn [PyQueue.put length Nat.ltb Nat.leb List.app
      with_camera queue_items camera_at camera_frames camera_dropped clock_shown
      drain_taken].
    split; [cbn; lia|]. split; [discriminate|].
    exists (pub ++ [frame]). split; [now rewrite <- app_assoc|].
    cbn [List.app] in *. symmetry. apply Permutation_cons_app.
    rewrite app_nil_r. symmetry. exact Hp.
Qed.

Lemma clock_step_inv frames s : queue_inv frames s -> queue_inv frames (clock_step s).
Proof.
  destruct s as [q ca cf cd ka ks da dt]. unfold queue_inv, clock_step, whereabouts.
  cbn [queue_items camera_at camera_frames camera_dropped clock_at clock_shown
       drain_at drain_taken].
  intros (Hlen & Hput & pub & Hf & Hp).
  destruct ka.
  - destruct q as [|x q]; cbn [PyQueue.empty with_clock queue_items camera_at
                                camera_frames camera_dropped clock_shown drain_taken];
      eauto 6.
  - destruct q as [|x q]; cbn [PyQueue.get PyQueue.get_nowait with_clock queue_items
                                camera_at camera_frames camera_dropped clock_shown
                                drain_taken]; [eauto 6|].
    assert (q = []) as -> by (destruct q; [reflexivity | cbn in Hlen; lia]).
    split; [cbn; lia|]. split; [reflexivity|].
    exists pub. split; [exact Hf|]. cbn [List.app] in *.
    rewrite Hp. apply Permutation_middle.
Qed.

Lemma drain_step_inv frames s : queue_inv frames s -> queue_inv frames (drain_step s).
Proof.
  destruct s as [q ca cf cd ka ks da dt]. unfold queue_inv, drain_step, whereabouts.
  cbn [queue_items camera_at camera_frames camera_dropped clock_at clock_shown
       drain_at drain_taken].
  intros (Hlen & Hput & pub & Hf & Hp).
  destruct da; [| |eauto 6].
  - destruct q as [|x q]; cbn [PyQueue.empty with_drain queue_items camera_at
                                camera_frames camera_dropped clock_shown drain_taken];
      eauto 6.
  - destruct q as [|x q]; cbn [PyQueue.get_nowait with_drain queue_items
                                camera_at camera_frames camera_dropped clock_shown
                                drain_taken]; [eauto 6|].
    assert (q = []) as -> by (destruct q; [reflexivity | cbn in Hlen; lia]).
    split; [cbn; lia|]. split; [reflexivity|].
    exists pub. split; [exact Hf|]. cbn [List.app] in *.
    rewrite Hp. rewrite !app_assoc. apply Permutation_middle.
Qed.

Lemma queue_run_inv frames schedule : forall s,
  queue_inv frames s -> queue_inv frames (queue_run schedule s).
Proof.
  induction schedule as [|user schedule IH]; intros s H; [exact H|].
  cbn [queue_run fold_left]. apply IH.
  destruct user; [apply camera_step_inv | apply clock_step_inv | apply drain_step_inv];
    exact H.
Qed.

Lemma published_prefix frames s (pub : list Frame) :
  frames = pub ++ camera_frames s -> published frames s = pub.
Proof.
  intros E. unfold published. rewrite E at 2. rewrite E, length_app.
  replace (length pub + length (camera_frames s) - length (camera_frames s))%nat
    with (length pub + 0)%nat by lia.
  now rewrite firstn_app_2, firstn_O, app_nil_r.
Qed.

(** X1: the three threads call the frame queue without any lock around
    their calls. Whatever the order of their calls: the queue never
    holds more than one frame; the camera's [put] never finds the queue
    full, so the camera thread never blocks in it; and every frame
    published is in exactly one place, so no frame is shown or taken
    twice. But the two consumers and the camera can take the frame that
    another thread has just seen: then the drain of a capture session,
    whose [get_nowait] is not guarded, ends the capture thread with
    [queue.Empty], and the [get] of the UI clock blocks the main thread
    until the next frame is published. *)
Theorem X1_frame_queue_under_interleaving frames schedule (frame : Frame) :
  (length (queue_items (queue_run schedule (queue_start frames))) <= 1)%nat
  /\ ~ put_blocks (queue_run schedule (queue_start frames))
  /\ Permutation (published frames (queue_run schedule (queue_start frames)))
                 (whereabouts (queue_run schedule (queue_start frames)))
  /\ drain_at (queue_run [UserCamera; UserCamera; UserCapture;
                          UserClock; UserClock; UserCapture]
                         (queue_start (frame :: frames)))
     = DrainDied
  /\ drain_at (queue_run [UserCamera; UserCamera; UserCapture;
                          UserCamera; UserCamera; UserCapture]
                         (queue_start (frame :: frame :: frames)))
     = DrainDied
  /\ get_blocks (queue_run [UserCamera; UserCamera; UserClock;
                            UserCapture; UserCapture; UserClock]
                           (queue_start (frame :: frames))).
Proof.
  destruct (queue_run_inv frames schedule _ (queue_inv_start frames))
    as (Hlen & Hput & pub & Hf & Hp).
  split; [exact Hlen|]. split.
  { intros (fr & rest & _ & Hat & Hb). rewrite (Hput Hat) in Hb. discriminate Hb. }
  split; [now rewrite (published_prefix _ _ _ Hf)|].
  split; [reflexivity|]. split; [reflexivity|]. split; reflexivity.
Qed.

End FrameQueueFacts.

(* ===================================================================== *)
(** * The camera loop: spacing of dispatches, annotations *)
(* ===================================================================== *)

Section CameraFacts.

Context {Image : Type} {cv : OpenCV Image}.

Implicit Types (face : @Face Image) (shape : Z * Z).

Implicit Types (app : @FaceApp Image) (emp_id name : string) (es : list Effect)
  (times : list Q).

Lemma cooldown_writes_app emp_id (a b : list Effect) :
  cooldown_writes emp_id (a ++ b) = cooldown_writes emp_id a ++ cooldown_writes emp_id b.
Proof. unfold cooldown_writes. apply omap_app. Qed.

Lemma last_cons {A : Type} (l : list A) : forall (x d : A),
  List.last (x :: l) d = List.last l x.
Proof.
  induction l as [|y l IH]; intros x d; [reflexivity|].
  change (List.last (x :: y :: l) d) with (List.last (y :: l) d).
  now rewrite !IH.
Qed.

Lemma spaced_app (prev : Q) (a b : list Q) :
  spaced prev a -> spaced (List.last a prev) b -> spaced prev (a ++ b).
Proof.
  revert prev. induction a as [|t a IH]; intros prev Ha Hb; [exact Hb|].
  cbn [List.app spaced] in *. destruct Ha as [Ht Ha]. split; [exact Ht|].
  apply IH; [exact Ha|]. now rewrite last_cons in Hb.
Qed.

Lemma last_app_default {A : Type} (a b : list A) (d : A) :
  List.last (a ++ b) d = List.last b (List.last a d).
Proof.
  revert d. induction a as [|x a IH]; intros d; [reflexivity|].
  cbn [List.app]. now rewrite !last_cons, IH.
Qed.

Lemma stretch_nil emp_id app : stretch emp_id app [] app.
Proof. repeat split. auto. Qed.

Lemma stretch_app emp_id app app1 app2 (e1 e2 : list Effect) :
  stretch emp_id app e1 app1 -> stretch emp_id app1 e2 app2 ->
  stretch emp_id app (e1 ++ e2) app2.
Proof.
  intros (S1 & L1 & D1 & M1) (S2 & L2 & D2 & M2). unfold stretch.
  rewrite cooldown_writes_app, dispatches_app, length_app, last_app_default.
  rewrite <- L1. split; [|split; [|split]].
  - apply spaced_app; [exact S1 | now rewrite <- L1].
  - exact L2.
  - now rewrite D1, D2.
  - auto.
Qed.

Lemma stretch_draw emp_id app (a : Annotation) : stretch emp_id app [Draw a] app.
Proof. repeat split. auto. Qed.

Lemma stretch_log emp_id app (line : string) : stretch emp_id app [Log line] app.
Proof. repeat split. auto. Qed.

Lemma stretch_on_recognised emp_id app name other now :
  stretch emp_id app (snd (on_recognised app name other now))
          (fst (on_recognised app name other now)).
Proof.
  unfold on_recognised.
  destruct (Qltb RECOGNITION_INTERVAL (now - default 0%Q (last_seen_time app !! other)))
    eqn:E; cbn [fst snd].
  - unfold stretch, cooldown_writes, dispatches, last_seen_or_0.
    cbn [omap list_omap List.filter is_dispatch set_last_seen_time last_seen_time].
    destruct (String.eqb_spec other emp_id) as [->|Hne].
    + cbn [List.last length spaced]. rewrite lookup_insert_eq.
      apply Qltb_true in E. repeat split; try exact E.
      intros o Ho. destruct (decide (emp_id = o)) as [->|Hn].
      * rewrite lookup_insert_eq. eauto.
      * now rewrite lookup_insert_ne.
    + cbn [List.last length spaced]. rewrite lookup_insert_ne by exact Hne.
      repeat split.
      intros o Ho. destruct (decide (other = o)) as [->|Hn].
      * rewrite lookup_insert_eq. eauto.
      * now rewrite lookup_insert_ne.
  - repeat split. auto.
Qed.

Lemma cooldown_writes_overlay emp_id (es : list Effect) :
  Forall overlay_only es -> cooldown_writes emp_id es = [].
Proof.
  intros H. induction H as [|e es He _ IH]; [reflexivity|].
  unfold cooldown_writes in *. cbn [omap list_omap].
  destruct e; try destruct He; exact IH.
Qed.

Lemma stretch_overlay emp_id app app1 shape face name other :
  stretch emp_id app1 (overlay_tick app shape face name other) app1.
Proof.
  unfold stretch, dispatches.
  rewrite (cooldown_writes_overlay _ _ (overlay_tick_only app shape face name other)).
  rewrite overlay_tick_no_dispatch. repeat split. auto.
Qed.

Lemma stretch_recognise_face emp_id app shape face :
  stretch emp_id app (snd (recognise_face app shape face))
          (fst (recognise_face app shape face)).
Proof.
  unfold recognise_face.
  destruct (predict_or_unknown _ _) as [label conf].
  destruct (identity_of _ _) as [name other].
  destruct (Qltb conf 60); [|apply stretch_draw].
  pose proof (stretch_on_recognised emp_id app name other (face_now face)) as H.
  destruct (on_recognised app name other (face_now face)) as [app1 es].
  cbn [fst snd] in *. apply (stretch_app _ _ app1); [exact H | apply stretch_overlay].
Qed.

Lemma stretch_recognise_faces emp_id shape (faces : list Face) : forall app,
  stretch emp_id app (snd (recognise_faces app shape faces))
          (fst (recognise_faces app shape faces)).
Proof.
  induction faces as [|face faces IH]; intros app; [apply stretch_nil|].
  cbn [recognise_faces].
  pose proof (stretch_recognise_face emp_id app shape face) as H1.
  destruct (recognise_face app shape face) as [app1 e1].
  destruct (died e1); [exact H1|].
  pose proof (IH app1) as H2.
  destruct (recognise_faces app1 shape faces) as [app2 e2].
  exact (stretch_app _ _ _ _ _ _ H1 H2).
Qed.

Lemma stretch_camera_frame emp_id app (frame : option CamFrame) :
  stretch emp_id app (snd (camera_frame app frame)) (fst (camera_frame app frame)).
Proof.
  unfold camera_frame. destruct frame as [fr|]; [|apply stretch_nil].
  destruct (frame_detection fr) as [faces|];
    [apply stretch_recognise_faces | apply stretch_log].
Qed.

(** X2: whatever the frames and the clock readings, the times at which
    the camera loop writes the cooldown entry of an employee and starts
    the attendance worker are each more than 300 seconds after the one
    before, the first one more than 300 seconds after the time recorded
    at the start (0 if none); there is one worker per write; the entry
    ends at the last of these times; and no entry of the table is ever
    removed. *)
Theorem X2_camera_loop_dispatches_are_spaced
  app (frames : list (option CamFrame)) emp_id :
  spaced (last_seen_or_0 app emp_id)
         (cooldown_writes emp_id (snd (_camera_loop app frames)))
  /\ last_seen_or_0 (fst (_camera_loop app frames)) emp_id
     = List.last (cooldown_writes emp_id (snd (_camera_loop app frames)))
                 (last_seen_or_0 app emp_id)
  /\ dispatches emp_id (snd (_camera_loop app frames))
     = length (cooldown_writes emp_id (snd (_camera_loop app frames)))
  /\ (forall other, is_Some (last_seen_time app !! other) ->
        is_Some (last_seen_time (fst (_camera_loop app frames)) !! other)).
Proof.
  change (stretch emp_id app (snd (_camera_loop app frames))
                  (fst (_camera_loop app frames))).
  revert app. induction frames as [|frame frames IH]; intros app; [apply stretch_nil|].
  cbn [_camera_loop].
  pose proof (stretch_camera_frame emp_id app frame) as H1.
  destruct (camera_frame app frame) as [app1 e1].
  destruct (died e1); [exact H1|].
  pose proof (IH app1) as H2.
  destruct (_camera_loop app1 frames) as [app2 e2].
  exact (stretch_app _ _ _ _ _ _ H1 H2).
Qed.

(* --------------------------------------------------------------------- *)
(** ** One box per face, while the thread lives *)
(* --------------------------------------------------------------------- *)

Lemma died_on_recognised app name emp_id now :
  died (snd (on_recognised app name emp_id now)) = false.
Proof. unfold on_recognised. now destruct (Qltb _ _). Qed.

Lemma draws_on_recognised app name emp_id now :
  length (List.filter is_draw (snd (on_recognised app name emp_id now))) = 1%nat.
Proof. unfold on_recognised. now destruct (Qltb _ _). Qed.

Lemma tick_icon_on_recognised app name emp_id now :
  tick_icon (fst (on_recognised app name emp_id now)) = tick_icon app.
Proof. unfold on_recognised. now destruct (Qltb _ _). Qed.

Lemma overlay_tick_alive app shape face name emp_id :
  tick_icon app <> Some IconGray ->
  died (overlay_tick app shape face name emp_id) = false.
Proof.
  intros H. unfold overlay_tick. destruct shape as [h w].
  destruct (face_box face) as [[[x y] w_s] h_s].
  destruct (getTextSize _) as [tw th].
  destruct (_overlay_tick_next_to_name _ _ _ _ _ _ _) as [|ix iy|exc] eqn:Eo.
  - now destruct (tick_icon app) as [[| |]|].
  - now destruct (tick_icon app) as [[| |]|].
  - exfalso. unfold _overlay_tick_next_to_name in Eo.
    destruct (tick_icon app) as [[| |]|]; try congruence;
      destruct (tick_corner _ _ _ _ _ _) as [cx cy];
      destruct (_ && _); discriminate Eo.
Qed.

Lemma recognise_face_draws app shape face :
  length (List.filter is_draw (snd (recognise_face app shape face))) = 1%nat.
Proof.
  unfold recognise_face.
  destruct (predict_or_unknown _ _) as [label conf].
  destruct (identity_of _ _) as [name other].
  destruct (Qltb conf 60); [|reflexivity].
  pose proof (draws_on_recognised app name other (face_now face)) as H.
  destruct (on_recognised app name other (face_now face)) as [app1 es].
  cbn [snd] in *. rewrite List.filter_app, length_app, H.
  rewrite (overlay_only_filter is_draw _ ltac:(intros [] He; try destruct He; reflexivity)
             (overlay_tick_only app shape face name other)).
  reflexivity.
Qed.

Lemma recognise_face_alive app shape face :
  tick_icon app <> Some IconGray ->
  died (snd (recognise_face app shape face)) = false
  /\ tick_icon (fst (recognise_face app shape face)) = tick_icon app.
Proof.
  intros H. unfold recognise_face.
  destruct (predict_or_unknown _ _) as [label conf].
  destruct (identity_of _ _) as [name other].
  destruct (Qltb conf 60); [|split; reflexivity].
  pose proof (died_on_recognised app name other (face_now face)) as D.
  pose proof (tick_icon_on_recognised app name other (face_now face)) as T.
  destruct (on_recognised app name other (face_now face)) as [app1 es].
  cbn [fst snd] in *. split; [|exact T].
  unfold died in *. rewrite existsb_app, D. now apply overlay_tick_alive.
Qed.

Lemma recognise_faces_draws shape (faces : list Face) : forall app,
  (length (List.filter is_draw (snd (recognise_faces app shape faces))) <= length faces)%nat
  /\ (died (snd (recognise_faces app shape faces)) = false ->
      length (List.filter is_draw (snd (recognise_faces app shape faces)))
      = length faces).
Proof.
  induction faces as [|face faces IH]; intros app; [split; reflexivity|].
  cbn [recognise_faces].
  pose proof (recognise_face_draws app shape face) as H1.
  destruct (recognise_face app shape face) as [app1 e1].
  destruct (died e1) eqn:D1; cbn [snd length] in *.
  - split; [lia|]. congruence.
  - destruct (IH app1) as [H2 H3].
    destruct (recognise_faces app1 shape faces) as [app2 e2].
    cbn [snd] in *. rewrite List.filter_app, length_app, H1.
    split; [lia|]. intros D. unfold died in D, D1, H3.
    rewrite existsb_app, D1 in D. rewrite (H3 D). reflexivity.
Qed.

Lemma recognise_faces_alive shape (faces : list Face) : forall app,
  tick_icon app <> Some IconGray ->
  died (snd (recognise_faces app shape faces)) = false
  /\ tick_icon (fst (recognise_faces app shape faces)) = tick_icon app.
Proof.
  induction faces as [|face faces IH]; intros app H; [split; reflexivity|].
  cbn [recognise_faces].
  destruct (recognise_face_alive app shape face H) as [D1 T1].
  destruct (recognise_face app shape face) as [app1 e1]. cbn [fst snd] in *.
  rewrite D1. rewrite <- T1 in H.
  destruct (IH app1 H) as [D2 T2].
  destruct (recognise_faces app1 shape faces) as [app2 e2]. cbn [fst snd] in *.
  split; [|congruence]. unfold died in *. now rewrite existsb_app, D1, D2.
Qed.

Lemma camera_frame_draws app (frame : option CamFrame) :
  (length (List.filter is_draw (snd (camera_frame app frame)))
   <= length (faces_of_frame frame))%nat
  /\ (died (snd (camera_frame app frame)) = false ->
      length (List.filter is_draw (snd (camera_frame app frame)))
      = length (faces_of_frame frame)).
Proof.
  unfold camera_frame, faces_of_frame. destruct frame as [fr|]; [|split; reflexivity].
  destruct (frame_detection fr) as [faces|]; [|split; reflexivity].
  apply recognise_faces_draws.
Qed.

Lemma camera_frame_alive app (frame : option CamFrame) :
  tick_icon app <> Some IconGray ->
  died (snd (camera_frame app frame)) = false
  /\ tick_icon (fst (camera_frame app frame)) = tick_icon app.
Proof.
  intros H. unfold camera_frame. destruct frame as [fr|]; [|split; reflexivity].
  destruct (frame_detection fr) as [faces|]; [|split; reflexivity].
  now apply recognise_faces_alive.
Qed.

Lemma faces_seen_cons (frame : option (@CamFrame Image)) frames :
  faces_seen (frame :: frames) = (length (faces_of_frame frame) + faces_seen frames)%nat.
Proof. unfold faces_seen. cbn [map concat]. now rewrite length_app. Qed.

Lemma camera_loop_draws (frames : list (option CamFrame)) : forall app,
  (length (List.filter is_draw (snd (_camera_loop app frames))) <= faces_seen frames)%nat
  /\ (died (snd (_camera_loop app frames)) = false ->
      length (List.filter is_draw (snd (_camera_loop app frames))) = faces_seen frames).
Proof.
  induction frames as [|frame frames IH]; intros app; [split; reflexivity|].
  cbn [_camera_loop]. rewrite faces_seen_cons.
  destruct (camera_frame_draws app frame) as [H1 H1'].
  destruct (camera_frame app frame) as [app1 e1].
  destruct (died e1) eqn:D1; cbn [snd] in *.
  - split; [lia|]. congruence.
  - destruct (IH app1) as [H2 H3].
    destruct (_camera_loop app1 frames) as [app2 e2].
    cbn [snd] in *. rewrite List.filter_app, length_app, (H1' D1).
    split; [lia|]. intros D. unfold died in D, D1, H3.
    rewrite existsb_app, D1 in D. rewrite (H3 D). reflexivity.
Qed.

Lemma camera_loop_alive (frames : list (option CamFrame)) : forall app,
  tick_icon app <> Some IconGray ->
  died (snd (_camera_loop app frames)) = false.
Proof.
  induction frames as [|frame frames IH]; intros app H; [reflexivity|].
  cbn [_camera_loop].
  destruct (camera_frame_alive app frame H) as [D1 T1].
  destruct (camera_frame app frame) as [app1 e1]. cbn [fst snd] in *.
  rewrite D1. rewrite <- T1 in H. specialize (IH app1 H).
  destruct (_camera_loop app1 frames) as [app2 e2]. cbn [snd] in *.
  unfold died in *. now rewrite existsb_app, D1, IH.
Qed.

(** Once the thread has ended, the frames that follow are not handled. *)
Lemma camera_loop_ended (frames more : list (option CamFrame)) : forall app,
  died (snd (_camera_loop app frames)) = true ->
  _camera_loop app (frames ++ more) = _camera_loop app frames.
Proof.
  induction frames as [|frame frames IH]; intros app H; [discriminate H|].
  cbn [_camera_loop List.app] in *.
  destruct (camera_frame app frame) as [app1 e1].
  destruct (died e1) eqn:D1; [reflexivity|].
  specialize (IH app1).
  destruct (_camera_loop app1 frames) as [app2 e2]. cbn [snd] in *.
  unfold died in H, D1, IH. rewrite existsb_app, D1 in H. cbn [orb] in H.
  now rewrite (IH H).
Qed.

(** X3: as long as the camera thread lives it draws exactly one box for
    every face detected in every frame it read, recognised or not,
    dispatched or on cooldown; frames that could not be read, and frames
    on which the detector raised, add nothing. The thread lives on
    whenever the icon loaded is not a grey-scale one (or none was
    loaded). With a grey-scale icon the tick overlay, which no handler
    surrounds, raises [IndexError] at the first recognised face in a frame
    of at least 25 by 25: the thread ends there, the box of that face is
    the last one drawn, and no later face or frame is handled. *)
Theorem X3_camera_loop_annotates_every_face
  app (frames : list (option CamFrame)) :
  (length (List.filter is_draw (snd (_camera_loop app frames))) <= faces_seen frames)%nat
  /\ (died (snd (_camera_loop app frames)) = false ->
      length (List.filter is_draw (snd (_camera_loop app frames))) = faces_seen frames)
  /\ (tick_icon app <> Some IconGray -> died (snd (_camera_loop app frames)) = false)
  /\ (forall more : list (option CamFrame),
        died (snd (_camera_loop app frames)) = true ->
        _camera_loop app (frames ++ more) = _camera_loop app frames)
  /\ (forall shape face (label : Z) (conf : Q) (rest : list Face)
             (more : list (option CamFrame)),
        tick_icon app = Some IconGray ->
        (25 <= fst shape)%Z -> (25 <= snd shape)%Z ->
        predict_or_unknown (recognizer app) (face_roi face) = (label, conf) ->
        (conf < 60)%Q ->
        died (snd (recognise_face app shape face)) = true
        /\ length (List.filter is_draw (snd (recognise_face app shape face))) = 1%nat
        /\ _camera_loop app (Some (mkCamFrame shape (Faces (face :: rest))) :: more)
           = recognise_face app shape face).
Proof.
  split; [apply camera_loop_draws|].
  split; [apply camera_loop_draws|].
  split; [apply camera_loop_alive|].
  split; [intros more; apply camera_loop_ended|].
  intros shape face label conf rest more Hi Hh Hw Hp Hc.
  assert (D : died (snd (recognise_face app shape face)) = true).
  { destruct (identity_of (label_map app) label) as [name emp_id] eqn:Ei.
    rewrite (recognise_face_hit _ _ _ _ _ _ _ Hp Hc Ei). cbn [snd].
    unfold died. rewrite existsb_app. apply orb_true_iff. right.
    apply overlay_tick_died; [lia | lia | repeat split; assumption]. }
  split; [exact D|]. split; [apply recognise_face_draws|].
  cbn [_camera_loop camera_frame frame_detection frame_shape recognise_faces].
  destruct (recognise_face app shape face) as [app1 e1]. cbn [snd] in D.
  rewrite D. cbv iota beta. now rewrite D.
Qed.

End CameraFacts.

(* ===================================================================== *)
(** * Capture sessions: how many samples, under which identity *)
(* ===================================================================== *)


Section SessionFacts.

Context {Image : Type} {cv : OpenCV Image} {fs : @FileSystem Image}.

Import FileNameFacts.

Implicit Types (app : @FaceApp Image) (d : gmap string (@FileContent Image))
  (name emp_id : string) (ticks : list (@Tick Image)).

(** X5: the name under which a sample is stored is read back by
    training as the identity it was stored for exactly when neither the
    display name nor the employee id contains an underscore: then the
    file parses to the lower-case name and the upper-case id. A display
    name with an underscore in it (a name typed with a blank) is read
    back cut at its first underscore. In both cases the file has the
    suffix training looks for. *)
Theorem X5_sample_name_round_trip name emp_id (i : nat) :
  has_image_suffix (sample_filename name emp_id i) = true
  /\ (PyStr.contains "_" name = false -> PyStr.contains "_" emp_id = false ->
      parse_sample_name (sample_filename name emp_id i)
      = Some (PyStr.lower name, PyStr.upper emp_id))
  /\ (forall first rest,
        name = first +:+ String "_" rest -> PyStr.contains "_" first = false ->
        option_map fst (parse_sample_name (sample_filename name emp_id i))
        = Some (PyStr.lower first)).
Proof.
  split; [apply has_image_suffix_sample|]. split.
  - intros Hn He. unfold parse_sample_name. rewrite sample_filename_split.
    rewrite (cut_found _ _ _ Hn), (cut_found _ _ _ He). reflexivity.
  - intros first rest -> Hf. unfold parse_sample_name.
    rewrite sample_filename_split, PyStrFacts.append_assoc, PyStrFacts.append_cons.
    rewrite (cut_found _ _ _ Hf).
    destruct (cut_some "_" (rest +:+ String "_" (emp_id +:+ String "_"
                                                 (PyStr.fmt03d i +:+ ".jpg"))))
      as (a & b & ->); [|reflexivity].
    rewrite NameFacts.contains_append. cbn [PyStr.contains].
    rewrite Ascii.eqb_refl. apply orb_true_r.
Qed.

Lemma written_files_cons (e : Effect) (es : list Effect) :
  written_files (e :: es)
  = match e with
    | ImWrite f => f :: written_files es
    | _ => written_files es
    end.
Proof. now destruct e. Qed.

Lemma face_frames_cons (tick : @Tick Image) ticks :
  face_frames (tick :: ticks)
  = ((match tick with FrameFaces (_ :: _) => 1 | _ => 0 end) + face_frames ticks)%nat.
Proof. unfold face_frames. cbn [List.filter]. now destruct tick as [|[|? ?]| |]. Qed.

(** The loop stops at the target, at the stop signal or at an
    exception, and until then takes one sample from every turn that
    finds a face. *)
Lemma capture_loop_count name emp_id (start_index : nat) (count_target : Z) ticks :
  forall (collected : nat) d,
    fst (fst (capture_loop name emp_id start_index count_target ticks collected d))
    = (collected
       + length (written_files
                   (snd (capture_loop name emp_id start_index count_target ticks
                                      collected d))))%nat
    /\ (length (written_files
                  (snd (capture_loop name emp_id start_index count_target ticks
                                     collected d)))
        <= Nat.min (Z.to_nat count_target - collected) (face_frames ticks))%nat
    /\ (quiet ticks = true ->
        length (written_files
                  (snd (capture_loop name emp_id start_index count_target ticks
                                     collected d)))
        = Nat.min (Z.to_nat count_target - collected) (face_frames ticks)
        /\ died (snd (capture_loop name emp_id start_index count_target ticks
                                   collected d)) = false).
Proof.
  induction ticks as [|tick ticks IH]; intros collected d.
  - cbn [capture_loop fst snd written_files omap list_omap length].
    unfold face_frames. cbn [List.filter length].
    split; [lia|]. split; [lia|]. intros _. split; [lia | reflexivity].
  - cbn [capture_loop]. rewrite face_frames_cons.
    destruct (Z.ltb_spec (Z.of_nat collected) count_target) as [Hlt|Hge].
    2:{ cbn [fst snd written_files omap list_omap length].
        split; [lia|]. split; [lia|]. intros _. split; [lia | reflexivity]. }
    destruct tick as [|[|face_img faces]| |].
    + destruct (IH collected d) as (E1 & E2 & E3).
      split; [exact E1|]. split; [lia|]. intros Hq. destruct (E3 Hq) as [E4 E5].
      split; [lia | exact E5].
    + destruct (IH collected d) as (E1 & E2 & E3).
      destruct (capture_loop _ _ _ _ ticks collected d) as [[n d'] es].
      cbn [fst snd] in *. rewrite written_files_cons.
      split; [exact E1|]. split; [lia|]. intros Hq. destruct (E3 Hq) as [E4 E5].
      split; [lia | exact E5].
    + set (d1 := imwrite d _ _).
      destruct (IH (S collected) d1) as (E1 & E2 & E3).
      destruct (capture_loop _ _ _ _ ticks (S collected) d1) as [[n d'] es].
      cbn [fst snd] in *. rewrite !written_files_cons. cbn [length].
      split; [lia|]. split; [lia|]. intros Hq. destruct (E3 Hq) as [E4 E5].
      split; [lia | exact E5].
    + cbn [fst snd written_files omap list_omap length].
      split; [lia|]. split; [lia|]. discriminate.
    + cbn [fst snd written_files omap list_omap length].
      split; [lia|]. split; [lia|]. discriminate.
Qed.







End SessionFacts.

(* ===================================================================== *)
(** * Training depends on the sample files only *)
(* ===================================================================== *)

Lemma ascii_compare_unfold (a b : ascii) :
  Ascii.compare a b = (N_of_ascii a ?= N_of_ascii b)%N.
Proof. reflexivity. Qed.

Lemma string_leb_trans (a b c : string) :
  String.leb a b = true -> String.leb b c = true -> String.leb a c = true.
Proof.
  unfold String.leb. revert b c.
  induction a as [|x a IH]; intros [|y b] [|z c]; cbn [String.compare];
    try reflexivity; try discriminate.
  rewrite !ascii_compare_unfold.
  destruct (N.compare_spec (N_of_ascii x) (N_of_ascii y)) as [E1|L1|G1];
    destruct (N.compare_spec (N_of_ascii y) (N_of_ascii z)) as [E2|L2|G2];
    destruct (N.compare_spec (N_of_ascii x) (N_of_ascii z)) as [E3|L3|G3];
    try discriminate; try reflexivity; try lia.
  apply IH.
Qed.

#[local] Instance string_leb_Transitive :
  Transitive (fun a b : string => is_true (String.leb a b)).
Proof. intros a b c. apply string_leb_trans. Qed.

#[local] Instance string_leb_AntiSymm :
  AntiSymm eq (fun a b : string => is_true (String.leb a b)).
Proof. intros a b. apply String.leb_antisym. Qed.

Lemma StronglySorted_filter_dec {A : Type} (R : A -> A -> Prop) (P : A -> Prop)
  `{forall x, Decision (P x)} (l : list A) :
  StronglySorted R l -> StronglySorted R (filter P l).
Proof.
  induction 1 as [|x l Hl IH Hx]; [constructor|].
  rewrite filter_cons. destruct (decide (P x)); [|exact IH].
  constructor; [exact IH|].
  apply List.Forall_forall. intros y Hy. apply list_elem_of_In in Hy.
  apply list_elem_of_filter in Hy. destruct Hy as [_ Hy].
  apply list_elem_of_In in Hy. exact (proj1 (List.Forall_forall _ _) Hx y Hy).
Qed.

Lemma omap_filter_is_Some {A B : Type} (g : A -> option B) (l : list A) :
  omap g l = omap g (filter (fun x => is_Some (g x)) l).
Proof.
  induction l as [|x l IH]; [reflexivity|].
  rewrite filter_cons. cbn [omap list_omap]. destruct (g x) as [y|] eqn:E.
  - destruct (decide (is_Some (Some y))) as [_|n]; [|exfalso; apply n; eauto].
    cbn [omap list_omap]. rewrite E. now f_equal.
  - destruct (decide (is_Some (@None B))) as [[? Hn]|_]; [discriminate Hn|].
    exact IH.
Qed.

Section TrainingOnlySamples.

Context {Image : Type} {cv : OpenCV Image}.

Implicit Types (d : gmap string (@FileContent Image)).

Lemma sample_of_in_dir d (f : string) :
  is_Some (sample_of d f) -> f ∈ sorted (listdir d).
Proof.
  intros [s H].
  assert (Hd : is_Some (d !! f)).
  { unfold sample_of in H. destruct (negb (has_image_suffix f)); [discriminate|].
    destruct (parse_sample_name f); [|discriminate].
    destruct (d !! f) as [c|]; [eauto | discriminate]. }
  rewrite <- (sorted_Permutation (listdir d)).
  unfold listdir. apply elem_of_elements. now apply elem_of_dom.
Qed.

Lemma kept_files_unique d1 d2 :
  (forall f, sample_of d1 f = sample_of d2 f) ->
  filter (fun f => is_Some (sample_of d1 f)) (sorted (listdir d1))
  = filter (fun f => is_Some (sample_of d2 f)) (sorted (listdir d2)).
Proof.
  intros H.
  assert (Hss : forall d, StronglySorted (fun a b : string => is_true (String.leb a b))
                            (sorted (listdir d))).
  { intros d. apply StringSort.StronglySorted_sort. exact string_leb_Transitive. }
  assert (Hnd : forall d, NoDup (sorted (listdir d))).
  { intros d. rewrite <- (sorted_Permutation (listdir d)).
    unfold listdir. apply NoDup_elements. }
  apply (StronglySorted_unique (fun a b : string => is_true (String.leb a b))).
  - apply StronglySorted_filter_dec, Hss.
  - apply StronglySorted_filter_dec, Hss.
  - apply NoDup_Permutation.
    + apply NoDup_filter, Hnd.
    + apply NoDup_filter, Hnd.
    + intros f. rewrite !list_elem_of_filter. split.
      * intros [Hs _]. rewrite H in Hs. split; [exact Hs|].
        now apply sample_of_in_dir.
      * intros [Hs _]. rewrite <- H in Hs. split; [exact Hs|].
        now apply sample_of_in_dir.
Qed.

Lemma samples_extensional d1 d2 :
  (forall f, sample_of d1 f = sample_of d2 f) -> samples d1 = samples d2.
Proof.
  intros H. unfold samples, samples_in.
  rewrite (omap_filter_is_Some _ (sorted (listdir d1))).
  rewrite (omap_filter_is_Some _ (sorted (listdir d2))).
  assert (E : forall d (l : list string),
             filter (fun f => is_Some (option_map (pair f) (sample_of d f))) l
             = filter (fun f => is_Some (sample_of d f)) l).
  { intros d l. apply list_filter_iff. intros f.
    destruct (sample_of d f); cbn [option_map]; split; intros [? E]; eauto;
      discriminate E. }
  rewrite !E, (kept_files_unique d1 d2 H).
  apply list_omap_ext. apply Forall2_same_length_lookup. split; [reflexivity|].
  intros i f g Hf Hg. rewrite Hf in Hg. injection Hg as <-. now rewrite H.
Qed.

(** X7: training is determined by the files it keeps: two directories
    in which every file name yields the same sample (or none) give the
    same recogniser and the same label map, whatever else they hold. *)
Theorem X7_training_depends_on_samples_only d1 d2 :
  (forall f, sample_of d1 f = sample_of d2 f) ->
  _train_recognizer d1 = _train_recognizer d2.
Proof.
  intros H. unfold _train_recognizer, train_scan. rewrite !train_fold_closed.
  fold (samples d1). fold (samples d2). now rewrite (samples_extensional d1 d2 H).
Qed.

End TrainingOnlySamples.

(* ===================================================================== *)
(** * The dialogs: normal forms, e-mail addresses, the update flow *)
(* ===================================================================== *)

Module NormalFormFacts.
Import PyStr PyStrFacts.

Ltac each_char c := destruct c as [[] [] [] [] [] [] [] []]; reflexivity.

Lemma lower_char_idem (c : ascii) : lower_char (lower_char c) = lower_char c.
Proof. each_char c. Qed.

Lemma upper_char_idem (c : ascii) : upper_char (upper_char c) = upper_char c.
Proof. each_char c. Qed.

Lemma lower_char_blank (c : ascii) :
  lower_char (if Ascii.eqb (lower_char c) " " then "_"%char else lower_char c)
  = if Ascii.eqb (lower_char c) " " then "_"%char else lower_char c.
Proof. each_char c. Qed.

Lemma lower_char_is_blank (c : ascii) :
  Ascii.eqb (lower_char c) " " = Ascii.eqb c " ".
Proof. each_char c. Qed.

Lemma upper_idem (s : string) : upper (upper s) = upper s.
Proof.
  induction s as [|c s IH]; [reflexivity|].
  cbn [upper]. now rewrite upper_char_idem, IH.
Qed.

Lemma lower_replace_lower (s : string) :
  lower (replace_char " " "_" (lower s)) = replace_char " " "_" (lower s).
Proof.
  induction s as [|c s IH]; [reflexivity|].
  cbn [lower replace_char]. now rewrite lower_char_blank, IH.
Qed.

Lemma replace_char_removes (old new : ascii) (s : string) :
  old <> new -> contains old (replace_char old new s) = false.
Proof.
  intros Hne. induction s as [|c s IH]; [reflexivity|].
  cbn [replace_char contains]. rewrite IH, orb_false_r.
  destruct (Ascii.eqb_spec c old) as [->|Hc].
  - apply Ascii.eqb_neq. congruence.
  - now apply Ascii.eqb_neq.
Qed.

Lemma replace_char_puts (old new : ascii) (s : string) :
  contains old s = true -> contains new (replace_char old new s) = true.
Proof.
  induction s as [|c s IH]; intros H; [discriminate H|].
  cbn [replace_char contains] in *.
  destruct (Ascii.eqb c old).
  - now rewrite Ascii.eqb_refl.
  - cbn [orb] in H. rewrite (IH H). apply orb_true_r.
Qed.

Lemma contains_blank_lower (s : string) : contains " " (lower s) = contains " " s.
Proof.
  induction s as [|c s IH]; [reflexivity|].
  cbn [lower contains]. now rewrite lower_char_is_blank, IH.
Qed.

Lemma is_ascii_lower (s : string) : is_ascii s = true -> is_ascii (lower s) = true.
Proof.
  induction s as [|c s IH]; [reflexivity|]. cbn [is_ascii lower].
  intros H. apply andb_true_iff in H. destruct H as [Hc Hs].
  rewrite (IH Hs), andb_true_r. revert Hc.
  destruct c as [[] [] [] [] [] [] [] []]; intros Hc; try discriminate Hc; reflexivity.
Qed.

Lemma is_ascii_upper (s : string) : is_ascii s = true -> is_ascii (upper s) = true.
Proof.
  induction s as [|c s IH]; [reflexivity|]. cbn [is_ascii upper].
  intros H. apply andb_true_iff in H. destruct H as [Hc Hs].
  rewrite (IH Hs), andb_true_r. revert Hc.
  destruct c as [[] [] [] [] [] [] [] []]; intros Hc; try discriminate Hc; reflexivity.
Qed.

Lemma is_ascii_replace (old new : ascii) (s : string) :
  (nat_of_ascii new <? 128)%nat = true ->
  is_ascii s = true -> is_ascii (replace_char old new s) = true.
Proof.
  intros Hn. induction s as [|c s IH]; [reflexivity|]. cbn [is_ascii replace_char].
  intros H. apply andb_true_iff in H. destruct H as [Hc Hs].
  rewrite (IH Hs), andb_true_r. now destruct (Ascii.eqb c old).
Qed.

(** On ASCII text only the whitespace characters of one byte count. *)
Lemma lstrip_ascii (s : string) :
  is_ascii s = true ->
  lstrip s = match s with
             | EmptyString => EmptyString
             | String c s' => if is_space c then lstrip s' else s
             end.
Proof.
  destruct s as [|a s1]; [reflexivity|]. cbn [is_ascii lstrip].
  intros H. apply andb_true_iff in H. destruct H as [Ha _].
  destruct (is_space a); [reflexivity|].
  assert (E2 : forall b, is_space2 a b = false).
  { intros b. unfold is_space2. apply Nat.ltb_lt in Ha.
    destruct (Nat.eqb_spec (nat_of_ascii a) 194); [lia | reflexivity]. }
  assert (E3 : forall b c, is_space3 a b c = false).
  { intros b c. unfold is_space3. apply Nat.ltb_lt in Ha.
    destruct (Nat.eqb_spec (nat_of_ascii a) 225); [lia|].
    destruct (Nat.eqb_spec (nat_of_ascii a) 226); [lia|].
    destruct (Nat.eqb_spec (nat_of_ascii a) 227); [lia | reflexivity]. }
  destruct s1 as [|b s2]; [reflexivity|]. rewrite E2.
  destruct s2 as [|c s3]; [reflexivity|]. now rewrite E3.
Qed.

Lemma is_ascii_lstrip (s : string) : is_ascii s = true -> is_ascii (lstrip s) = true.
Proof.
  induction s as [|c s IH]; [reflexivity|]. intros H.
  rewrite lstrip_ascii by exact H. pose proof H as H0.
  cbn [is_ascii] in H. apply andb_true_iff in H. destruct H as [_ Hs].
  destruct (is_space c); [now apply IH | exact H0].
Qed.

Lemma is_ascii_rstrip (s : string) : is_ascii s = true -> is_ascii (rstrip s) = true.
Proof.
  induction s as [|c s IH]; [reflexivity|]. cbn [is_ascii rstrip].
  intros H. apply andb_true_iff in H. destruct H as [Hc Hs].
  destruct (all_space (String c s)); [reflexivity|].
  cbn [is_ascii]. now rewrite Hc, IH.
Qed.

Lemma is_ascii_strip (s : string) : is_ascii s = true -> is_ascii (strip s) = true.
Proof. intros H. unfold strip. now apply is_ascii_rstrip, is_ascii_lstrip. Qed.

Lemma truthy_iff (s : string) : truthy s = true <-> s <> "".
Proof. destruct s; cbn; split; intros H; congruence. Qed.

Lemma contains_truthy (x : ascii) (s : string) : contains x s = true -> truthy s = true.
Proof. destruct s; [discriminate | reflexivity]. Qed.

End NormalFormFacts.

Module GlobConverse.
Import Glob PyStrFacts NameFacts GlobFacts FileNameFacts.

Lemma match_literal_only (s u : string) :
  match_toks (literal s) u = true -> u = s.
Proof.
  revert u. induction s as [|c s IH]; intros [|x u] H; try discriminate H.
  - reflexivity.
  - unfold literal in H. cbn [list_ascii_of_string map match_toks tok_accepts] in H.
    apply andb_true_iff in H. destruct H as [Hc Hs].
    apply Ascii.eqb_eq in Hc. subst x. f_equal. now apply IH.
Qed.

Lemma match_star_literal_suffix (s u : string) :
  match_toks (TStar :: literal s) u = true -> exists mid, u = mid +:+ s.
Proof.
  induction u as [|x u IH]; intros H; rewrite match_star_unfold in H;
    apply orb_true_iff in H; destruct H as [H|H].
  - apply match_literal_only in H. exists "". exact H.
  - discriminate H.
  - apply match_literal_only in H. exists "". exact H.
  - destruct (IH H) as [mid ->]. exists (String x mid). reflexivity.
Qed.

Lemma match_literal_prefix (p u : string) (ts : list tok) :
  match_toks (literal p ++ ts) u = true ->
  exists rest, u = p +:+ rest /\ match_toks ts rest = true.
Proof.
  revert u. induction p as [|c p IH]; intros u H.
  - exists u. split; [reflexivity | exact H].
  - unfold literal in H. cbn [list_ascii_of_string map List.app] in H.
    destruct u as [|x u]; [discriminate H|].
    cbn [match_toks tok_accepts] in H.
    apply andb_true_iff in H. destruct H as [Hc Hs].
    apply Ascii.eqb_eq in Hc. subst x.
    destruct (IH u Hs) as (rest & -> & Hr). exists rest. split; [reflexivity | exact Hr].
Qed.

(** What the pattern of a pair without wildcard matches ends in [.jpg]. *)
Lemma fnmatch_sample_pattern_jpg (name emp_id file : string) :
  has_magic name = false -> has_magic emp_id = false ->
  fnmatch file (sample_pattern name emp_id) = true ->
  PyStr.endswith ".jpg" file = true.
Proof.
  intros Hn He H. unfold fnmatch in H.
  assert (Hs : has_magic (stem name emp_id +:+ "_") = false).
  { unfold stem. rewrite !has_magic_append, Hn, He. reflexivity. }
  assert (Ep : sample_pattern name emp_id = (stem name emp_id +:+ "_") +:+ "*.jpg").
  { rewrite sample_pattern_stem, append_assoc. reflexivity. }
  rewrite Ep, length_append, translate_literal in H by exact Hs.
  change (translate (String.length "*.jpg") "*.jpg") with (TStar :: literal ".jpg") in H.
  apply match_literal_prefix in H. destruct H as (rest & -> & H).
  apply match_star_literal_suffix in H. destruct H as [mid ->].
  rewrite <- append_assoc. apply endswith_append.
Qed.

End GlobConverse.

Section DialogFacts.

Context {Image : Type} {cv : OpenCV Image} {fs : @FileSystem Image}.

Import NormalFormFacts.

Implicit Types (app : @FaceApp Image) (emp_id name email : string).

Lemma sample_of_save_email (d : gmap string (@FileContent Image)) (f : string) :
  sample_of (<["user_emails.json" := OtherFile]> d) f = sample_of d f.
Proof.
  unfold sample_of. destruct (decide ("user_emails.json" = f)) as [<-|Hne].
  - reflexivity.
  - now rewrite lookup_insert_ne.
Qed.

Lemma save_email_not_a_sample name emp_id (i : nat) :
  "user_emails.json" <> sample_filename name emp_id i.
Proof.
  intros E. pose proof (FileNameFacts.has_image_suffix_sample name emp_id i) as H.
  rewrite <- E in H. discriminate H.
Qed.

(** X8: saving an e-mail address records it under the employee id and
    rewrites [user_emails.json] in the sample directory without any
    effect on recognition or enrolment: training on the directory gives
    the same recogniser and label map as before, and for every pair
    without glob wildcard the next sequence number and the numbering of
    its files are as before. The addresses of other ids are kept. *)
Theorem X8_save_email_keeps_model_and_numbering app emp_id email :
  user_emails (_save_email app emp_id email) !! emp_id = Some email
  /\ (forall other, other <> emp_id ->
        user_emails (_save_email app emp_id email) !! other = user_emails app !! other)
  /\ _train_recognizer (known_faces (_save_email app emp_id email))
     = _train_recognizer (known_faces app)
  /\ (forall name e2,
        Glob.has_magic name = false -> Glob.has_magic e2 = false ->
        start_index_of (known_faces (_save_email app emp_id email)) name e2
        = start_index_of (known_faces app) name e2)
  /\ (forall name e2,
        numbered_below_count (known_faces app) name e2 ->
        numbered_below_count (known_faces (_save_email app emp_id email)) name e2).
Proof.
  unfold _save_email.
  cbn [user_emails known_faces set_known_faces set_user_emails].
  split; [apply lookup_insert_eq|].
  split; [intros other Hne; apply lookup_insert_ne; congruence|].
  split.
  { unfold _train_recognizer, train_scan. rewrite !train_fold_closed.
    fold (samples (<["user_emails.json" := OtherFile]> (known_faces app))).
    fold (samples (known_faces app)).
    now rewrite (samples_extensional _ (known_faces app)
                   (sample_of_save_email (known_faces app))). }
  split.
  - intros name e2 Hn He.
    destruct (known_faces app !! "user_emails.json") as [c|] eqn:E.
    + rewrite !start_index_filter, listdir_insert_old by (rewrite E; eauto).
      reflexivity.
    + rewrite start_index_insert_fresh by exact E.
      destruct (Glob.kept (sample_pattern name e2) "user_emails.json") eqn:K;
        [|reflexivity].
      unfold Glob.kept in K. apply andb_true_iff in K. destruct K as [_ K].
      apply (GlobConverse.fnmatch_sample_pattern_jpg _ _ _ Hn He) in K.
      discriminate K.
  - intros name e2 H. apply numbered_insert_foreign; [|exact H].
    intros i. apply save_email_not_a_sample.
Qed.

(** X9: for a name and an id typed in ASCII, and any text typed as the
    address: the registration dialog starts a capture only with a display
    name, an employee id and an address that are not empty after
    stripping, the address containing an at sign; otherwise it logs a
    warning and changes nothing. The name it passes on is in lower case
    and has no blank (blanks become underscores, so a name typed with a
    blank in it carries an underscore), and the id is in upper case;
    after the submit the stripped address is recorded under the id. *)
Theorem X9_registration_normalises_and_validates
  app (name_text id_text email_text : string) :
  PyStr.is_ascii name_text = true ->
  PyStr.is_ascii id_text = true ->
  (register_name name_text = "" \/ normal_emp_id id_text = ""
   \/ PyStr.contains "@" (PyStr.strip email_text) = false ->
   _register_submit app name_text id_text email_text
   = (app, [Log "[WARN] Invalid input for registration."]))
  /\ (register_name name_text <> "" -> normal_emp_id id_text <> "" ->
      PyStr.contains "@" (PyStr.strip email_text) = true ->
      snd (_register_submit app name_text id_text email_text)
      = [ Notify PopupDismiss;
          ThreadStart "CaptureSamples(New)"
            (JCaptureSamples (Some (register_name name_text))
                             (normal_emp_id id_text) false None) ]
      /\ user_emails (fst (_register_submit app name_text id_text email_text))
           !! normal_emp_id id_text
         = Some (PyStr.strip email_text))
  /\ PyStr.contains " " (register_name name_text) = false
  /\ PyStr.lower (register_name name_text) = register_name name_text
  /\ PyStr.upper (normal_emp_id id_text) = normal_emp_id id_text
  /\ PyStr.is_ascii (register_name name_text) = true
  /\ PyStr.is_ascii (normal_emp_id id_text) = true
  /\ (PyStr.contains " " (PyStr.strip name_text) = true ->
      PyStr.contains "_" (register_name name_text) = true).
Proof.
  intros Han Hai.
  split; [|split; [|split; [|split; [|split; [|split; [|split]]]]]].
  6:{ unfold register_name. now apply is_ascii_replace, is_ascii_lower, is_ascii_strip. }
  6:{ unfold normal_emp_id. now apply is_ascii_upper, is_ascii_strip. }
  - intros H. unfold _register_submit, valid_email.
    destruct H as [-> | [-> | H]].
    + reflexivity.
    + now destruct (PyStr.truthy _).
    + rewrite H. now rewrite !andb_false_r.
  - intros Hn He Ha. unfold _register_submit, valid_email.
    apply truthy_iff in Hn. apply truthy_iff in He.
    rewrite Hn, He, Ha, (contains_truthy _ _ Ha). cbn [andb negb fst snd].
    split; [reflexivity|].
    unfold _save_email. cbn [user_emails set_known_faces set_user_emails].
    apply lookup_insert_eq.
  - apply replace_char_removes. discriminate.
  - apply lower_replace_lower.
  - apply upper_idem.
  - intros H. unfold register_name. apply replace_char_puts.
    now rewrite contains_blank_lower.
Qed.

Lemma known_email_saved app emp_id email :
  valid_email email = true ->
  known_email (_save_email app emp_id email) emp_id = Some email.
Proof.
  intros H. unfold known_email, _save_email.
  cbn [user_emails set_known_faces set_user_emails]. rewrite lookup_insert_eq.
  unfold valid_email in H. apply andb_true_iff in H. now rewrite (proj1 H).
Qed.

Lemma _verify_accepted app emp_id (text : string) :
  otp_accepted app emp_id text = true ->
  _verify app emp_id text
  = (app,
     [ Notify PopupDismiss;
       ThreadStart "CaptureSamples(Update)"
         (JCaptureSamples (default None (pending_names app !! emp_id))
                          emp_id true (Some 5%Z)) ]).
Proof. intros H. unfold _verify. now rewrite H. Qed.

(** X10: the update dialog for an id with a recorded address issues a
    code for that id and binds it to the display name the label map has
    for the id at that moment, if any. A text that strips to the code
    starts the update capture for five samples under that name. If the
    label map has no name for the id, that capture stops at once with
    "No existing face found" and changes nothing: the code was sent and
    verified for nothing. *)
Theorem X10_update_flow_with_known_address
  app (id_text : string) emp_id email (r : Z) (text : string) (ticks : list Tick) :
  normal_emp_id id_text = emp_id ->
  emp_id <> "" ->
  known_email app emp_id = Some email ->
  otp_storage (fst (_update_next app id_text r)) !! emp_id = Some (_generate_otp r)
  /\ In (ThreadStart "SendOTPThread" (JSendOtp email (_generate_otp r)))
        (snd (_update_next app id_text r))
  /\ (PyStr.strip text = _generate_otp r ->
      snd (_verify (fst (_update_next app id_text r)) emp_id text)
      = [ Notify PopupDismiss;
          ThreadStart "CaptureSamples(Update)"
            (JCaptureSamples (name_of_emp (label_map app) emp_id)
                             emp_id true (Some 5%Z)) ])
  /\ (name_of_emp (label_map app) emp_id = None ->
      fst (_capture_samples (fst (_update_next app id_text r))
                            (name_of_emp (label_map app) emp_id)
                            emp_id true (Some 5%Z) ticks)
      = fst (_update_next app id_text r)
      /\ written_files
           (snd (_capture_samples (fst (_update_next app id_text r))
                                  (name_of_emp (label_map app) emp_id)
                                  emp_id true (Some 5%Z) ticks)) = [])
  /\ (length (written_files
                (snd (_capture_samples (fst (_update_next app id_text r))
                                       (name_of_emp (label_map app) emp_id)
                                       emp_id true (Some 5%Z) ticks))) <= 5)%nat.
Proof.
  intros Hid Hne Hk.
  assert (E : _update_next app id_text r
              = (fst (_send_otp_flow app emp_id email
                                     (name_of_emp (label_map app) emp_id) r),
                 Notify PopupDismiss
                 :: snd (_send_otp_flow app emp_id email
                                        (name_of_emp (label_map app) emp_id) r))).
  { unfold _update_next. rewrite Hid. apply truthy_iff in Hne.
    rewrite Hne, Hk. reflexivity. }
  rewrite E. cbn [fst snd].
  set (app1 := fst (_send_otp_flow app emp_id email
                                   (name_of_emp (label_map app) emp_id) r)).
  assert (Ho : otp_storage app1 !! emp_id = Some (_generate_otp r)).
  { unfold app1, _send_otp_flow.
    cbn [fst set_pending_names set_otp_storage otp_storage]. apply lookup_insert_eq. }
  assert (Hp : pending_names app1 !! emp_id = Some (name_of_emp (label_map app) emp_id)).
  { unfold app1, _send_otp_flow.
    cbn [fst set_pending_names set_otp_storage pending_names]. apply lookup_insert_eq. }
  assert (Hl : label_map app1 = label_map app) by reflexivity.
  split; [exact Ho|].
  split; [right; right; left; reflexivity|].
  split.
  { intros Ht. rewrite _verify_accepted.
    - cbn [snd]. now rewrite Hp.
    - now apply (otp_accepted_iff _ _ _ _ Ho). }
  split.
  { intros Hnone. rewrite Hnone.
    assert (Hr : resolve_name app1 None emp_id = None)
      by (unfold resolve_name; now rewrite Hl).
    unfold _capture_samples. rewrite Hr. split; reflexivity. }
  destruct (name_of_emp (label_map app) emp_id) as [name|] eqn:En.
  - destruct (capture_loop_count name emp_id
                (session_start_index (known_faces app1) name emp_id) 5 ticks 0
                (known_faces app1)) as (_ & Ec & _).
    destruct (_capture_samples_named app1 (Some name) name emp_id true (Some 5%Z)
                ticks eq_refl) as (n & d' & es & El & _ & Hw & _).
    rewrite Hw. change (count_target_of (Some 5%Z)) with 5%Z in El.
    rewrite El in Ec. cbn [snd] in Ec. lia.
  - assert (Hr : resolve_name app1 None emp_id = None)
      by (unfold resolve_name; now rewrite Hl).
    unfold _capture_samples. rewrite Hr. cbn. lia.
Qed.

(** X11: the e-mail dialog of the update flow, given a text that
    strips to a non-empty address with an at sign, records the address,
    after which the update dialog finds it, and issues a code for the
    id bound to the name handed over; given anything else it logs a
    warning and changes nothing. *)
Theorem X11_email_registration_then_otp
  app emp_id (name : option string) (email_text : string) (r : Z) :
  (valid_email (PyStr.strip email_text) = false ->
   _email_registration_submit app emp_id name email_text r
   = (app, [Log "[WARN] Invalid email format during registration."]))
  /\ (valid_email (PyStr.strip email_text) = true ->
      known_email (fst (_email_registration_submit app emp_id name email_text r)) emp_id
      = Some (PyStr.strip email_text)
      /\ otp_storage (fst (_email_registration_submit app emp_id name email_text r))
           !! emp_id = Some (_generate_otp r)
      /\ pending_names (fst (_email_registration_submit app emp_id name email_text r))
           !! emp_id = Some name
      /\ In (ThreadStart "SendOTPThread"
               (JSendOtp (PyStr.strip email_text) (_generate_otp r)))
            (snd (_email_registration_submit app emp_id name email_text r))).
Proof.
  split.
  - intros H. unfold _email_registration_submit. now rewrite H.
  - intros H. unfold _email_registration_submit. rewrite H.
    pose proof (known_email_saved app emp_id _ H) as K.
    unfold _send_otp_flow. cbn [fst snd].
    split; [exact K|].
    cbn [set_pending_names set_otp_storage otp_storage pending_names].
    split; [apply lookup_insert_eq|]. split; [apply lookup_insert_eq|].
    right. right. left. reflexivity.
Qed.

Lemma resend_all_state app emp_id email (draws : list Z) :
  pending_names (resend_all app emp_id email draws) = pending_names app
  /\ (forall code, otp_storage app !! emp_id = Some code ->
        otp_storage (resend_all app emp_id email draws) !! emp_id
        = Some (List.last (map _generate_otp draws) code))
  /\ label_map (resend_all app emp_id email draws) = label_map app.
Proof.
  revert app. induction draws as [|r draws IH]; intros app.
  - repeat split. auto.
  - cbn [resend_all map].
    destruct (IH (fst (_resend app emp_id email r))) as (Hp & Ho & Hl).
    split; [now rewrite Hp|]. split; [|now rewrite Hl].
    intros code Hc. rewrite last_cons. apply Ho.
    unfold _resend. cbn [fst set_otp_storage otp_storage]. apply lookup_insert_eq.
Qed.

(** X12: however often Resend is pressed after a code was issued, the
    display name bound at the issue stays bound; the code in force is
    the one of the last resend (of the issue, if none); a text that
    strips to it starts the update capture under the bound name, and any
    other text is refused without a thread being started. *)
Theorem X12_resend_keeps_bound_name
  app emp_id email (name : option string) (r : Z) (draws : list Z) (text : string) :
  pending_names
    (resend_all (fst (_send_otp_flow app emp_id email name r)) emp_id email draws)
    !! emp_id = Some name
  /\ otp_storage
       (resend_all (fst (_send_otp_flow app emp_id email name r)) emp_id email draws)
       !! emp_id
     = Some (List.last (map _generate_otp draws) (_generate_otp r))
  /\ (PyStr.strip text = List.last (map _generate_otp draws) (_generate_otp r) ->
      snd (_verify
             (resend_all (fst (_send_otp_flow app emp_id email name r))
                         emp_id email draws) emp_id text)
      = [ Notify PopupDismiss;
          ThreadStart "CaptureSamples(Update)"
            (JCaptureSamples name emp_id true (Some 5%Z)) ])
  /\ (PyStr.strip text <> List.last (map _generate_otp draws) (_generate_otp r) ->
      snd (_verify
             (resend_all (fst (_send_otp_flow app emp_id email name r))
                         emp_id email draws) emp_id text)
      = [ Notify (InputHint "Incorrect – try again");
          Log "[WARN] Incorrect OTP entered." ]).
Proof.
  set (app1 := fst (_send_otp_flow app emp_id email name r)).
  destruct (resend_all_state app1 emp_id email draws) as (Hp & Ho & _).
  assert (Ho1 : otp_storage app1 !! emp_id = Some (_generate_otp r)).
  { unfold app1, _send_otp_flow.
    cbn [fst set_pending_names set_otp_storage otp_storage]. apply lookup_insert_eq. }
  assert (Hp1 : pending_names app1 !! emp_id = Some name).
  { unfold app1, _send_otp_flow.
    cbn [fst set_pending_names set_otp_storage pending_names]. apply lookup_insert_eq. }
  specialize (Ho _ Ho1).
  split; [now rewrite Hp|]. split; [exact Ho|]. split.
  - intros Ht. rewrite _verify_accepted.
    + cbn [snd]. now rewrite Hp, Hp1.
    + now apply (otp_accepted_iff _ _ _ _ Ho).
  - intros Ht. unfold _verify.
    destruct (otp_accepted _ emp_id text) eqn:E; [|reflexivity].
    apply (otp_accepted_iff _ _ _ _ Ho) in E. contradiction.
Qed.

End DialogFacts.

(* ===================================================================== *)
(** * Frame geometry *)
(* ===================================================================== *)

Lemma to_full_double (v : Z) : to_full v = (2 * v)%Z.
Proof.
  unfold to_full, py_int, FRAME_REDUCE_FACTOR, inject_Z, Qdiv, Qinv, Qmult.
  cbn [Qnum Qden]. rewrite Z.quot_1_r. lia.
Qed.

Lemma reduced_half (w : Z) : (0 <= w)%Z -> reduced w = (w / 2)%Z.
Proof.
  intros H. unfold reduced, py_int, FRAME_REDUCE_FACTOR, inject_Z, Qmult.
  cbn [Qnum Qden]. rewrite Z.mul_1_r. apply Z.quot_div_nonneg; lia.
Qed.

(** X13: a face box that the detector reports inside the down-scaled
    frame is mapped back to twice its coordinates and lies inside the
    full frame, so the region cut out for recognition is never clipped:
    along each axis the cut has the full mapped extent. *)
Theorem X13_mapped_box_inside_frame (w x w_s : Z) :
  (0 <= w)%Z -> (0 <= x)%Z -> (0 <= w_s)%Z -> (x + w_s <= reduced w)%Z ->
  to_full x = (2 * x)%Z
  /\ to_full w_s = (2 * w_s)%Z
  /\ (0 <= to_full x)%Z
  /\ (to_full x + to_full w_s <= w)%Z
  /\ slice_extent (to_full x) (to_full x + to_full w_s) w = to_full w_s.
Proof.
  intros H0 Hx Hw Hin. rewrite !to_full_double.
  rewrite reduced_half in Hin by exact H0.
  assert (Hh : (2 * (w / 2) <= w)%Z) by (apply Z.mul_div_le; lia).
  unfold slice_extent. repeat split; lia.
Qed.

(** X14: with a colour icon loaded, the tick is drawn exactly when the
    frame is at least 25 pixels wide and high, and its 25 by 25 square
    then lies inside the frame wherever the caption is; on a smaller
    frame, or without icon, nothing is drawn. With a grey-scale icon the
    overlay raises [IndexError] on every frame of at least 25 by 25. *)
Theorem X14_tick_overlay_inside_frame
  (tick_icon : option IconShape)
  (text_x text_y_baseline text_width text_height h_frame w_frame : Z) :
  (0 <= h_frame)%Z -> (0 <= w_frame)%Z ->
  ((exists ix iy,
       _overlay_tick_next_to_name tick_icon text_x text_y_baseline
                                  text_width text_height h_frame w_frame
       = DrawnAt ix iy)
   <-> (tick_icon = Some IconBGR \/ tick_icon = Some IconBGRA)
       /\ (25 <= h_frame)%Z /\ (25 <= w_frame)%Z)
  /\ (forall ix iy,
        _overlay_tick_next_to_name tick_icon text_x text_y_baseline
                                   text_width text_height h_frame w_frame
        = DrawnAt ix iy ->
        (0 <= ix)%Z /\ (ix + 25 <= w_frame)%Z /\ (0 <= iy)%Z /\ (iy + 25 <= h_frame)%Z)
  /\ (_overlay_tick_next_to_name tick_icon text_x text_y_baseline
                                 text_width text_height h_frame w_frame
      = OverlayRaises "IndexError"
      <-> tick_icon = Some IconGray /\ (25 <= h_frame)%Z /\ (25 <= w_frame)%Z).
Proof.
  intros Hh Hw. unfold _overlay_tick_next_to_name, tick_corner, slice_extent,
    tick_icon_size, padding_x.
  destruct tick_icon as [icon|].
  2:{ split; [|split].
      - split; [intros (? & ? & E); discriminate E|].
        intros ([E|E] & _); discriminate E.
      - intros ix iy E; discriminate E.
      - split; [intros E; discriminate E | intros [E _]; discriminate E]. }
  set (cx := (text_x + text_width + 5)%Z).
  set (cy := (text_y_baseline - text_height + (text_height - 25) / 2)%Z).
  clearbody cx cy.
  match goal with
  | |- context [if ?b then _ else _] => destruct b eqn:E
  end.
  - apply andb_true_iff in E. destruct E as [Er Ec].
    apply Z.eqb_eq in Er. apply Z.eqb_eq in Ec.
    assert (H25 : (25 <= h_frame)%Z /\ (25 <= w_frame)%Z) by lia.
    split; [|split].
    + split.
      * intros (ix & iy & Es). destruct icon; try discriminate Es; tauto.
      * intros ([Ei|Ei] & _); injection Ei as ->; eauto.
    + intros ix iy Es. destruct icon; try discriminate Es; injection Es as <- <-; lia.
    + split.
      * intros Es. destruct icon; try discriminate Es. tauto.
      * intros (Ei & _). injection Ei as ->. reflexivity.
  - apply andb_false_iff in E.
    assert (Hsmall : ~ ((25 <= h_frame)%Z /\ (25 <= w_frame)%Z)).
    { intros [H1 H2]. destruct E as [E|E]; apply Z.eqb_neq in E; lia. }
    split; [|split].
    + split; [intros (? & ? & Es); discriminate Es | tauto].
    + intros ix iy Es. discriminate Es.
    + split; [intros Es; discriminate Es | tauto].
Qed.

(* ===================================================================== *)
(** * Which part of the state each activity touches *)
(* ===================================================================== *)

Section StateFacts.

Context {Image : Type} {cv : OpenCV Image} {fs : @FileSystem Image}.

Implicit Types (app : @FaceApp Image) (emp_id name email : string)
  (face : @Face Image) (shape : Z * Z).

Lemma same_but_cooldown_refl app : same_but_cooldown app app.
Proof. now destruct app. Qed.

Lemma same_but_cooldown_trans app app1 app2 :
  same_but_cooldown app app1 -> same_but_cooldown app1 app2 ->
  same_but_cooldown app app2.
Proof.
  unfold same_but_cooldown. intros H1 H2. rewrite H2. rewrite H1 at 1.
  reflexivity.
Qed.

Lemma on_recognised_same app name emp_id now :
  same_but_cooldown app (fst (on_recognised app name emp_id now)).
Proof.
  unfold on_recognised. destruct (Qltb _ _); cbn [fst].
  - reflexivity.
  - apply same_but_cooldown_refl.
Qed.

Lemma recognise_face_same app shape face :
  same_but_cooldown app (fst (recognise_face app shape face)).
Proof.
  unfold recognise_face.
  destruct (predict_or_unknown _ _) as [label conf].
  destruct (identity_of _ _) as [name emp_id].
  destruct (Qltb conf 60); [|apply same_but_cooldown_refl].
  pose proof (on_recognised_same app name emp_id (face_now face)) as H.
  now destruct (on_recognised app name emp_id (face_now face)) as [app1 es].
Qed.

Lemma recognise_faces_same shape (faces : list Face) : forall app,
  same_but_cooldown app (fst (recognise_faces app shape faces)).
Proof.
  induction faces as [|face faces IH]; intros app; [apply same_but_cooldown_refl|].
  cbn [recognise_faces].
  pose proof (recognise_face_same app shape face) as H1.
  destruct (recognise_face app shape face) as [app1 e1].
  destruct (died e1); [exact H1|].
  pose proof (IH app1) as H2.
  destruct (recognise_faces app1 shape faces) as [app2 e2].
  exact (same_but_cooldown_trans _ _ _ H1 H2).
Qed.

Lemma camera_frame_same app (frame : option CamFrame) :
  same_but_cooldown app (fst (camera_frame app frame)).
Proof.
  unfold camera_frame. destruct frame as [fr|]; [|apply same_but_cooldown_refl].
  destruct (frame_detection fr) as [faces|];
    [apply recognise_faces_same | apply same_but_cooldown_refl].
Qed.

Lemma _camera_loop_same (frames : list (option CamFrame)) : forall app,
  same_but_cooldown app (fst (_camera_loop app frames)).
Proof.
  induction frames as [|frame frames IH]; intros app.
  - apply same_but_cooldown_refl.
  - cbn [_camera_loop].
    pose proof (camera_frame_same app frame) as H1.
    destruct (camera_frame app frame) as [app1 e1].
    destruct (died e1); [exact H1|].
    pose proof (IH app1) as H2.
    destruct (_camera_loop app1 frames) as [app2 e2].
    exact (same_but_cooldown_trans _ _ _ H1 H2).
Qed.

(** X15: each activity keeps to its part of the state. The camera loop
    changes nothing but the cooldown table: not the model, not the
    directory, not the OTP tables, not the addresses. A capture session
    changes nothing but the sample directory and the model. Issuing,
    resending and verifying a code change nothing but the OTP codes and
    bound names, and verifying changes nothing at all. *)
Theorem X15_activities_keep_to_their_state
  app (frames : list (option CamFrame))
  (name0 : option string) emp_id email (updating : bool) (sample_count : option Z)
  (ticks : list Tick) (bound : option string) (r : Z) (text : string) :
  same_but_cooldown app (fst (_camera_loop app frames))
  /\ same_but_samples_and_model
       app (fst (_capture_samples app name0 emp_id updating sample_count ticks))
  /\ same_but_otp app (fst (_send_otp_flow app emp_id email bound r))
  /\ same_but_otp app (fst (_resend app emp_id email r))
  /\ fst (_verify app emp_id text) = app.
Proof.
  split; [apply _camera_loop_same|].
  split.
  { unfold _capture_samples, same_but_samples_and_model.
    destruct (resolve_name app name0 emp_id) as [name|]; [|now destruct app].
    destruct (capture_loop _ _ _ _ _ _ _) as [[n d'] es].
    destruct (died es); [now destruct app|].
    destruct (_train_recognizer d') as [r' lm']. reflexivity. }
  split; [reflexivity|].
  split; [unfold _resend, same_but_otp; now destruct app|].
  apply _verify_keeps_state.
Qed.

End StateFacts.

(* ===================================================================== *)
(** * The further properties at concrete inputs *)
(* ===================================================================== *)

(** On a camera with a grey-scale icon loaded, the first recognised
    face ends the camera thread. *)
Lemma X3_witness :
  (tick_icon gray_app = Some IconGray
   /\ (25 <= fst vga)%Z /\ (25 <= snd vga)%Z
   /\ predict_or_unknown (recognizer gray_app) (face_roi (alice_face 1700000000))
      = (0%Z, 0%Q)
   /\ (0 < 60)%Q)
  /\ _camera_loop gray_app
       [Some (mkCamFrame vga (Faces [alice_face 1700000000; alice_face 1700000001]));
        Some (mkCamFrame vga (Faces [alice_face 1700000002]))]
     = recognise_face gray_app vga (alice_face 1700000000).
Proof.
  assert (Hp : predict_or_unknown (recognizer gray_app) (face_roi (alice_face 1700000000))
               = (0%Z, 0%Q)) by (vm_compute; reflexivity).
  split; [repeat split; try (cbn; lia); exact Hp|].
  destruct (X3_camera_loop_annotates_every_face gray_app []) as (_ & _ & _ & _ & H).
  destruct (H vga (alice_face 1700000000) 0%Z 0%Q [alice_face 1700000001]
              [Some (mkCamFrame vga (Faces [alice_face 1700000002]))]
              eq_refl ltac:(cbn; lia) ltac:(cbn; lia) Hp eq_refl) as (_ & _ & E).
  exact E.
Defined.

Example gray_icon_ends_camera_thread :
  snd (_camera_loop gray_app
         [Some (mkCamFrame vga (Faces [alice_face 1700000000; alice_face 1700000001]))])
  = [ CooldownWrite "E1" 1700000000;
      ThreadStart "AttendanceSubmitter" (JHandleRecognition "alice" "E1");
      Notify (Status "Attendance recorded for Alice!");
      Draw (BoxRecognised "Alice (E1)");
      Uncaught "IndexError" ].
Proof. vm_compute. reflexivity. Qed.


(** The same session: the file written before the exception is in the
    directory, and the model does not know it. *)
Example session_cut_short_leaves_stale_model :
  written_files (snd (_capture_samples alice_app None "E1" true (Some 5%Z)
                        [FrameFaces [7%Z]; DetectorRaises; FrameFaces [7%Z]]))
  = ["alice_E1_001.jpg"]
  /\ length (label_map (fst (_capture_samples alice_app None "E1" true (Some 5%Z)
                               [FrameFaces [7%Z]; DetectorRaises; FrameFaces [7%Z]])))
     = 1%nat
  /\ length (snd (_train_recognizer
                    (known_faces
                       (fst (_capture_samples alice_app None "E1" true (Some 5%Z)
                               [FrameFaces [7%Z]; DetectorRaises; FrameFaces [7%Z]])))))
     = 2%nat.
Proof. repeat split; vm_compute; reflexivity. Qed.

(** A name with a path separator: in a file system where such a path
    leads nowhere, the session counts its samples and stores none. *)
Example separator_name_stores_nothing :
  written_files (snd (_capture_samples empty_app (Some "a/b") "E1" false (Some 2%Z)
                        (repeat (FrameFaces [7%Z]) 2)))
  = ["a/b_E1_000.jpg"; "a/b_E1_001.jpg"]
  /\ known_faces (fst (_capture_samples empty_app (Some "a/b") "E1" false (Some 2%Z)
                         (repeat (FrameFaces [7%Z]) 2))) = ∅
  /\ label_map (fst (_capture_samples empty_app (Some "a/b") "E1" false (Some 2%Z)
                        (repeat (FrameFaces [7%Z]) 2))) = [].
Proof. repeat split; vm_compute; reflexivity. Qed.

Lemma X5_witness :
  (PyStr.contains "_" "Alice" = false /\ PyStr.contains "_" "e1" = false)
  /\ parse_sample_name (sample_filename "Alice" "e1" 3)
     = Some (PyStr.lower "Alice", PyStr.upper "e1").
Proof.
  split; [split; reflexivity|].
  destruct (X5_sample_name_round_trip "Alice" "e1" 3) as (_ & E & _).
  exact (E eq_refl eq_refl).
Defined.


(** [alice_dir] with and without the file of addresses. *)
Lemma X7_witness :
  (forall f, sample_of (<["user_emails.json" := OtherFile]> alice_dir) f
             = sample_of alice_dir f)
  /\ _train_recognizer (<["user_emails.json" := OtherFile]> alice_dir)
     = _train_recognizer alice_dir.
Proof.
  split; [apply sample_of_save_email|].
  apply (X7_training_depends_on_samples_only
           (<["user_emails.json" := OtherFile]> alice_dir) alice_dir).
  apply sample_of_save_email.
Defined.

Lemma X8_witness :
  (Glob.has_magic "alice" = false /\ Glob.has_magic "E1" = false)
  /\ start_index_of (known_faces (_save_email alice_app "E1" "a@b.c")) "alice" "E1"
     = start_index_of (known_faces alice_app) "alice" "E1".
Proof.
  split; [split; reflexivity|].
  destruct (X8_save_email_keeps_model_and_numbering alice_app "E1" "a@b.c")
    as (_ & _ & _ & E & _).
  exact (E "alice" "E1" eq_refl eq_refl).
Defined.

Lemma X9_witness :
  (PyStr.is_ascii " Alice Smith " = true /\ PyStr.is_ascii " e1 " = true
   /\ register_name " Alice Smith " <> "" /\ normal_emp_id " e1 " <> ""
   /\ PyStr.contains "@" (PyStr.strip " a@b.c ") = true)
  /\ user_emails (fst (_register_submit empty_app " Alice Smith " " e1 " " a@b.c "))
       !! normal_emp_id " e1 "
     = Some (PyStr.strip " a@b.c ").
Proof.
  assert (Hn : register_name " Alice Smith " <> "")
    by (intros E; vm_compute in E; discriminate E).
  assert (Hi : normal_emp_id " e1 " <> "")
    by (intros E; vm_compute in E; discriminate E).
  assert (He : PyStr.contains "@" (PyStr.strip " a@b.c ") = true)
    by (vm_compute; reflexivity).
  split; [repeat split; assumption|].
  destruct (X9_registration_normalises_and_validates
              empty_app " Alice Smith " " e1 " " a@b.c " eq_refl eq_refl) as (_ & E & _).
  destruct (E Hn Hi He) as [_ Eu]. exact Eu.
Defined.

(** The update dialog for E1 after her address was saved. *)
Lemma X10_witness :
  (normal_emp_id " e1 " = "E1" /\ "E1" <> ""
   /\ known_email (_save_email alice_app "E1" "a@b.c") "E1" = Some "a@b.c")
  /\ otp_storage (fst (_update_next (_save_email alice_app "E1" "a@b.c") " e1 " 23456))
       !! "E1"
     = Some (_generate_otp 23456).
Proof.
  assert (Hi : normal_emp_id " e1 " = "E1") by (vm_compute; reflexivity).
  assert (Hne : "E1" <> "") by discriminate.
  assert (Hk : known_email (_save_email alice_app "E1" "a@b.c") "E1" = Some "a@b.c")
    by (vm_compute; reflexivity).
  split; [repeat split; assumption|].
  destruct (X10_update_flow_with_known_address
              (_save_email alice_app "E1" "a@b.c") " e1 " "E1" "a@b.c" 23456
              "123456" [] Hi Hne Hk) as (E & _).
  exact E.
Defined.

Lemma X11_witness :
  valid_email (PyStr.strip " a@b.c ") = true
  /\ known_email
       (fst (_email_registration_submit alice_app "E1" (Some "alice") " a@b.c " 23456))
       "E1"
     = Some (PyStr.strip " a@b.c ").
Proof.
  assert (H : valid_email (PyStr.strip " a@b.c ") = true) by (vm_compute; reflexivity).
  split; [exact H|].
  destruct (X11_email_registration_then_otp alice_app "E1" (Some "alice") " a@b.c " 23456)
    as [_ E].
  destruct (E H) as (Ek & _). exact Ek.
Defined.

Lemma X12_witness :
  PyStr.strip " 654321 "
  = List.last (map _generate_otp [11111; 554321]%Z) (_generate_otp 23456)
  /\ snd (_verify
            (resend_all (fst (_send_otp_flow alice_app "E1" "a@b.c" (Some "alice") 23456))
                        "E1" "a@b.c" [11111; 554321]%Z)
            "E1" " 654321 ")
     = [ Notify PopupDismiss;
         ThreadStart "CaptureSamples(Update)"
           (JCaptureSamples (Some "alice") "E1" true (Some 5%Z)) ].
Proof.
  assert (H : PyStr.strip " 654321 "
              = List.last (map _generate_otp [11111; 554321]%Z) (_generate_otp 23456))
    by (vm_compute; reflexivity).
  split; [exact H|].
  destruct (X12_resend_keeps_bound_name alice_app "E1" "a@b.c" (Some "alice") 23456
              [11111; 554321]%Z " 654321 ") as (_ & _ & E & _).
  exact (E H).
Defined.

(** A box at the right edge of the reduced frame of a 641 pixel wide
    frame. *)
Lemma X13_witness :
  ((0 <= 641)%Z /\ (0 <= 300)%Z /\ (0 <= 20)%Z /\ (300 + 20 <= reduced 641)%Z)
  /\ slice_extent (to_full 300) (to_full 300 + to_full 20) 641 = to_full 20.
Proof.
  assert (H : (300 + 20 <= reduced 641)%Z) by (vm_compute; discriminate).
  split; [repeat split; try lia; exact H|].
  destruct (X13_mapped_box_inside_frame 641 300 20) as (_ & _ & _ & _ & E);
    [lia | lia | lia | exact H | exact E].
Defined.

(** A caption that ends beyond the right edge of a 640 by 480 frame. *)
Lemma X14_witness :
  ((0 <= 480)%Z /\ (0 <= 640)%Z)
  /\ exists ix iy,
       _overlay_tick_next_to_name (Some IconBGRA) 630 10 100 20 480 640 = DrawnAt ix iy
       /\ (0 <= ix)%Z /\ (ix + 25 <= 640)%Z /\ (0 <= iy)%Z /\ (iy + 25 <= 480)%Z.
Proof.
  split; [lia|].
  destruct (X14_tick_overlay_inside_frame (Some IconBGRA) 630 10 100 20 480 640)
    as (Ed & Ei & _); [lia | lia |].
  destruct (proj2 Ed) as (ix & iy & E); [repeat split; try lia; now right|].
  exists ix, iy. split; [exact E | exact (Ei ix iy E)].
Defined.
